(* ===== verification/_CoqProject ===== *)
-Q . S2P
Prelude.v
JsValue.v
Promise.v
Config.v
SqlLex.v
SqlParse.v
PropertySearch.v
Users.v
Reservations.v
AddProperty.v
Api.v
MiniPg.v
MiniPgExec.v
EndToEnd.v
DbInvariant.v
Concurrency.v
