(* ===== verification/Prelude.v ===== *)
(** * LightBnB data-access layer: a verification development

    The program is [src/LightBnB_WebApp/server/database.js], the data
    layer of the LightBnB web application.  It exports six functions.
    Each builds one parameterised SQL statement, sends it to a
    process-wide [pg] connection pool with [pool.query(text, values)],
    and shapes the promise the pool returns.  Its [.then] callback
    extracts the rows, sometimes throwing.  Its [.catch] callback logs
    [err.message] and resolves to [null], or to [undefined] for
    [getAllProperties].  The functions share no state except the pool:

    - [getUserWithEmail], [getUserWithId]: one SELECT on [users]; the
      [.then] callback throws when [res.rows[0]] is falsy;
    - [addUser]: INSERT ... RETURNING * of name, password, email;
    - [getAllReservations]: a fixed join with [LIMIT $2];
    - [getAllProperties]: builds its WHERE/HAVING clauses one option at a
      time with string concatenation and positional placeholders
      [$1, $2, ...]; this is the only non-trivial code;
    - [addProperty]: INSERT of 14 columns read from the argument object.

    ** Files, in dependency order

    The code under src/:
    - [Prelude] (this file): notations in [lbnb_scope], string and list
      lemmas the components share, the [lbnb] hint databases and tactics.
    - [JsValue]: JavaScript values as the code uses them: truthiness
      ([if (options.x)]), template-literal interpolation ([`${v}`]),
      [Number.prototype.toString] on integers, default parameters and
      property access on plain objects, with objects as stdpp [gmap]s.
    - [Promise]: the promise pipeline as a state, log and exception monad
      over the state of whatever the pool talks to: [then_], [catch_],
      [throw], [console_log], and the [Pool] class, the interface the
      code needs of [pg]'s [Pool#query].  Every function below is
      written against this class, so its theorems hold for any pool.
    - [Config]: lines 1-14: [dotenv]'s [config()] as the process
      environment over the [.env] file's variables (it never overrides),
      and the pool settings read from [env].
    - [PropertySearch]: [getAllProperties], block by block (one
      Definition per [if] of lines 150-211), with the query-building
      state ([queryParams], [whereAnd], [queryString]) as a record.
    - [Users]: [getUserWithEmail], [getUserWithId], [addUser].
    - [Reservations]: [getAllReservations].
    - [AddProperty]: [addProperty] and its column array.
    - [Api]: the six exported functions as one type of calls, for the
      properties every function shares.

    The database, an external collaborator modelled from the spec
    (sections 3 and 6) and PostgreSQL's documented behaviour, not from
    code of the repository, so none of it is in the map:
    - [SqlLex]: the tokens of a statement text; placeholders [$n].
    - [SqlParse]: the statement shapes the code sends, as an AST, with
      a printer and a parser for the property search.
    - [MiniPg]: the four tables with their [serial] sequences, how [pg]
      sends a value (as text, [null]/[undefined] as NULL), the casts, LIKE,
      numeric literals, AVG and the NULLS LAST order.
    - [MiniPgExec]: execution of the parsed statements (SELECT by key,
      INSERT ... RETURNING * with the unique e-mail and the owner foreign
      key, the reservations join, the property search) and the instance
      [minipg_pool] of [Pool].
    - [EndToEnd]: the code's own functions run with [minipg_pool]: the
      testable properties of spec section 8.
    - [DbInvariant]: the integrity of the database (ids from the
      sequences, unique e-mails, owners that exist) under any sequence
      of calls, with sequences of calls as [run_calls].
    - [Concurrency]: concurrent calls (spec section 5) as a step
      relation [cstep] on a state [conc]: calling a function sends its
      statement at once ([issue]); the server runs any statement in
      flight ([exec_call]); the [.then]/[.catch] callbacks of any
      answered call then run ([settle_call], with
      [Api.continue_call], the code's callbacks applied to the
      response).

    ** What is proved (see the manifest for the claim list)

    - [PropertySearch]: the positional-placeholder discipline (the i-th
      placeholder of the lexed statement is [$i], and there are as many
      as bound values) as an invariant every block preserves; the
      refinement of the "list of predicate/parameter pairs" design of
      the spec (section 9): the built text lexes to the rendering of a
      structured query, and parses back to it, unless [owner_id] meets
      another filter; the bound values; the WHERE defect ([owner_id]
      never switches [whereAnd] to [AND], so with another filter the text
      has two [WHERE]s).
    - [Users], [Reservations], [AddProperty], [Api]: the functional and
      error contract of each function for any pool: what is sent, what it
      resolves to on each branch, what is logged; that every function
      resolves and never rejects, and sends exactly one query; that each
      column of the INSERTs receives the field of the same name; that a
      failed query always ends in the function's sentinel ([undefined]
      for [getAllProperties], [null] otherwise) with the error's message
      logged.
    - What the code reads of its argument objects: [obj_agree ks] (in
      [JsValue]) is the equivalence "agree on the properties [ks]", and
      every block of the search, [build_query], [getAllProperties],
      [addUser] and [addProperty] is a [Proper] morphism for it, so two
      calls that agree on what the function reads run the same (proved
      by setoid rewriting through the blocks).
    - The types of the values the search binds: strings, then the limit
      as passed.
    - [SqlParse]: the print/parse roundtrip of the search statement.
    - [EndToEnd]: against the database model, the seven properties of
      spec section 8 (a missing e-mail gives [null]; sign-up then log-in
      returns the user; no options gives at most [limit] rows sorted by
      cost; price bounds and a rating bound are respected; a guest's
      reservations are sorted by start date, bounded and carry an average
      rating; [addProperty] returns the 14 values with a fresh id), the
      duplicate-e-mail error path, and the double WHERE at run time;
      the price search is complete as well as sound when the table fits
      the limit; the city search is a case-sensitive substring test; an
      owner's listings are the owner's reviewed properties only.
    - [Config]: each pool setting is the process environment's
      variable when set, the [.env] file's otherwise; an example shows
      that [USER], which a login shell sets, is then never read from
      [.env].
    - [DbInvariant]: every statement of the code is one of five
      changes of the database (an inductive [db_change]), because
      neither INSERT names the [id] column ([statement_draws_ids]);
      each change keeps the integrity invariant [db_wf], so any
      sequence of calls does, by induction on the sequence.  An
      INSERT that named [id], which PostgreSQL accepts, would break it
      ([explicit_id_breaks_wf]).  The read functions change nothing.
    - [Concurrency]: serializability (every interleaving leaves the
      database and gives each call the answer of the sequential run of
      the calls in the order the server ran them) and integrity under
      every interleaving.  As a sanity check of the model, its runs
      without new calls are finite and stop only once each call has
      been answered exactly once.  A race shows that no order is
      promised: a lookup issued with the sign-up of its e-mail may
      resolve to [null].
    - Integer widths: the database casts a bound value to [integer]
      (four bytes) or, for [LIMIT], [bigint], and refuses a value out of
      range; a [serial] sequence stops at 2147483647.  The end-to-end
      theorems carry the range of their integer inputs as hypotheses,
      and two theorems show what happens outside it: an out-of-range id
      is refused like a missing user, an exhausted sequence makes every
      [addUser] resolve to [null].

    ** Bounds and fuel

    All the code is straight-line, so the code's models need no fuel,
    and it has no loop whose termination a theorem could state: the only
    recursion of the code's models ([js_join], the [map] of
    [addProperty]) is structural.  Only the database's parser
    [parse_conds] takes fuel, the length of its input, and
    [SqlParse.parse_conds_enough] proves that fuel adequate: each round
    consumes tokens, so any fuel at least the input's length gives the
    same result.  The runs of the concurrent model end by a measure:
    twice the statements in flight plus the callbacks pending decreases
    at every step.  The
    theorems about [getAllProperties] that hold for every options object
    go by the 32 truthiness cases of the five options, evaluated by
    [vm_compute]; the option values are abstracted first, so the cases
    cover every value.

    ** Not modelled

    The HTTP routes are not in the repository's sources.  The two
    [require]d JSON fixtures (lines 4-5) are never used.  The parsing of
    the [.env] file's lines is [dotenv]'s own code: the file enters as
    the map of the variables it defines.  JavaScript numbers are modelled as integers ([Z]);
    fractional numbers are not.  [Number.prototype.toString] prints an
    integer in plain decimal only below 10^21, and a double holds every
    integer only below 2^53: the model is faithful for the safe
    integers, the numbers the code formats (array lengths, ids, prices,
    limits).  In the database model, dates are ISO
    text, and there is no UPDATE or DELETE (the code sends none).  The
    server runs each statement atomically: each call sends a single
    statement, which PostgreSQL runs as its own transaction, so the
    interleavings of [Concurrency] are those of whole statements.  The
    pool's limit on open connections is not modelled: it only delays
    statements, and every order of them is already a run.  Each
    INSERT draws its id when it runs, so ids are drawn in the server's
    order; PostgreSQL draws [nextval] outside the transaction, which
    can make ids and commit order differ, and that is not modelled.
    The drawn id is not checked against the primary key: it is fresh
    while [db_wf] holds. *)

From stdpp Require Export base list strings gmap sorting.
From Stdlib Require Export ZArith Ascii.

Declare Scope lbnb_scope.
Delimit Scope lbnb_scope with lbnb.
Open Scope stdpp_scope.

(** The newline character, written [nl] in the models of template
    literals that span several source lines. *)
Definition nl : string := String (Ascii.ascii_of_nat 10) EmptyString.

(** The double-quote character, which messages quote values with. *)
Definition dq : string := String (Ascii.ascii_of_nat 34) EmptyString.

(** A template literal spanning several source lines, given line by
    line: [template_lines ["a"; "  b"]] is the text of [`a
  b`]. *)
Definition template_lines (ls : list string) : string := String.concat nl ls.

Create HintDb lbnb discriminated.
Create Rewrite HintDb lbnb_str.

(** ** Strings *)

Lemma str_app_cons (c : Ascii.ascii) (s t : string) :
  String c s +:+ t = String c (s +:+ t).
Proof. reflexivity. Qed.

Lemma str_app_nil_l (s : string) : EmptyString +:+ s = s.
Proof. reflexivity. Qed.

Lemma str_app_nil_r (s : string) : s +:+ EmptyString = s.
Proof. induction s as [|c s IH]; [done|]. rewrite str_app_cons, IH. done. Qed.

Lemma str_app_assoc (s t u : string) : s +:+ (t +:+ u) = (s +:+ t) +:+ u.
Proof. induction s as [|c s IH]; [done|]. rewrite !str_app_cons, IH. done. Qed.

Lemma str_app_neq_nil_r (s t : string) : t <> EmptyString -> s +:+ t <> EmptyString.
Proof. destruct s; [done|]. by rewrite str_app_cons. Qed.

#[export] Hint Rewrite str_app_cons str_app_nil_l str_app_nil_r : lbnb_str.
#[export] Hint Resolve str_app_neq_nil_r : lbnb.

(** The characters of a string, as a list. *)
Lemma list_ascii_of_string_app (s t : string) :
  String.list_ascii_of_string (s +:+ t) =
  String.list_ascii_of_string s ++ String.list_ascii_of_string t.
Proof. induction s as [|c s IH]; [done|]. rewrite str_app_cons. simpl. by rewrite IH. Qed.

Lemma string_of_list_ascii_app (l1 l2 : list Ascii.ascii) :
  String.string_of_list_ascii (l1 ++ l2) =
  String.string_of_list_ascii l1 +:+ String.string_of_list_ascii l2.
Proof. induction l1 as [|c l1 IH]; [done|]. simpl. by rewrite IH. Qed.

(** A string whose characters contain those of [w] contains [w]. *)
Lemma str_infix_of_list (c w : string) (a b : list Ascii.ascii) :
  String.list_ascii_of_string c = a ++ String.list_ascii_of_string w ++ b ->
  c = String.string_of_list_ascii a +:+ w +:+ String.string_of_list_ascii b.
Proof.
  intros H. rewrite <- (String.string_of_list_ascii_of_string c), H.
  by rewrite !string_of_list_ascii_app, String.string_of_list_ascii_of_string.
Qed.

(** Every character of a string satisfies [p]. *)
Definition str_forallb (p : Ascii.ascii -> bool) (s : string) : bool :=
  forallb p (String.list_ascii_of_string s).

Lemma str_forallb_app p s t :
  str_forallb p (s +:+ t) = str_forallb p s && str_forallb p t.
Proof. unfold str_forallb. by rewrite list_ascii_of_string_app, forallb_app. Qed.

#[export] Hint Rewrite str_forallb_app : lbnb_str.

(** ** Lists *)

Lemma length_snoc {A} (l : list A) (x : A) : length (l ++ [x]) = S (length l).
Proof. rewrite length_app. simpl. lia. Qed.

#[export] Hint Rewrite @length_snoc : lbnb_str.

Lemma StronglySorted_take {A} (R : A -> A -> Prop) (n : nat) (l : list A) :
  StronglySorted R l -> StronglySorted R (take n l).
Proof.
  revert n. induction l as [|x l IH]; intros [|n] Hs; simpl; [constructor..|].
  inversion Hs as [|? ? Hl Hx]; subst. constructor; [by apply IH|].
  by apply Forall_take.
Qed.

Lemma elem_of_take_elem_of {A} (x : A) (n : nat) (l : list A) : x ∈ take n l -> x ∈ l.
Proof. rewrite elem_of_take. intros (i & Hi & _). by eapply list_elem_of_lookup_2. Qed.

Lemma filter_Forall_nil {A} (P : A -> Prop) `{!forall x, Decision (P x)} (l : list A) :
  Forall (fun x => ~ P x) l -> filter P l = [].
Proof. induction 1 as [|x l Hx _ IH]; [done|]. rewrite filter_cons, decide_False; done. Qed.

(** Turn an option-valued equation into its cases. *)
Ltac case_some H :=
  match type of H with
  | context [match ?o with Some _ => _ | None => _ end] =>
      let E := fresh "E" in destruct o eqn:E
  end.

(** Simplify string appends and lengths; used by every component. *)
Ltac str_simpl := autorewrite with lbnb_str in *.
