(* ===== verification/JsValue.v ===== *)
(** * JavaScript values as [database.js] uses them

    The code handles JavaScript values in three places.  [if
    (options.x)] tests truthiness.  [`${v}`] and [`$${n}`] interpolate
    values into template literals.  [options.x] and [property[value]]
    read properties of plain objects.  This file models those three
    operations for primitive values, with objects as stdpp [gmap]s from
    property names to values.  Numbers are integers: every number the
    code formats is an array length or an integer option. *)

From S2P Require Import Prelude.
From Stdlib Require Import DecimalString DecimalN DecimalPos.

(** Primitive JavaScript values. *)
Inductive jsval :=
| JUndefined
| JNull
| JBool (b : bool)
| JNum (n : Z)
| JStr (s : string).

#[export] Instance jsval_eq_dec : EqDecision jsval.
Proof. solve_decision. Defined.

(** A plain object ([options], [property], a result row). *)
Abbreviation jsobj := (gmap string jsval).

(** [o.k] / [o[k]]: an absent property reads as [undefined]. *)
Definition obj_get (o : jsobj) (k : string) : jsval :=
  default JUndefined (o !! k).

(** ToBoolean: [undefined], [null], [false], [0] and [""] are falsy.
    (NaN and -0 do not arise for integers.) *)
Definition truthy (v : jsval) : bool :=
  match v with
  | JUndefined | JNull => false
  | JBool b => b
  | JNum n => negb (Z.eqb n 0)
  | JStr s => negb (String.eqb s "")
  end.

(** [Number.prototype.toString] on an integer: optional minus sign then
    the decimal digits, without leading zeros. *)
Definition js_number_to_string (n : Z) : string :=
  NilZero.string_of_int (Z.to_int n).

(** ToString of a primitive, which is what [`${v}`] produces. *)
Definition js_to_string (v : jsval) : string :=
  match v with
  | JUndefined => "undefined"
  | JNull => "null"
  | JBool true => "true"
  | JBool false => "false"
  | JNum n => js_number_to_string n
  | JStr s => s
  end.

(** A default parameter [(x = d) => ...]: [d] replaces [undefined] only. *)
Definition default_param (v d : jsval) : jsval :=
  match v with
  | JUndefined => d
  | _ => v
  end.

(** ** Lemmas *)

Definition is_digit (c : Ascii.ascii) : bool :=
  match NilEmpty.uint_of_string (String c EmptyString) with
  | Some _ => true
  | None => false
  end.

Lemma string_of_uint_digits (d : Decimal.uint) :
  str_forallb is_digit (NilEmpty.string_of_uint d) = true.
Proof. induction d; simpl; auto. Qed.

(** The printed form of a non-negative integer consists of digits
    only and reads back as the same number: this is the roundtrip
    that makes [`$${queryParams.length}`] a well-formed placeholder. *)
Lemma js_number_to_string_N (n : N) :
  js_number_to_string (Z.of_N n) = NilZero.string_of_uint (N.to_uint n).
Proof. by destruct n. Qed.

Lemma js_number_to_string_digits (n : N) :
  str_forallb is_digit (js_number_to_string (Z.of_N n)) = true /\
  js_number_to_string (Z.of_N n) <> EmptyString.
Proof.
  rewrite js_number_to_string_N.
  destruct n as [|p]; [done|]. simpl.
  pose proof (DecimalPos.Unsigned.to_uint_nonnil p).
  destruct (Pos.to_uint p); try done; split; try done;
    apply (string_of_uint_digits (_ _)).
Qed.

Lemma js_number_to_string_parse (n : N) :
  option_map N.of_uint (NilZero.uint_of_string (js_number_to_string (Z.of_N n))) = Some n.
Proof.
  rewrite js_number_to_string_N.
  destruct n as [|p]; [done|]. simpl N.to_uint.
  rewrite NilZero.usu by apply DecimalPos.Unsigned.to_uint_nonnil.
  simpl. by rewrite <- (DecimalN.Unsigned.of_to (N.pos p)).
Qed.

Lemma obj_get_insert_eq (o : jsobj) k v : obj_get (<[k:=v]> o) k = v.
Proof. unfold obj_get. by rewrite lookup_insert_eq. Qed.

Lemma obj_get_insert_ne (o : jsobj) k k' v :
  k <> k' -> obj_get (<[k:=v]> o) k' = obj_get o k'.
Proof. intros. unfold obj_get. by rewrite lookup_insert_ne. Qed.

Lemma obj_get_empty k : obj_get ∅ k = JUndefined.
Proof. reflexivity. Qed.

#[export] Hint Rewrite obj_get_insert_eq obj_get_empty : lbnb_str.

(** Read a property through a chain of assignments. *)
Ltac obj_simpl :=
  repeat first [ rewrite obj_get_insert_eq | rewrite obj_get_insert_ne by done ].

(** ** Objects that agree on some keys

    A function that reads only the properties [ks] of an object cannot
    tell two objects apart that agree on [ks].  [obj_agree ks] is that
    equivalence; the components state what they read as [Proper]
    instances for it. *)
Definition obj_agree (ks : list string) : relation jsobj :=
  fun o o' => Forall (fun k => obj_get o k = obj_get o' k) ks.

#[export] Instance obj_agree_equiv ks : Equivalence (obj_agree ks).
Proof.
  unfold obj_agree. split.
  - intros o. by apply Forall_true.
  - intros o o' H. eapply Forall_impl; [exact H|]. done.
  - intros o1 o2 o3 H12 H23. apply Forall_forall. intros k Hk.
    rewrite Forall_forall in H12, H23. by rewrite H12, H23.
Qed.

Lemma obj_agree_get ks o o' k : obj_agree ks o o' -> k ∈ ks -> obj_get o k = obj_get o' k.
Proof. unfold obj_agree. rewrite Forall_forall. auto. Qed.

Lemma obj_agree_map ks o o' :
  obj_agree ks o o' -> map (obj_get o) ks = map (obj_get o') ks.
Proof. induction 1; simpl; congruence. Qed.

(** A key of a literal list of keys. *)
Ltac key_in := apply (bool_decide_unpack _); by vm_compute.
