(* ===== verification/Promise.v ===== *)
(** * Promises, logging and the connection pool

    Each function of [database.js] is [pool.query(text, values)], then a
    [.then(res => ...)] callback, then a [.catch(err => { console.log
    (err.message); return ...; })] callback.  A promise is modelled here
    as a computation over the state [S] of whatever the pool talks to.
    It returns the new state, the lines written by [console.log], and
    how the promise settles: [Resolved] with a value or [Rejected] with
    an error.  A callback that throws rejects the promise it returns;
    [.catch] turns a rejection back into a resolution.

    The pool is the one external collaborator.  [Pool] is the interface
    the code relies on: a query with its bound values either yields a
    result whose [rows] the code reads, or fails with an error whose
    [message] the code logs. *)

From S2P Require Import Prelude JsValue.

(** [new Error(message)] and the errors of the driver. *)
Record js_error := Error { message : string }.

Inductive settled (A : Type) :=
| Resolved (a : A)
| Rejected (e : js_error).
Arguments Resolved {A} a.
Arguments Rejected {A} e.

(** What the exported functions resolve to: a value, [null] or
    [undefined]. *)
Inductive jsret (A : Type) :=
| Ret (a : A)
| RetNull
| RetUndefined.
Arguments Ret {A} a.
Arguments RetNull {A}.
Arguments RetUndefined {A}.

(** The result object of [pool.query]: only [res.rows] is read. *)
Record qresult := { rows : list jsobj }.

(** The interface of [pg]'s [Pool]: [pool.query(text, values)]. *)
Class Pool (S : Type) := {
  pool_query : string -> list jsval -> S -> S * settled qresult
}.

Definition prom (S A : Type) : Type := S -> S * list string * settled A.

Section Prom.
Context {S : Type}.

(** [Promise.resolve(a)], or a callback returning [a]. *)
Definition presolve {A} (a : A) : prom S A := fun s => (s, [], Resolved a).

(** [throw e] inside a callback. *)
Definition pthrow {A} (e : js_error) : prom S A := fun s => (s, [], Rejected e).

(** [p.then(k)]: run [k] on the value; a rejection skips [k]. *)
Definition then_ {A B} (p : prom S A) (k : A -> prom S B) : prom S B :=
  fun s =>
    match p s with
    | (s1, l1, Resolved a) =>
        match k a s1 with (s2, l2, r) => (s2, l1 ++ l2, r) end
    | (s1, l1, Rejected e) => (s1, l1, Rejected e)
    end.

(** [p.catch(h)]: run [h] on the error; a resolution skips [h]. *)
Definition catch_ {A} (p : prom S A) (h : js_error -> prom S A) : prom S A :=
  fun s =>
    match p s with
    | (s1, l1, Resolved a) => (s1, l1, Resolved a)
    | (s1, l1, Rejected e) =>
        match h e s1 with (s2, l2, r) => (s2, l1 ++ l2, r) end
    end.

(** [console.log(m)]. *)
Definition console_log (m : string) : prom S unit := fun s => (s, [m], Resolved tt).

(** [pool.query(text, values)]. *)
Definition query `{Pool S} (text : string) (values : list jsval) : prom S qresult :=
  fun s => match pool_query text values s with (s', r) => (s', [], r) end.

(** A promise that resolves whatever the state. *)
Definition always_resolves {A} (p : prom S A) : Prop :=
  forall s, exists a, (p s).2 = Resolved a.
End Prom.

Declare Scope prom_scope.
Delimit Scope prom_scope with prom.
Notation "x <- p ;; k" := (then_ p (fun x => k))
  (at level 100, p at next level, right associativity) : prom_scope.
Notation "p ;; k" := (then_ p (fun _ => k))
  (at level 100, right associativity) : prom_scope.

(** ** Laws *)
Section Laws.
Context {S : Type}.

Lemma then_presolve {A B} (a : A) (k : A -> prom S B) s :
  then_ (presolve a) k s = k a s.
Proof. unfold then_, presolve. by destruct (k a s) as [[??]?]. Qed.

Lemma then_pthrow {A B} e (k : A -> prom S B) s :
  then_ (pthrow e) k s = (s, [], Rejected e).
Proof. reflexivity. Qed.

Lemma catch_presolve {A} (a : A) h s : catch_ (S:=S) (presolve a) h s = (s, [], Resolved a).
Proof. reflexivity. Qed.

Lemma catch_pthrow {A} e (h : js_error -> prom S A) s :
  catch_ (pthrow e) h s = h e s.
Proof. unfold catch_, pthrow. by destruct (h e s) as [[??]?]. Qed.

Lemma then_console_log {B} m (k : unit -> prom S B) s :
  then_ (console_log m) k s =
  match k tt s with (s2, l2, r) => (s2, m :: l2, r) end.
Proof. reflexivity. Qed.

Lemma query_run `{Pool S} text values s :
  query text values s =
  match pool_query text values s with (s', r) => (s', [], r) end.
Proof. reflexivity. Qed.

(** [.catch] with a handler that resolves makes the whole chain
    resolve: a caller of such a function never sees a rejection. *)
Lemma catch_always_resolves {A} (p : prom S A) (h : js_error -> prom S A) :
  (forall e, always_resolves (h e)) -> always_resolves (catch_ p h).
Proof.
  intros Hh s. unfold catch_.
  destruct (p s) as [[s1 l1] [a|e]]; [by exists a|].
  destruct (Hh e s1) as [a Ha].
  destruct (h e s1) as [[s2 l2] r]. simpl in *. subst. by exists a.
Qed.

Lemma then_presolve_always_resolves {A B} (p : prom S A) (f : A -> B) :
  always_resolves p -> always_resolves (x <- p ;; presolve (f x))%prom.
Proof.
  intros Hp s. unfold then_. destruct (Hp s) as [a Ha].
  destruct (p s) as [[s1 l1] r]. simpl in Ha. subst. by exists (f a).
Qed.

Lemma log_then_resolve_always_resolves {A} (m : string) (a : A) :
  always_resolves (S:=S) (console_log m ;; presolve a)%prom.
Proof. intros s. by exists a. Qed.
End Laws.

#[export] Hint Resolve catch_always_resolves then_presolve_always_resolves
  log_then_resolve_always_resolves : lbnb.
#[export] Hint Rewrite @then_presolve @then_pthrow @catch_presolve @catch_pthrow
  @then_console_log @query_run : lbnb_str.
