(* ===== verification/Config.v ===== *)
(** * Configuration: [dotenv] and the pool settings

    [src/LightBnB_WebApp/server/database.js], lines 1-14.  Line 1 runs
    [require('dotenv').config()], which reads the [.env] file and sets
    each variable it defines in [process.env], unless that variable is
    already set: [dotenv] never overrides the environment.  Line 2 names
    [process.env] [env].  Lines 9-14 build the pool from four of its
    variables.  The environment is a map from names to strings; the
    [.env] file is taken as the map its lines define (its parsing is
    library code).  The two JSON fixtures required on lines 4-5 are
    never used. *)

From S2P Require Import Prelude JsValue.

(** [process.env]: variable names to values. *)
Abbreviation env := (gmap string string).

(** Lines 1-2: [require('dotenv').config(); const env = process.env;].
    Left-biased union: a variable of the process wins over the file. *)
Definition dotenv_config (dotenv_file process_env : env) : env := process_env ∪ dotenv_file.

(** [env.X]: an unset variable reads as [undefined]. *)
Definition env_get (e : env) (k : string) : jsval :=
  match e !! k with Some s => JStr s | None => JUndefined end.

(** The object passed to [new Pool(...)]. *)
Record pool_config := {
  pool_user : jsval;
  pool_password : jsval;
  pool_host : jsval;
  pool_database : jsval
}.

(** Lines 9-14. *)
Definition pool_config_of (env : env) : pool_config :=
  {| pool_user := env_get env "USER";
     pool_password := env_get env "PASS";
     pool_host := env_get env "HOST";
     pool_database := env_get env "NAME" |}.

(** A variable after [dotenv]: the process's value if it has one,
    otherwise the file's. *)
Definition env_first (proc file : env) (k : string) : jsval :=
  match proc !! k with Some s => JStr s | None => env_get file k end.

(** ** Lemmas *)

Lemma env_get_dotenv file proc k :
  env_get (dotenv_config file proc) k = env_first proc file k.
Proof.
  unfold env_get, env_first, dotenv_config. rewrite lookup_union.
  unfold env_get. by destruct (proc !! k), (file !! k).
Qed.

(** A login shell's environment, and a [.env] file naming another user. *)
Definition shell_env : env := {[ "USER" := "vagrant"; "HOME" := "/home/vagrant" ]}.
Definition dotenv_example : env :=
  {[ "USER" := "labber"; "PASS" := "labber"; "HOST" := "localhost"; "NAME" := "lightbnb" ]}.

(** On that example the pool connects as [vagrant], not [labber]. *)
Example pool_user_is_login_user :
  pool_user (pool_config_of (dotenv_config dotenv_example shell_env)) = JStr "vagrant" /\
  pool_database (pool_config_of (dotenv_config dotenv_example shell_env)) = JStr "lightbnb".
Proof. split; reflexivity. Qed.
