(* ===== verification/SqlLex.v ===== *)
(** * The lexical structure of the SQL text the code sends

    The code builds its statements by concatenating string pieces, and
    the database reads them back as a sequence of tokens.  The claims
    about placeholders are stated on that token sequence, so the
    lexical level is modelled here:

    - white space separates tokens;
    - [(], [)], [,] and [;] are tokens of their own;
    - any other maximal run of characters is a word;
    - a word [$d...d] made of a dollar sign and decimal digits is the
      positional parameter with that number.

    This file models part of the database front end, not code under
    src/.  The statements the code sends never put these characters
    inside a quoted literal, so quoting is not modelled. *)

From S2P Require Import Prelude JsValue.
From Stdlib Require Import DecimalString.

Inductive token :=
| TWord (w : string)
| TParam (n : N)
| TPunct (c : Ascii.ascii).

#[export] Instance token_eq_dec : EqDecision token.
Proof. solve_decision. Defined.

Definition sql_space (c : Ascii.ascii) : bool :=
  match Ascii.nat_of_ascii c with
  | 9 | 10 | 13 | 32 => true
  | _ => false
  end.

Definition sql_punct (c : Ascii.ascii) : bool :=
  match c with
  | "("%char | ")"%char | ","%char | ";"%char => true
  | _ => false
  end.

Definition sql_sep (c : Ascii.ascii) : bool := sql_space c || sql_punct c.

(** A word: a placeholder [$n] or anything else. *)
Definition classify (w : string) : token :=
  match w with
  | String "$"%char ds =>
      match NilZero.uint_of_string ds with
      | Some u => TParam (N.of_uint u)
      | None => TWord w
      end
  | _ => TWord w
  end.

(** The characters of the current word are kept reversed in [cur]. *)
Definition flush (cur : list Ascii.ascii) : list token :=
  match cur with
  | [] => []
  | _ => [classify (String.string_of_list_ascii (rev cur))]
  end.

Fixpoint lex_go (s : string) (cur : list Ascii.ascii) : list token :=
  match s with
  | EmptyString => flush cur
  | String c s' =>
      if sql_space c then flush cur ++ lex_go s' []
      else if sql_punct c then flush cur ++ TPunct c :: lex_go s' []
      else lex_go s' (c :: cur)
  end.

Definition lex (s : string) : list token := lex_go s [].

(** The placeholders of a token sequence, in order. *)
Fixpoint params_of (ts : list token) : list N :=
  match ts with
  | [] => []
  | TParam n :: ts' => n :: params_of ts'
  | _ :: ts' => params_of ts'
  end.

(** How many times the keyword [w] occurs. *)
Definition count_word (w : string) (ts : list token) : nat :=
  length (filter (fun t => t = TWord w) ts).

(** A string whose last character ends any word in progress. *)
Definition ends_sep (s : string) : bool :=
  match last (String.list_ascii_of_string s) with
  | Some c => sql_sep c
  | None => false
  end.

Definition starts_sep (s : string) : bool :=
  match s with
  | String c _ => sql_sep c
  | EmptyString => false
  end.

(** ** Lexing a concatenation *)

Lemma params_of_app ts1 ts2 : params_of (ts1 ++ ts2) = params_of ts1 ++ params_of ts2.
Proof. induction ts1 as [|[] ts1 IH]; simpl; by rewrite ?IH. Qed.

Lemma count_word_app w ts1 ts2 :
  count_word w (ts1 ++ ts2) = count_word w ts1 + count_word w ts2.
Proof. unfold count_word. by rewrite filter_app, length_app. Qed.

#[export] Hint Rewrite params_of_app count_word_app : lbnb_str.

Lemma lex_go_starts_sep s cur :
  starts_sep s = true -> lex_go s cur = flush cur ++ lex s.
Proof.
  destruct s as [|c s]; [done|]. simpl. unfold sql_sep.
  intros Hc. unfold lex. simpl.
  destruct (sql_space c); simpl; [done|].
  rewrite orb_false_l in Hc. by rewrite Hc.
Qed.

Lemma ends_sep_cons c s :
  s <> EmptyString -> ends_sep (String c s) = ends_sep s.
Proof.
  intros Hs. unfold ends_sep. simpl.
  destruct s; [done|]. reflexivity.
Qed.

Lemma lex_go_app s1 s2 cur :
  ends_sep s1 = true -> lex_go (s1 +:+ s2) cur = lex_go s1 cur ++ lex s2.
Proof.
  revert cur. induction s1 as [|c s1 IH]; intros cur Hend; [done|].
  rewrite str_app_cons. simpl lex_go.
  destruct (decide (s1 = EmptyString)) as [->|Hne].
  - unfold ends_sep, sql_sep in Hend. simpl in Hend.
    destruct (sql_space c) eqn:Hs; simpl in Hend.
    + by rewrite app_nil_r.
    + rewrite Hend. simpl. by rewrite <- app_assoc.
  - rewrite ends_sep_cons in Hend by done.
    destruct (sql_space c); [|destruct (sql_punct c)].
    + rewrite IH by done. by rewrite app_assoc.
    + rewrite IH by done. simpl. by rewrite <- app_assoc.
    + by apply IH.
Qed.

Lemma lex_app s1 s2 :
  ends_sep s1 = true -> lex (s1 +:+ s2) = lex s1 ++ lex s2.
Proof. apply lex_go_app. Qed.

Lemma lex_go_nonsep c s cur :
  sql_sep c = false -> lex_go (String c s) cur = lex_go s (c :: cur).
Proof. unfold sql_sep. simpl. by destruct (sql_space c), (sql_punct c). Qed.

(** A word with no separator in it is accumulated whole. *)
Lemma lex_go_word w s cur :
  str_forallb (fun c => negb (sql_sep c)) w = true ->
  lex_go (w +:+ s) cur = lex_go s (rev (String.list_ascii_of_string w) ++ cur).
Proof.
  revert cur. induction w as [|c w IH]; intros cur Hw; [done|].
  unfold str_forallb in Hw. simpl in Hw.
  apply andb_prop in Hw as [Hc Hw].
  rewrite str_app_cons. simpl. unfold sql_sep in Hc.
  destruct (sql_space c), (sql_punct c); try done.
  rewrite IH by done. by rewrite <- app_assoc.
Qed.

Lemma digit_not_sep c : is_digit c = true -> sql_sep c = false.
Proof. destruct c as [[][][][][][][][]]; vm_compute; congruence. Qed.

Lemma digits_no_sep s :
  str_forallb is_digit s = true -> str_forallb (fun c => negb (sql_sep c)) s = true.
Proof.
  unfold str_forallb. intros H. apply forallb_forall. intros c Hc.
  eapply forallb_forall in H; [|done]. by rewrite digit_not_sep.
Qed.

Lemma flush_snoc l c :
  flush (rev l ++ [c]) = [classify (String.string_of_list_ascii (c :: l))].
Proof.
  unfold flush. assert (Hne : rev l ++ [c] <> []) by (by destruct (rev l)).
  destruct (rev l ++ [c]) eqn:E; [done|].
  rewrite <- E, rev_app_distr, rev_involutive. done.
Qed.

(** The key lemma: a placeholder [$n] printed between separators is read
    back as the parameter [n], and the two sides lex independently. *)
Lemma lex_placeholder pre post (n : N) :
  ends_sep pre = true -> starts_sep post = true ->
  lex (pre +:+ "$" +:+ js_number_to_string (Z.of_N n) +:+ post) =
  lex pre ++ TParam n :: lex post.
Proof.
  intros Hpre Hpost. rewrite lex_app by done. f_equal.
  destruct (js_number_to_string_digits n) as [Hd _].
  pose proof (js_number_to_string_parse n) as Hp.
  set (d := js_number_to_string (Z.of_N n)) in *.
  unfold lex. rewrite str_app_cons, str_app_nil_l, lex_go_nonsep by done.
  rewrite (lex_go_word d) by (by apply digits_no_sep).
  rewrite (lex_go_starts_sep post) by done.
  rewrite flush_snoc. simpl. rewrite String.string_of_list_ascii_of_string.
  destruct (NilZero.uint_of_string d); [|done]. simpl in Hp. by injection Hp as ->.
Qed.

(** ** Pieces that end in a dollar sign

    The code writes a placeholder as a literal ending in [$] followed by
    [${queryParams.length}].  [drop_last] removes that dollar sign. *)

Definition drop_last (s : string) : string :=
  String.string_of_list_ascii (removelast (String.list_ascii_of_string s)).

Definition ends_dollar (x : string) : bool :=
  match last (String.list_ascii_of_string x) with
  | Some "$"%char => ends_sep (drop_last x)
  | _ => false
  end.

Lemma string_eq_via_list (s t : string) :
  String.list_ascii_of_string s = String.list_ascii_of_string t -> s = t.
Proof.
  intros H. by rewrite <- (String.string_of_list_ascii_of_string s), H,
    String.string_of_list_ascii_of_string.
Qed.

Lemma ends_dollar_split x :
  ends_dollar x = true -> x = drop_last x +:+ "$" /\ ends_sep (drop_last x) = true.
Proof.
  unfold ends_dollar.
  destruct (last (String.list_ascii_of_string x)) as [c|] eqn:E; [|done].
  intros H. assert (c = "$"%char) as ->
    by (destruct c as [[][][][][][][][]]; done).
  split; [|done].
  apply string_eq_via_list. rewrite list_ascii_of_string_app.
  apply last_Some in E as [l' E]. unfold drop_last.
  rewrite String.list_ascii_of_string_of_list_ascii, E, removelast_last. done.
Qed.

Lemma ends_sep_app s t : t <> EmptyString -> ends_sep (s +:+ t) = ends_sep t.
Proof.
  intros Ht. unfold ends_sep. rewrite list_ascii_of_string_app, last_app.
  destruct t as [|c t]; [done|]. simpl.
  destruct (last (c :: String.list_ascii_of_string t)) eqn:E; [done|].
  by apply last_None in E.
Qed.

(** Appending a piece [x ++ n ++ post] whose [x] ends in a dollar sign
    to a statement: the statement's tokens, then those of [x] without
    the dollar sign, then the parameter [n], then those of [post]. *)
Lemma lex_emit qs x n post :
  ends_sep qs = true -> ends_dollar x = true -> starts_sep post = true ->
  lex (qs +:+ (x +:+ js_number_to_string (Z.of_N n) +:+ post)) =
  lex qs ++ lex (drop_last x) ++ TParam n :: lex post.
Proof.
  intros Hqs Hx Hpost. rewrite lex_app by done. f_equal.
  destruct (ends_dollar_split x Hx) as [Ex Hd].
  set (p := drop_last x) in *. rewrite Ex, <- str_app_assoc.
  by apply lex_placeholder.
Qed.

(** ** INSERT statements

    [INSERT INTO t(c1, ..., ck) VALUES($n1, ..., $nk) ...]: the table,
    and which placeholder each column receives. *)

Fixpoint parse_columns (ts : list token) : option (list string * list token) :=
  match ts with
  | TWord c :: TPunct ","%char :: ts' =>
      match parse_columns ts' with
      | Some (cs, rest) => Some (c :: cs, rest)
      | None => None
      end
  | TWord c :: TPunct ")"%char :: ts' => Some ([c], ts')
  | _ => None
  end.

Fixpoint parse_placeholders (ts : list token) : option (list N * list token) :=
  match ts with
  | TParam n :: TPunct ","%char :: ts' =>
      match parse_placeholders ts' with
      | Some (ns, rest) => Some (n :: ns, rest)
      | None => None
      end
  | TParam n :: TPunct ")"%char :: ts' => Some ([n], ts')
  | _ => None
  end.

Definition insert_assignment (ts : list token) : option (string * list (string * N)) :=
  match ts with
  | TWord "INSERT" :: TWord "INTO" :: TWord tbl :: TPunct "("%char :: ts1 =>
      match parse_columns ts1 with
      | Some (cols, TWord "VALUES" :: TPunct "("%char :: ts2) =>
          match parse_placeholders ts2 with
          | Some (ns, _) =>
              if decide (length cols = length ns) then Some (tbl, zip cols ns) else None
          | None => None
          end
      | _ => None
      end
  | _ => None
  end.

(** The value bound to placeholder [$n]: the n-th of the values array
    (1-based, as PostgreSQL numbers them). *)
Definition binding (values : list jsval) (n : N) : option jsval :=
  values !! (N.to_nat n - 1)%nat.
