(* ===== verification/SqlParse.v ===== *)
(** * The statements the database accepts

    A model of how PostgreSQL reads the statements this code sends.  It
    is a model of the database front end, not of code under src/.  It
    parses token sequences into four shapes:

    - the user lookup [SELECT id, name, email, password FROM users
      WHERE k = $p;];
    - an INSERT of placeholders into columns, returning the row;
    - the reservations join of [getAllReservations];
    - the property search: the fixed SELECT with its JOIN, an optional
      [WHERE c1 AND c2 ...] over four predicate forms, [GROUP BY], an
      optional [HAVING], and [ORDER BY ... LIMIT].

    Any other sequence is a syntax error, for instance a second [WHERE].
    [render_search] prints a search query, and [parse_search] reads it
    back (theorem [parse_render_search]). *)

From S2P Require Import Prelude JsValue SqlLex.

(** ** Token patterns for the fixed statements *)

Inductive pat :=
| PW (w : string)            (* this keyword or identifier *)
| PP (c : Ascii.ascii)       (* this punctuation *)
| PAnyWord                   (* any word, captured *)
| PAnyParam.                 (* any placeholder, captured *)

Fixpoint match_pat (ps : list pat) (ts : list token) : option (list token) :=
  match ps, ts with
  | [], [] => Some []
  | PW w :: ps', TWord w' :: ts' => if decide (w = w') then match_pat ps' ts' else None
  | PP c :: ps', TPunct c' :: ts' => if decide (c = c') then match_pat ps' ts' else None
  | PAnyWord :: ps', (TWord _ as t) :: ts' => (fun cs => t :: cs) <$> match_pat ps' ts'
  | PAnyParam :: ps', (TParam _ as t) :: ts' => (fun cs => t :: cs) <$> match_pat ps' ts'
  | _, _ => None
  end.

Definition user_select_pat : list pat :=
  [PW "SELECT"; PW "id"; PP ","; PW "name"; PP ","; PW "email"; PP ",";
   PW "password"; PW "FROM"; PW "users"; PW "WHERE"; PAnyWord; PW "="; PAnyParam; PP ";"].

Definition reservations_pat : list pat :=
  [PW "SELECT"; PW "reservations.id"; PW "AS"; PW "res_id"; PP ","; PW "properties.*"; PP ",";
   PW "reservations.start_date"; PP ","; PW "reservations.end_date"; PP ",";
   PW "AVG"; PP "("; PW "rating"; PP ")"; PW "AS"; PW "average_rating";
   PW "FROM"; PW "reservations";
   PW "JOIN"; PW "properties"; PW "ON"; PW "reservations.property_id"; PW "="; PW "properties.id";
   PW "JOIN"; PW "property_reviews"; PW "ON"; PW "properties.id"; PW "=";
   PW "property_reviews.property_id";
   PW "WHERE"; PW "reservations.guest_id"; PW "="; PAnyParam;
   PW "GROUP"; PW "BY"; PW "properties.id"; PP ","; PW "reservations.id";
   PW "ORDER"; PW "BY"; PW "reservations.start_date"; PW "LIMIT"; PAnyParam; PP ";"].

(** ** The property search *)

Inductive cond := CondOwner | CondCity | CondMinPrice | CondMaxPrice.

#[export] Instance cond_eq_dec : EqDecision cond.
Proof. solve_decision. Defined.

(** The words of each predicate form, before its placeholder. *)
Definition cond_words (c : cond) : list string :=
  match c with
  | CondOwner => ["owner_id"; "="]
  | CondCity => ["city"; "LIKE"]
  | CondMinPrice => ["cost_per_night"; "/"; "100"; ">"]
  | CondMaxPrice => ["cost_per_night"; "/"; "100"; "<"]
  end.

Definition cond_tokens (c : cond) (n : N) : list token :=
  (TWord <$> cond_words c) ++ [TParam n].

Record search_query := {
  sq_conds : list (cond * N);
  sq_having : option N;
  sq_limit : N
}.

Definition select_tokens : list token :=
  [TWord "SELECT"; TWord "properties.*"; TPunct ","; TWord "AVG"; TPunct "(";
   TWord "property_reviews.rating"; TPunct ")"; TWord "AS"; TWord "average_rating";
   TWord "FROM"; TWord "properties"; TWord "JOIN"; TWord "property_reviews";
   TWord "ON"; TWord "properties.id"; TWord "="; TWord "property_id"].

Definition group_tokens : list token :=
  [TWord "GROUP"; TWord "BY"; TWord "properties.id"].


Fixpoint render_conds (kw : string) (cs : list (cond * N)) : list token :=
  match cs with
  | [] => []
  | (c, n) :: cs' => TWord kw :: cond_tokens c n ++ render_conds "AND" cs'
  end.

Definition having_tokens (n : N) : list token :=
  [TWord "HAVING"; TWord "AVG"; TPunct "("; TWord "property_reviews.rating";
   TPunct ")"; TWord ">="; TParam n].

Definition order_limit_tokens (n : N) : list token :=
  [TWord "ORDER"; TWord "BY"; TWord "cost_per_night"; TWord "LIMIT"; TParam n; TPunct ";"].

Definition render_search (q : search_query) : list token :=
  select_tokens ++ render_conds "WHERE" (sq_conds q) ++ group_tokens ++
  default [] (having_tokens <$> sq_having q) ++ order_limit_tokens (sq_limit q).

(** [ts] starts with [pre]: the rest. *)
Fixpoint strip_prefix (pre ts : list token) : option (list token) :=
  match pre, ts with
  | [], _ => Some ts
  | p :: pre', t :: ts' => if decide (p = t) then strip_prefix pre' ts' else None
  | _ :: _, [] => None
  end.

(** One predicate and its placeholder. *)
Definition parse_cond (ts : list token) : option (cond * N * list token) :=
  let try_cond c :=
    match strip_prefix (TWord <$> cond_words c) ts with
    | Some (TParam n :: rest) => Some (c, n, rest)
    | _ => None
    end in
  match try_cond CondOwner with
  | Some r => Some r
  | None =>
      match try_cond CondCity with
      | Some r => Some r
      | None =>
          match try_cond CondMinPrice with
          | Some r => Some r
          | None => try_cond CondMaxPrice
          end
      end
  end.

(** [c1 AND c2 AND ...]; each round consumes at least three tokens, so
    [length ts] rounds are enough. *)
Fixpoint parse_conds (fuel : nat) (ts : list token) : option (list (cond * N) * list token) :=
  match fuel with
  | O => None
  | S fuel' =>
      match parse_cond ts with
      | None => None
      | Some (c, n, rest) =>
          match strip_prefix [TWord "AND"] rest with
          | Some rest' =>
              match parse_conds fuel' rest' with
              | Some (cs, rest'') => Some ((c, n) :: cs, rest'')
              | None => None
              end
          | None => Some ([(c, n)], rest)
          end
      end
  end.

Definition parse_where (ts : list token) : option (list (cond * N) * list token) :=
  match strip_prefix [TWord "WHERE"] ts with
  | Some rest => parse_conds (length rest) rest
  | None => Some ([], ts)
  end.

Definition having_prefix : list token :=
  [TWord "HAVING"; TWord "AVG"; TPunct "("; TWord "property_reviews.rating";
   TPunct ")"; TWord ">="].

Definition order_limit_prefix : list token :=
  [TWord "ORDER"; TWord "BY"; TWord "cost_per_night"; TWord "LIMIT"].

Definition parse_having (ts : list token) : option N * list token :=
  match strip_prefix having_prefix ts with
  | Some (TParam n :: rest) => (Some n, rest)
  | _ => (None, ts)
  end.

Definition parse_search (ts : list token) : option search_query :=
  match strip_prefix select_tokens ts with
  | None => None
  | Some ts1 =>
      match parse_where ts1 with
      | None => None
      | Some (cs, ts2) =>
          match strip_prefix group_tokens ts2 with
          | None => None
          | Some ts3 =>
              let '(h, ts4) := parse_having ts3 in
              match strip_prefix order_limit_prefix ts4 with
              | Some [TParam n; TPunct c] =>
                  if decide (c = ";"%char)
                  then Some {| sq_conds := cs; sq_having := h; sq_limit := n |}
                  else None
              | _ => None
              end
          end
      end
  end.

(** ** Statements *)

Inductive stmt :=
| SSelectUser (key : string) (p : N)
| SInsert (table : string) (assign : list (string * N))
| SReservations (pguest plimit : N)
| SSearch (q : search_query).

(** [INSERT ... RETURNING *;]: the assignment, and the statement ends
    with [RETURNING * ;]. *)
Definition parse_insert (ts : list token) : option stmt :=
  match insert_assignment ts, last ts, ts !! (length ts - 3)%nat, ts !! (length ts - 2)%nat with
  | Some (tbl, asg), Some (TPunct ";"%char), Some (TWord "RETURNING"), Some (TWord "*") =>
      Some (SInsert tbl asg)
  | _, _, _, _ => None
  end.

Definition parse_stmt (ts : list token) : option stmt :=
  match match_pat user_select_pat ts with
  | Some [TWord k; TParam p] => Some (SSelectUser k p)
  | _ =>
      match match_pat reservations_pat ts with
      | Some [TParam g; TParam l] => Some (SReservations g l)
      | _ =>
          match parse_insert ts with
          | Some s => Some s
          | None => SSearch <$> parse_search ts
          end
      end
  end.

(** ** Printing then parsing a search gives it back *)

Lemma strip_prefix_app pre ts : strip_prefix pre (pre ++ ts) = Some ts.
Proof. induction pre as [|p pre IH]; simpl; [done|]. by rewrite decide_True. Qed.

Lemma parse_cond_tokens c n rest :
  parse_cond (cond_tokens c n ++ rest) = Some (c, n, rest).
Proof. destruct c; reflexivity. Qed.

Lemma length_render_conds kw cs : length cs <= length (render_conds kw cs).
Proof.
  revert kw. induction cs as [|[c n] cs IH]; intros kw; simpl; [lia|].
  rewrite length_app. specialize (IH "AND"). lia.
Qed.

Lemma parse_conds_render fuel c n cs rest :
  length cs < fuel -> head rest <> Some (TWord "AND") ->
  parse_conds fuel (cond_tokens c n ++ render_conds "AND" cs ++ rest) =
  Some ((c, n) :: cs, rest).
Proof.
  revert fuel c n. induction cs as [|[c' n'] cs IH]; intros fuel c n Hf Hrest;
    destruct fuel as [|fuel]; simpl in Hf; try lia; simpl;
    rewrite parse_cond_tokens.
  - destruct rest as [|t rest]; [done|]. simpl in *.
    rewrite decide_False; [done|]. by intros <-.
  - simpl. rewrite <- app_assoc, IH by (done || lia). done.
Qed.

Lemma parse_where_render cs rest :
  head rest <> Some (TWord "AND") -> head rest <> Some (TWord "WHERE") ->
  parse_where (render_conds "WHERE" cs ++ rest) = Some (cs, rest).
Proof.
  intros Hand Hwhere. unfold parse_where. destruct cs as [|[c n] cs].
  - destruct rest as [|t rest]; [done|]. simpl in *.
    rewrite decide_False; [done|]. by intros <-.
  - simpl. rewrite <- app_assoc.
    apply parse_conds_render; [|done].
    rewrite !length_app. unfold cond_tokens. rewrite length_app.
    pose proof (length_render_conds "AND" cs). simpl. lia.
Qed.

(** Roundtrip: a search query printed as tokens is parsed back to the
    same query. *)
Theorem parse_render_search (q : search_query) :
  parse_search (render_search q) = Some q.
Proof.
  destruct q as [cs h l]. unfold parse_search, render_search.
  cbn [sq_conds sq_having sq_limit].
  rewrite strip_prefix_app, parse_where_render by (destruct h; simpl; congruence).
  rewrite strip_prefix_app. destruct h; reflexivity.
Qed.

(** ** The fuel of [parse_conds] is enough

    [parse_where] runs [parse_conds] with the length of its input as
    fuel.  Each round consumes tokens, so that fuel is never the reason
    the parse stops: any fuel at least the input's length gives the same
    result. *)

Lemma strip_prefix_Some pre ts rest : strip_prefix pre ts = Some rest -> ts = pre ++ rest.
Proof.
  revert ts. induction pre as [|p pre IH]; intros [|t ts] H; simpl in *; try congruence.
  case_decide; [subst; f_equal; by apply IH | done].
Qed.

Lemma parse_cond_length ts c n rest :
  parse_cond ts = Some (c, n, rest) -> length rest < length ts.
Proof.
  unfold parse_cond. cbv zeta. repeat case_match; intros Hc; simplify_eq;
  match goal with E : strip_prefix _ ts = Some _ |- _ =>
    apply strip_prefix_Some in E; rewrite E, length_app; simpl; lia end.
Qed.

Lemma parse_conds_enough n m ts :
  length ts <= n -> length ts <= m -> parse_conds n ts = parse_conds m ts.
Proof.
  revert m ts. induction n as [|n IH]; intros m ts Hn Hm.
  - destruct ts; [|simpl in Hn; lia]. by destruct m; [|reflexivity].
  - destruct m as [|m].
    + destruct ts; [done | simpl in Hm; lia].
    + cbn [parse_conds]. destruct (parse_cond ts) as [[[c k] rest]|] eqn:Ec; [|done].
      apply parse_cond_length in Ec.
      destruct (strip_prefix [TWord "AND"] rest) as [rest'|] eqn:Ea; [|done].
      apply strip_prefix_Some in Ea. subst rest. simpl in Ec.
      rewrite (IH m rest') by lia. done.
Qed.
