(* ===== verification/PropertySearch.v ===== *)
(** * [getAllProperties]: the filtered property search

    [src/LightBnB_WebApp/server/database.js], lines 150-211.  The
    function keeps three local variables: the array [queryParams], the
    keyword [whereAnd] ([`WHERE`], later [`AND`]) and the string
    [queryString].  It runs six [if] blocks and two unconditional
    appends over them, then sends [queryString] with [queryParams] to
    the pool.  The record [qbuild] is those three variables.  Each block
    is one function [qbuild -> qbuild], and [build_query] composes them
    in source order.

    The theorems show:
    - every block preserves the placeholder invariant: the i-th [$n] of
      the text is [$i], and the placeholders are exactly [$1..$k] for
      [k] bound values;
    - refinement: when [owner_id] is not combined with another WHERE
      filter, the text lexes to the rendering of the structured query
      (the list of predicate/parameter pairs the spec describes), and
      the bound values are that query's;
    - the defect: [owner_id] never sets [whereAnd] to [AND], so with
      another WHERE filter the statement has two [WHERE] keywords;
    - with no option at all the statement has no [WHERE]. *)

From S2P Require Import Prelude JsValue Promise SqlLex SqlParse.

Record qbuild := {
  queryParams : list jsval;
  whereAnd : string;
  queryString : string
}.

(** [queryParams.push(v)] *)
Definition push (v : jsval) (st : qbuild) : qbuild :=
  {| queryParams := queryParams st ++ [v]; whereAnd := whereAnd st;
     queryString := queryString st |}.

(** [queryString += s] *)
Definition append (s : string) (st : qbuild) : qbuild :=
  {| queryParams := queryParams st; whereAnd := whereAnd st;
     queryString := queryString st +:+ s |}.

(** [whereAnd = `AND`] *)
Definition set_and (st : qbuild) : qbuild :=
  {| queryParams := queryParams st; whereAnd := "AND";
     queryString := queryString st |}.

(** [${queryParams.length}] *)
Definition ph (st : qbuild) : string :=
  js_number_to_string (Z.of_nat (length (queryParams st))).

(** Lines 151-158. *)
Definition init_query : qbuild :=
  {| queryParams := [];
     whereAnd := "WHERE";
     queryString := template_lines [
       "";
       "  SELECT properties.*, AVG(property_reviews.rating) AS average_rating";
       "  FROM properties";
       "    JOIN property_reviews ON properties.id = property_id";
       "  "] |}.

(** Lines 161-164. *)
Definition owner_id_filter (options : jsobj) (st : qbuild) : qbuild :=
  if truthy (obj_get options "owner_id") then
    let st1 := push (JStr (js_to_string (obj_get options "owner_id"))) st in
    append (whereAnd st1 +:+ " owner_id = $" +:+ ph st1 +:+ " ") st1
  else st.

(** Lines 167-171. *)
Definition city_filter (options : jsobj) (st : qbuild) : qbuild :=
  if truthy (obj_get options "city") then
    let st1 := push (JStr ("%" +:+ js_to_string (obj_get options "city") +:+ "%")) st in
    let st2 := append (whereAnd st1 +:+ " city LIKE $" +:+ ph st1 +:+ " ") st1 in
    set_and st2
  else st.

(** Lines 173-180. *)
Definition minimum_price_filter (options : jsobj) (st : qbuild) : qbuild :=
  if truthy (obj_get options "minimum_price_per_night") then
    let st1 := push (JStr (js_to_string (obj_get options "minimum_price_per_night"))) st in
    let st2 := append (nl +:+ "    " +:+ whereAnd st1 +:+ " cost_per_night / 100 > $"
                       +:+ ph st1 +:+ " " +:+ nl +:+ "    ") st1 in
    set_and st2
  else st.

(** Lines 182-187: note that [whereAnd] is left unchanged. *)
Definition maximum_price_filter (options : jsobj) (st : qbuild) : qbuild :=
  if truthy (obj_get options "maximum_price_per_night") then
    let st1 := push (JStr (js_to_string (obj_get options "maximum_price_per_night"))) st in
    append (nl +:+ "    " +:+ whereAnd st1 +:+ " cost_per_night / 100 < $"
            +:+ ph st1 +:+ nl +:+ "    ") st1
  else st.

(** Line 189. *)
Definition group_by_clause (st : qbuild) : qbuild :=
  append "GROUP BY properties.id " st.

(** Lines 191-195. *)
Definition minimum_rating_filter (options : jsobj) (st : qbuild) : qbuild :=
  if truthy (obj_get options "minimum_rating") then
    let st1 := push (JStr (js_to_string (obj_get options "minimum_rating"))) st in
    append (nl +:+ "    HAVING AVG(property_reviews.rating) >= $" +:+ ph st1 +:+ " ") st1
  else st.

(** Lines 197-201: the limit is pushed as it is, not as a string. *)
Definition order_limit_clause (limit : jsval) (st : qbuild) : qbuild :=
  let st1 := push limit st in
  append (nl +:+ "  ORDER BY cost_per_night" +:+ nl +:+ "  LIMIT $" +:+ ph st1 +:+ ";"
          +:+ nl +:+ "  ") st1.

(** Lines 151-201, in source order. *)
Definition build_query (options : jsobj) (limit : jsval) : qbuild :=
  order_limit_clause limit
    (minimum_rating_filter options
      (group_by_clause
        (maximum_price_filter options
          (minimum_price_filter options
            (city_filter options
              (owner_id_filter options init_query)))))).

Section WithPool.
Context {S : Type} `{Pool S}.

(** Lines 150-211: the default [limit = 10], the query, [.then]
    returning [res.rows], and [.catch] logging and returning nothing. *)
Definition getAllProperties (options : jsobj) (limit : jsval)
    : prom S (jsret (list jsobj)) :=
  let st := build_query options (default_param limit (JNum 10)) in
  catch_
    (then_ (query (queryString st) (queryParams st))
       (fun res => presolve (Ret (rows res))))
    (fun err => (console_log (message err) ;; presolve RetUndefined)%prom).
End WithPool.

(** ** What the search reads of [options]

    Each block reads one property of [options], so [getAllProperties]
    cannot tell apart two options objects that agree on these five. *)
Definition search_keys : list string :=
  ["owner_id"; "city"; "minimum_price_per_night"; "maximum_price_per_night"; "minimum_rating"].

Local Ltac block_proper blk k :=
  let o := fresh "o" in let o' := fresh "o'" in let Ho := fresh "Ho" in
  intros o o' Ho ? ? <-; unfold blk;
  by rewrite (obj_agree_get search_keys o o' k Ho) by key_in.

#[export] Instance owner_id_filter_proper :
  Proper (obj_agree search_keys ==> eq ==> eq) owner_id_filter.
Proof. block_proper owner_id_filter "owner_id". Qed.

#[export] Instance city_filter_proper :
  Proper (obj_agree search_keys ==> eq ==> eq) city_filter.
Proof. block_proper city_filter "city". Qed.

#[export] Instance minimum_price_filter_proper :
  Proper (obj_agree search_keys ==> eq ==> eq) minimum_price_filter.
Proof. block_proper minimum_price_filter "minimum_price_per_night". Qed.

#[export] Instance maximum_price_filter_proper :
  Proper (obj_agree search_keys ==> eq ==> eq) maximum_price_filter.
Proof. block_proper maximum_price_filter "maximum_price_per_night". Qed.

#[export] Instance minimum_rating_filter_proper :
  Proper (obj_agree search_keys ==> eq ==> eq) minimum_rating_filter.
Proof. block_proper minimum_rating_filter "minimum_rating". Qed.

#[export] Instance build_query_proper :
  Proper (obj_agree search_keys ==> eq ==> eq) build_query.
Proof. intros o o' Ho l ? <-. unfold build_query. by rewrite Ho. Qed.

#[export] Instance getAllProperties_proper {S : Type} `{Pool S} :
  Proper (obj_agree search_keys ==> eq ==> eq) (getAllProperties (S:=S)).
Proof. intros o o' Ho l ? <-. unfold getAllProperties. by rewrite Ho. Qed.

(** ** The placeholder invariant

    The text so far ends at a token boundary, and its placeholders are
    [$1, ..., $k] in order, where [k] is the number of bound values. *)
Definition ph_inv (st : qbuild) : Prop :=
  ends_sep (queryString st) = true /\
  params_of (lex (queryString st)) = N.of_nat <$> seq 1 (length (queryParams st)).

(** [whereAnd] only ever holds one of the two keywords. *)
Definition query_inv (st : qbuild) : Prop :=
  ph_inv st /\ (whereAnd st = "WHERE" \/ whereAnd st = "AND").

Lemma whereAnd_push v st : whereAnd (push v st) = whereAnd st.
Proof. reflexivity. Qed.

Lemma ph_push v st :
  ph (push v st) = js_number_to_string (Z.of_N (N.of_nat (S (length (queryParams st))))).
Proof. unfold ph, push. cbn [queryParams]. by rewrite length_snoc, nat_N_Z. Qed.

(** Group the literal pieces before [${queryParams.length}]. *)
Lemma regroup_ph a b st post :
  a +:+ (b +:+ (ph st +:+ post)) = (a +:+ b) +:+ (ph st +:+ post).
Proof. apply str_app_assoc. Qed.

Lemma ph_inv_set_and st : ph_inv st -> ph_inv (set_and st).
Proof. done. Qed.

(** Appending a piece with no placeholder. *)
Lemma ph_inv_append_lit st s :
  ph_inv st -> s <> EmptyString -> ends_sep s = true -> params_of (lex s) = [] ->
  ph_inv (append s st).
Proof.
  intros [He Hp] Hne Hs Hl. unfold ph_inv, append. simpl.
  rewrite ends_sep_app, lex_app, params_of_app, Hp, Hl by done.
  by rewrite app_nil_r.
Qed.

(** Pushing a value and appending a piece that ends in [$k] for the new
    length [k]: the new placeholder is the next number. *)
Lemma ph_inv_emit st v x post :
  ph_inv st -> ends_dollar x = true -> params_of (lex (drop_last x)) = [] ->
  starts_sep post = true -> ends_sep post = true -> params_of (lex post) = [] ->
  ph_inv (append (x +:+ (ph (push v st) +:+ post)) (push v st)).
Proof.
  intros [He Hp] Hx Hx' Hs He' Hp'.
  assert (post <> EmptyString) by (by intros ->).
  unfold ph_inv. rewrite ph_push.
  set (n := N.of_nat (S (length (queryParams st)))).
  unfold append, push. cbn [queryString queryParams]. rewrite length_snoc.
  rewrite !ends_sep_app by auto with lbnb.
  rewrite lex_emit by done. split; [done|].
  rewrite !params_of_app, Hp, Hx'. cbn [params_of app]. rewrite Hp'.
  by rewrite seq_S, fmap_app.
Qed.

Ltac block_inv :=
  intros [Hph Hw];
  match goal with |- query_inv (if ?b then _ else _) => destruct b end;
  [|by split];
  cbv zeta; rewrite ?whereAnd_push, ?regroup_ph;
  split; [try apply ph_inv_set_and;
          destruct Hw as [-> | ->]; apply ph_inv_emit; try done; reflexivity
         | simpl; auto].

Lemma owner_id_filter_inv o st : query_inv st -> query_inv (owner_id_filter o st).
Proof. unfold owner_id_filter. block_inv. Qed.

Lemma city_filter_inv o st : query_inv st -> query_inv (city_filter o st).
Proof. unfold city_filter. block_inv. Qed.

Lemma minimum_price_filter_inv o st : query_inv st -> query_inv (minimum_price_filter o st).
Proof. unfold minimum_price_filter. block_inv. Qed.

Lemma maximum_price_filter_inv o st : query_inv st -> query_inv (maximum_price_filter o st).
Proof. unfold maximum_price_filter. block_inv. Qed.

Lemma minimum_rating_filter_inv o st : query_inv st -> query_inv (minimum_rating_filter o st).
Proof.
  unfold minimum_rating_filter. intros [Hph Hw].
  destruct (truthy _); [|by split].
  cbv zeta. rewrite regroup_ph. split; [|done]. by apply ph_inv_emit.
Qed.

Lemma group_by_clause_inv st : query_inv st -> query_inv (group_by_clause st).
Proof. intros [Hph Hw]. split; [|done]. by apply ph_inv_append_lit. Qed.

Lemma order_limit_clause_inv l st : query_inv st -> query_inv (order_limit_clause l st).
Proof.
  intros [Hph Hw]. unfold order_limit_clause. cbv zeta.
  rewrite !regroup_ph. split; [|done]. by apply ph_inv_emit.
Qed.

Lemma init_query_inv : query_inv init_query.
Proof. split; [split|left]; reflexivity. Qed.

(** The builder, block by block in source order, keeps the invariant. *)
Lemma build_query_inv o l : query_inv (build_query o l).
Proof.
  unfold build_query.
  apply order_limit_clause_inv; apply minimum_rating_filter_inv;
  apply group_by_clause_inv; apply maximum_price_filter_inv;
  apply minimum_price_filter_inv; apply city_filter_inv;
  apply owner_id_filter_inv; apply init_query_inv.
Qed.

(** ** The structured query the code means to build

    The spec (section 9) describes the search as a list of
    predicate/parameter pairs, rendered as [WHERE c1 AND c2 ...], with
    the parameters numbered in the same order.  This is that structured
    builder.  It is a specification, not a translation of code. *)

(** The WHERE predicates in the spec's order, with their bound values. *)
Definition where_filters (o : jsobj) : list (cond * jsval) :=
  let opt k c v := if truthy (obj_get o k) then [(c, v)] else [] in
  opt "owner_id" CondOwner (JStr (js_to_string (obj_get o "owner_id"))) ++
  opt "city" CondCity (JStr ("%" +:+ js_to_string (obj_get o "city") +:+ "%")) ++
  opt "minimum_price_per_night" CondMinPrice
    (JStr (js_to_string (obj_get o "minimum_price_per_night"))) ++
  opt "maximum_price_per_night" CondMaxPrice
    (JStr (js_to_string (obj_get o "maximum_price_per_night"))).

Definition having_filter (o : jsobj) : list jsval :=
  if truthy (obj_get o "minimum_rating")
  then [JStr (js_to_string (obj_get o "minimum_rating"))] else [].

Definition spec_params (o : jsobj) (limit : jsval) : list jsval :=
  (snd <$> where_filters o) ++ having_filter o ++ [limit].

(** The structured query: the WHERE predicates numbered from [$1], the
    HAVING bound next, the limit last. *)
Definition spec_query (o : jsobj) : search_query :=
  let cs := fst <$> where_filters o in
  let k := length cs in
  {| sq_conds := zip cs (N.of_nat <$> seq 1 k);
     sq_having := if truthy (obj_get o "minimum_rating") then Some (N.of_nat (S k)) else None;
     sq_limit := N.of_nat (S (k + length (having_filter o))) |}.

(** [owner_id] given together with another WHERE filter. *)
Definition owner_with_other (o : jsobj) : bool :=
  truthy (obj_get o "owner_id") &&
  (truthy (obj_get o "city") || truthy (obj_get o "minimum_price_per_night")
   || truthy (obj_get o "maximum_price_per_night")).

(** Case analysis on which options are truthy; the option values
    themselves are made opaque first, since the text never contains
    them. *)
Ltac case_options o :=
  generalize (obj_get o "owner_id") (obj_get o "city")
    (obj_get o "minimum_price_per_night") (obj_get o "maximum_price_per_night")
    (obj_get o "minimum_rating");
  intros v1 v2 v3 v4 v5;
  destruct (truthy v1), (truthy v2), (truthy v3), (truthy v4), (truthy v5).

Ltac unfold_query :=
  unfold build_query, order_limit_clause, minimum_rating_filter, group_by_clause,
    maximum_price_filter, minimum_price_filter, city_filter, owner_id_filter,
    owner_with_other, spec_params, spec_query, where_filters, having_filter.

(** What the database reads, as a lemma shared by the theorems here and
    by the end-to-end ones. *)
Lemma build_query_parse_stmt (o : jsobj) (limit : jsval) :
  parse_stmt (lex (queryString (build_query o limit))) =
  if owner_with_other o then None else Some (SSearch (spec_query o)).
Proof. unfold_query. case_options o; vm_compute; reflexivity. Qed.

(** The bound values, as a shared lemma. *)
Lemma build_query_params_eq (o : jsobj) (limit : jsval) :
  queryParams (build_query o limit) = spec_params o limit.
Proof. unfold_query. case_options o; reflexivity. Qed.

(** ** Theorems *)

(** C1. Positional placeholders.  Whatever the options, the
    placeholders of the statement [getAllProperties] sends are [$1, $2,
    ..., $k] in this order, where [k] is the number of bound values. *)
Theorem getAllProperties_placeholders (o : jsobj) (limit : jsval) :
  params_of (lex (queryString (build_query o limit))) =
  N.of_nat <$> seq 1 (length (queryParams (build_query o limit))).
Proof. by destruct (build_query_inv o limit) as [[_ H] _]. Qed.

(** C2. Refinement.  Unless [owner_id] is combined with another WHERE
    filter, the statement the code builds lexes to exactly the
    rendering of the structured query: the fixed SELECT, then [WHERE c1
    AND c2 ...] over the truthy filters in the order owner_id, city,
    minimum price, maximum price, then GROUP BY, the optional HAVING,
    and ORDER BY ... LIMIT, with placeholders numbered in that order. *)
Theorem build_query_refines (o : jsobj) (limit : jsval) :
  owner_with_other o = false ->
  lex (queryString (build_query o limit)) = render_search (spec_query o).
Proof. unfold_query. case_options o; intros H; try discriminate H; vm_compute; reflexivity. Qed.

(** C3. What the database reads.  The statement parses as the search
    over the structured query exactly when [owner_id] is not combined
    with another WHERE filter.  Otherwise it is a syntax error, and
    [getAllProperties] can only log and resolve to [undefined]. *)
Theorem build_query_parses (o : jsobj) (limit : jsval) :
  parse_stmt (lex (queryString (build_query o limit))) =
  if owner_with_other o then None else Some (SSearch (spec_query o)).
Proof. apply build_query_parse_stmt. Qed.

(** C4. Bound values.  For every options object, the values bound are
    those of the truthy filters in source order, each converted to a
    string (the city wrapped in [%...%]), then the limit as it was
    passed. *)
Theorem build_query_params (o : jsobj) (limit : jsval) :
  queryParams (build_query o limit) = spec_params o limit.
Proof. apply build_query_params_eq. Qed.

(** C5. The WHERE defect.  The number of [WHERE] keywords in the
    statement is one for a truthy [owner_id] plus one if any of city,
    minimum or maximum price is truthy: [owner_id] never switches
    [whereAnd] to [AND].  So [owner_id] together with another filter
    gives two [WHERE]s, which is not valid SQL.  With none of the four
    filters there is no [WHERE] at all. *)
Theorem build_query_where_count (o : jsobj) (limit : jsval) :
  count_word "WHERE" (lex (queryString (build_query o limit))) =
  (if truthy (obj_get o "owner_id") then 1 else 0) +
  (if truthy (obj_get o "city") || truthy (obj_get o "minimum_price_per_night")
      || truthy (obj_get o "maximum_price_per_night") then 1 else 0).
Proof. unfold_query. case_options o; vm_compute; reflexivity. Qed.

(** C6. The promise pipeline of [getAllProperties].  It sends the built
    statement with its values once, with the limit defaulting to 10.  On
    success it resolves to [res.rows] without logging.  On a database
    error it logs the error's message and resolves to [undefined], not
    [null] as the other five functions do.  It never rejects. *)
Theorem getAllProperties_spec {S : Type} `{Pool S} (o : jsobj) (limit : jsval) (s : S) :
  getAllProperties o limit s =
  let st := build_query o (default_param limit (JNum 10)) in
  match pool_query (queryString st) (queryParams st) s with
  | (s', Resolved res) => (s', [], Resolved (Ret (rows res)))
  | (s', Rejected e) => (s', [message e], Resolved RetUndefined)
  end.
Proof.
  unfold getAllProperties, catch_, then_, query, console_log, presolve. simpl.
  by destruct (pool_query _ _ s) as [s' [res|e]].
Qed.

(** C34. The types of the bound values.  Every value [getAllProperties]
    binds before the limit is a string (the template literals
    [`${options.x}`] and [`%${options.city}%`]), and the last one is
    the limit itself, of whatever type it was passed (a number by
    default): the database casts each from its text. *)
Theorem build_query_value_types (o : jsobj) (limit : jsval) :
  Forall (fun v => exists s, v = JStr s) (removelast (queryParams (build_query o limit))) /\
  last (queryParams (build_query o limit)) = Some limit.
Proof.
  rewrite build_query_params_eq. unfold spec_params.
  rewrite app_assoc, removelast_last, last_snoc. split; [|done].
  unfold where_filters, having_filter. case_options o; cbn; repeat econstructor.
Qed.

(** A concrete run: city and minimum rating given, default limit. *)
Definition example_options : jsobj :=
  <["city" := JStr "Vancouver"]> (<["minimum_rating" := JStr "4"]> ∅).

(** Witness of C2 at [example_options]. *)
Lemma build_query_refines_witness :
  owner_with_other example_options = false /\
  lex (queryString (build_query example_options (JNum 10))) =
  render_search (spec_query example_options).
Proof. split; [reflexivity|]. apply build_query_refines. reflexivity. Defined.

(** A pool that answers every query with no row. *)
Definition empty_pool : Pool unit := {| pool_query := fun _ _ s => (s, Resolved {| rows := [] |}) |}.


