(* ===== verification/Users.v ===== *)
(** * Users: [getUserWithEmail], [getUserWithId], [addUser]

    [src/LightBnB_WebApp/server/database.js], lines 23-102.  Each
    function sends one fixed statement with its bound values.  The two
    lookups resolve to the first row, or throw in [.then] when there is
    none.  [addUser] resolves to [res.rows[0]] as it is.  Each [.catch]
    logs the error's message and resolves to [null]. *)

From S2P Require Import Prelude JsValue Promise SqlLex.

(** Lines 24-31. *)
Definition getUserWithEmail_text : string :=
  template_lines [
    "";
    "  SELECT id,";
    "    name,";
    "    email,";
    "    password";
    "  FROM users";
    "  WHERE email = $1;";
    "  "].

(** Lines 54-61. *)
Definition getUserWithId_text : string :=
  template_lines [
    "";
    "  SELECT id,";
    "    name,";
    "    email,";
    "    password";
    "  FROM users";
    "  WHERE id = $1;";
    "  "].

(** Lines 84-88. *)
Definition addUser_text : string :=
  template_lines [
    "";
    "  INSERT INTO users(name, password, email)";
    "  VALUES($1, $2, $3)";
    "  RETURNING *;";
    "  "].

(** The properties of [user] that [addUser] reads. *)
Definition user_keys : list string := ["name"; "password"; "email"].

(** Line 90: [[user.name, user.password, user.email]]. *)
Definition addUser_values (user : jsobj) : list jsval :=
  [obj_get user "name"; obj_get user "password"; obj_get user "email"].

Section WithPool.
Context {S : Type} `{Pool S}.
Local Open Scope prom_scope.

(** Lines 23-45. *)
Definition getUserWithEmail (email : jsval) : prom S (jsret jsobj) :=
  catch_
    (then_ (query getUserWithEmail_text [email])
       (fun res =>
          match head (rows res) with
          | None => pthrow (Error "Invalid email address")
          | Some r => presolve (Ret r)
          end))
    (fun err => console_log (message err) ;; presolve RetNull).

(** Lines 53-75. *)
Definition getUserWithId (id : jsval) : prom S (jsret jsobj) :=
  catch_
    (then_ (query getUserWithId_text [id])
       (fun res =>
          match head (rows res) with
          | None => pthrow (Error "Invalid user id")
          | Some r => presolve (Ret r)
          end))
    (fun err => console_log (message err) ;; presolve RetNull).

(** Lines 83-101: [res.rows[0]] is [undefined] when there is no row. *)
Definition addUser (user : jsobj) : prom S (jsret jsobj) :=
  catch_
    (then_ (query addUser_text (addUser_values user))
       (fun res =>
          presolve (match head (rows res) with
                    | Some r => Ret r
                    | None => RetUndefined
                    end)))
    (fun err => console_log (message err) ;; presolve RetNull).
End WithPool.

#[export] Instance addUser_values_proper : Proper (obj_agree user_keys ==> eq) addUser_values.
Proof. intros u u' Hu. exact (obj_agree_map _ _ _ Hu). Qed.

#[export] Instance addUser_proper {S : Type} `{Pool S} :
  Proper (obj_agree user_keys ==> eq) (addUser (S:=S)).
Proof. intros u u' Hu. unfold addUser. by rewrite Hu. Qed.

(** ** Theorems *)
Section Theorems.
Context {S : Type} `{Pool S}.

(** The pipeline shared by both lookups, run on one pool state. *)
Lemma lookup_pipeline_run (text : string) (values : list jsval) (msg : string) (s : S) :
  catch_
    (then_ (query text values)
       (fun res => match head (rows res) with
                   | None => pthrow (Error msg)
                   | Some r => presolve (Ret r)
                   end))
    (fun err => (console_log (message err) ;; presolve RetNull)%prom) s =
  match pool_query text values s with
  | (s', Rejected e) => (s', [message e], Resolved RetNull)
  | (s', Resolved res) =>
      match rows res with
      | [] => (s', [msg], Resolved RetNull)
      | r :: _ => (s', [], Resolved (Ret r))
      end
  end.
Proof.
  unfold catch_, then_, query, console_log, presolve, pthrow.
  destruct (pool_query text values s) as [s' [[[|r rs]]|e]]; reflexivity.
Qed.

(** C7. [getUserWithEmail] sends the SELECT on [users] with the email
    as its only value.  It resolves to the first row when there is
    one.  With no row it logs "Invalid email address" and resolves to
    [null].  On a database error it logs the error's message and
    resolves to [null]. *)
Theorem getUserWithEmail_spec (email : jsval) (s : S) :
  getUserWithEmail email s =
  match pool_query getUserWithEmail_text [email] s with
  | (s', Rejected e) => (s', [message e], Resolved RetNull)
  | (s', Resolved res) =>
      match rows res with
      | [] => (s', ["Invalid email address"], Resolved RetNull)
      | r :: _ => (s', [], Resolved (Ret r))
      end
  end.
Proof. apply lookup_pipeline_run. Qed.

(** C9. [getUserWithId]: the same contract keyed by id, logging
    "Invalid user id" when there is no row. *)
Theorem getUserWithId_spec (id : jsval) (s : S) :
  getUserWithId id s =
  match pool_query getUserWithId_text [id] s with
  | (s', Rejected e) => (s', [message e], Resolved RetNull)
  | (s', Resolved res) =>
      match rows res with
      | [] => (s', ["Invalid user id"], Resolved RetNull)
      | r :: _ => (s', [], Resolved (Ret r))
      end
  end.
Proof. apply lookup_pipeline_run. Qed.

(** C29. Not found and failed look the same.  [getUserWithEmail]
    resolves to [null] exactly when the query failed or returned no
    row, so a caller cannot tell the two apart by the value. *)
Theorem getUserWithEmail_null_iff (email : jsval) (s : S) :
  (getUserWithEmail email s).2 = Resolved RetNull <->
  match (pool_query getUserWithEmail_text [email] s).2 with
  | Rejected _ => True
  | Resolved res => rows res = []
  end.
Proof.
  unfold getUserWithEmail. rewrite lookup_pipeline_run.
  destruct (pool_query _ _ s) as [s' [[[|r rs]]|e]]; simpl; split; done.
Qed.

(** C10. [addUser] inserts one row with the user's name, password and
    email.  It resolves to [res.rows[0]]: the inserted row, or
    [undefined] if the database returned none.  On a database error
    (a duplicate email, for instance) it logs the message and
    resolves to [null]. *)
Theorem addUser_spec (user : jsobj) (s : S) :
  addUser user s =
  match pool_query addUser_text
          [obj_get user "name"; obj_get user "password"; obj_get user "email"] s with
  | (s', Rejected e) => (s', [message e], Resolved RetNull)
  | (s', Resolved res) =>
      (s', [], Resolved (match rows res with r :: _ => Ret r | [] => RetUndefined end))
  end.
Proof.
  unfold addUser, addUser_values, catch_, then_, query, console_log, presolve.
  destruct (pool_query _ _ s) as [s' [[[|r rs]]|e]]; reflexivity.
Qed.
End Theorems.

(** C11. The INSERT of [addUser] assigns each column the user's field of
    the same name: the columns are name, password and email, and the
    placeholder of each column is bound to that field of [user]. *)
Theorem addUser_columns_bound (user : jsobj) :
  exists pairs,
    insert_assignment (lex addUser_text) = Some ("users", pairs) /\
    fst <$> pairs = ["name"; "password"; "email"] /\
    Forall (fun '(c, n) => binding (addUser_values user) n = Some (obj_get user c)) pairs.
Proof.
  eexists. split; [vm_compute; reflexivity|].
  split; [reflexivity|]. repeat constructor.
Qed.
