(* ===== verification/Reservations.v ===== *)
(** * Reservations: [getAllReservations]

    [src/LightBnB_WebApp/server/database.js], lines 111-139.  A fixed
    join of reservations, properties and reviews for one guest, with the
    guest id and the limit (default 10) as its two values.  It resolves
    to [res.rows]; the [.catch] logs and resolves to [null]. *)

From S2P Require Import Prelude JsValue Promise SqlLex.

(** Lines 112-126. *)
Definition getAllReservations_text : string :=
  template_lines [
    "";
    "  SELECT reservations.id AS res_id,";
    "    properties.*,";
    "    reservations.start_date,";
    "    reservations.end_date,";
    "    AVG(rating) AS average_rating";
    "  FROM reservations";
    "    JOIN properties ON reservations.property_id = properties.id";
    "    JOIN property_reviews ON properties.id = property_reviews.property_id";
    "  WHERE reservations.guest_id = $1";
    "  GROUP BY properties.id,";
    "    reservations.id";
    "  ORDER BY reservations.start_date";
    "  LIMIT $2;";
    "  "].

Section WithPool.
Context {S : Type} `{Pool S}.
Local Open Scope prom_scope.

(** Lines 111-139, with the default parameter [limit = 10]. *)
Definition getAllReservations (guest_id limit : jsval) : prom S (jsret (list jsobj)) :=
  let limit := default_param limit (JNum 10) in
  let values := [guest_id; limit] in
  catch_
    (then_ (query getAllReservations_text values)
       (fun res => presolve (Ret (rows res))))
    (fun err => console_log (message err) ;; presolve RetNull).

(** C12. [getAllReservations] sends the join with the guest id as
    [$1] and the limit as [$2], where an omitted limit is 10.  It
    resolves to all returned rows, or logs the error's message and
    resolves to [null]. *)
Theorem getAllReservations_spec (guest_id limit : jsval) (s : S) :
  getAllReservations guest_id limit s =
  match pool_query getAllReservations_text
          [guest_id; match limit with JUndefined => JNum 10 | _ => limit end] s with
  | (s', Rejected e) => (s', [message e], Resolved RetNull)
  | (s', Resolved res) => (s', [], Resolved (Ret (rows res)))
  end.
Proof.
  unfold getAllReservations, catch_, then_, query, console_log, presolve.
  destruct (pool_query _ _ s) as [s' [res|e]]; reflexivity.
Qed.
End WithPool.
