(* ===== verification/AddProperty.v ===== *)
(** * [addProperty]

    [src/LightBnB_WebApp/server/database.js], lines 220-240.  The
    fourteen column names are kept in the array [propertyValues].  The
    column list of the INSERT is that array joined with [", "].  The
    values are [propertyValues.map(value => property[value])], so an
    absent field is bound as [undefined]. *)

From S2P Require Import Prelude JsValue Promise SqlLex.

(** Line 221. *)
Definition propertyValues : list string :=
  ["owner_id"; "title"; "description"; "thumbnail_photo_url"; "cover_photo_url";
   "cost_per_night"; "street"; "city"; "province"; "post_code"; "country";
   "parking_spaces"; "number_of_bathrooms"; "number_of_bedrooms"].

(** [Array.prototype.join(sep)]. *)
Fixpoint js_join (sep : string) (xs : list string) : string :=
  match xs with
  | [] => ""
  | [x] => x
  | x :: xs' => x +:+ sep +:+ js_join sep xs'
  end.

(** Lines 223-227. *)
Definition addProperty_text : string :=
  template_lines [
    "";
    "  INSERT INTO properties(" +:+ js_join ", " propertyValues +:+ ")";
    "  VALUES($1, $2, $3, $4, $5, $6, $7, $8, $9, $10, $11, $12, $13, $14)";
    "  RETURNING *;";
    "  "].

(** Line 229. *)
Definition addProperty_values (property : jsobj) : list jsval :=
  map (fun value => obj_get property value) propertyValues.

Section WithPool.
Context {S : Type} `{Pool S}.
Local Open Scope prom_scope.

(** Lines 220-240. *)
Definition addProperty (property : jsobj) : prom S (jsret jsobj) :=
  catch_
    (then_ (query addProperty_text (addProperty_values property))
       (fun res =>
          presolve (match head (rows res) with
                    | Some r => Ret r
                    | None => RetUndefined
                    end)))
    (fun err => console_log (message err) ;; presolve RetNull).

(** C13. [addProperty] resolves to [res.rows[0]] ([undefined] if
    there is no row), or logs the error's message and resolves to
    [null]. *)
Theorem addProperty_spec (property : jsobj) (s : S) :
  addProperty property s =
  match pool_query addProperty_text (addProperty_values property) s with
  | (s', Rejected e) => (s', [message e], Resolved RetNull)
  | (s', Resolved res) =>
      (s', [], Resolved (match rows res with r :: _ => Ret r | [] => RetUndefined end))
  end.
Proof.
  unfold addProperty, catch_, then_, query, console_log, presolve.
  destruct (pool_query _ _ s) as [s' [[[|r rs]]|e]]; reflexivity.
Qed.
End WithPool.

(** [addProperty] reads only the fourteen columns of [property]. *)
#[export] Instance addProperty_values_proper :
  Proper (obj_agree propertyValues ==> eq) addProperty_values.
Proof. intros p p' Hp. exact (obj_agree_map _ _ _ Hp). Qed.

#[export] Instance addProperty_proper {S : Type} `{Pool S} :
  Proper (obj_agree propertyValues ==> eq) (addProperty (S:=S)).
Proof. intros p p' Hp. unfold addProperty. by rewrite Hp. Qed.

(** C14. Each of the fourteen columns of the INSERT receives the field
    of the same name of [property], through the placeholder written at
    its position in the VALUES list. *)
Theorem addProperty_columns_bound (property : jsobj) :
  exists pairs,
    insert_assignment (lex addProperty_text) = Some ("properties", pairs) /\
    fst <$> pairs = propertyValues /\
    Forall (fun '(c, n) => binding (addProperty_values property) n = Some (obj_get property c))
      pairs.
Proof.
  eexists. split; [vm_compute; reflexivity|].
  split; [reflexivity|]. repeat constructor.
Qed.
