(* ===== verification/Api.v ===== *)
(** * The exported surface of [database.js]

    The module exports six functions (lines 46, 76, 102, 140, 212,
    241).  [api_call] is a call of one of them with its arguments, and
    [run_call] runs it.  [statement_of] names the one statement, and the
    values bound with it, that each call sends.  The theorems show three
    things about every call.  It queries the pool exactly once, with
    [statement_of].  The statement's placeholders match its values.  It
    never rejects, and when its query fails it resolves to its
    [error_sentinel] after logging the message.  Two calls that agree on
    what the function reads ([call_agree]) run the same.  A call splits
    into its query and its callbacks, [continue_call], run on the
    response ([run_call_split]); [Concurrency] interleaves the two
    halves of concurrent calls. *)

From S2P Require Import Prelude JsValue Promise SqlLex PropertySearch.
From S2P Require Import Users Reservations AddProperty.

Inductive api_call :=
| CallGetUserWithEmail (email : jsval)
| CallGetUserWithId (id : jsval)
| CallAddUser (user : jsobj)
| CallGetAllReservations (guest_id limit : jsval)
| CallGetAllProperties (options : jsobj) (limit : jsval)
| CallAddProperty (property : jsobj).

(** What a call resolves to: one row or a list of rows, each possibly
    [null] or [undefined]. *)
Inductive api_result :=
| OneRow (r : jsret jsobj)
| ManyRows (r : jsret (list jsobj)).

(** [exports.f(args)] for the six exported functions. *)
Definition run_call {S : Type} `{Pool S} (c : api_call) : prom S api_result :=
  match c with
  | CallGetUserWithEmail email => (r <- getUserWithEmail email ;; presolve (OneRow r))%prom
  | CallGetUserWithId id => (r <- getUserWithId id ;; presolve (OneRow r))%prom
  | CallAddUser user => (r <- addUser user ;; presolve (OneRow r))%prom
  | CallGetAllReservations g l => (r <- getAllReservations g l ;; presolve (ManyRows r))%prom
  | CallGetAllProperties o l => (r <- getAllProperties o l ;; presolve (ManyRows r))%prom
  | CallAddProperty p => (r <- addProperty p ;; presolve (OneRow r))%prom
  end.

(** The statement and values each call sends. *)
Definition statement_of (c : api_call) : string * list jsval :=
  match c with
  | CallGetUserWithEmail email => (getUserWithEmail_text, [email])
  | CallGetUserWithId id => (getUserWithId_text, [id])
  | CallAddUser user => (addUser_text, addUser_values user)
  | CallGetAllReservations g l => (getAllReservations_text, [g; default_param l (JNum 10)])
  | CallGetAllProperties o l =>
      let st := build_query o (default_param l (JNum 10)) in (queryString st, queryParams st)
  | CallAddProperty p => (addProperty_text, addProperty_values p)
  end.

(** Two calls of the same function whose arguments agree on what the
    function reads: equal values, and objects that agree on the
    properties the function reads. *)
Definition call_agree (c c' : api_call) : Prop :=
  match c, c' with
  | CallGetUserWithEmail e, CallGetUserWithEmail e' => e = e'
  | CallGetUserWithId i, CallGetUserWithId i' => i = i'
  | CallAddUser u, CallAddUser u' => obj_agree user_keys u u'
  | CallGetAllReservations g l, CallGetAllReservations g' l' => g = g' /\ l = l'
  | CallGetAllProperties o l, CallGetAllProperties o' l' => obj_agree search_keys o o' /\ l = l'
  | CallAddProperty p, CallAddProperty p' => obj_agree propertyValues p p'
  | _, _ => False
  end.

(** What each function resolves to when its query fails: [undefined]
    for [getAllProperties], [null] for the five others. *)
Definition error_sentinel (c : api_call) : api_result :=
  match c with
  | CallGetAllProperties _ _ => ManyRows RetUndefined
  | CallGetAllReservations _ _ => ManyRows RetNull
  | _ => OneRow RetNull
  end.

(** A pool that cannot reach the server: every query fails with the
    driver's error. *)
Definition down_pool (msg : string) : Pool unit :=
  {| pool_query := fun _ _ s => (s, Rejected (Error msg)) |}.

(** A pool that answers [r] to any query.  It stands for the response
    the server has sent when a call's callbacks run. *)
Definition answer_pool (r : settled qresult) : Pool unit :=
  {| pool_query := fun _ _ s => (s, r) |}.

(** The [.then] and [.catch] callbacks of a call, run on the response
    [r] of its query: the lines they log and how the call settles. *)
Definition continue_call (c : api_call) (r : settled qresult) : list string * settled api_result :=
  let '(_, log, a) := @run_call unit (answer_pool r) c tt in (log, a).

(** Every [.catch] handler of the file logs and then resolves. *)
Lemma log_handler_resolves {S A : Type} (v : A) :
  forall e : js_error, always_resolves (S:=S) (console_log (message e) ;; presolve v)%prom.
Proof. intros e. apply log_then_resolve_always_resolves. Qed.

#[export] Hint Resolve log_handler_resolves : lbnb.

(** Every call resolves, whatever the pool does. *)
Lemma run_call_always_resolves {S : Type} `{Pool S} (c : api_call) :
  always_resolves (run_call c).
Proof.
  destruct c; simpl; apply then_presolve_always_resolves;
  unfold getUserWithEmail, getUserWithId, addUser, getAllReservations,
    getAllProperties, addProperty;
  apply catch_always_resolves; auto with lbnb.
Qed.

(** C15. No exported function ever rejects: whatever the pool does,
    each call resolves (to a value, [null] or [undefined]), so a
    database error never reaches the route handlers as an exception. *)
Theorem exported_functions_always_resolve {S : Type} `{Pool S} (c : api_call) :
  always_resolves (run_call c).
Proof. apply run_call_always_resolves. Qed.

(** C16. Every statement the module sends binds its values
    positionally: its placeholders are [$1 .. $k] in order, where [k] is
    the length of the values array sent with it. *)
Theorem statement_placeholders (c : api_call) :
  params_of (lex (statement_of c).1) = N.of_nat <$> seq 1 (length (statement_of c).2).
Proof.
  destruct c as [| | | | o l |]; [..| by destruct (build_query_inv o (default_param l (JNum 10))) as [[_ H] _] |];
  vm_compute; reflexivity.
Qed.

(** Each call queries the pool exactly once, with [statement_of]: the
    state after a call is the state after that one query, even on its
    error path. *)
Lemma run_call_split {S : Type} `{Pool S} (c : api_call) (s : S) :
  run_call c s =
  let '(s', r) := pool_query (statement_of c).1 (statement_of c).2 s in
  let '(log, a) := continue_call c r in (s', log, a).
Proof.
  unfold continue_call.
  destruct c; cbn [run_call statement_of fst snd];
  unfold getUserWithEmail, getUserWithId, addUser, getAllReservations,
    getAllProperties, addProperty, then_, catch_, query, console_log, presolve, pthrow;
  cbv zeta; destruct (pool_query _ _ s) as [s' [[[|r rs]]|e]]; reflexivity.
Qed.

Lemma run_call_state {S : Type} `{Pool S} (c : api_call) (s : S) :
  (run_call c s).1.1 = (pool_query (statement_of c).1 (statement_of c).2 s).1.
Proof.
  rewrite run_call_split. destruct (pool_query _ _ s), (continue_call c _). reflexivity.
Qed.

(** C33. What each function reads.  Two calls that agree on what the
    function reads run the same, for any pool: [getAllProperties] reads
    only its five option properties, [addUser] only [name], [password]
    and [email], [addProperty] only its fourteen columns.  Any other
    property of the argument objects is ignored. *)
Theorem run_call_agree {S : Type} `{Pool S} (c c' : api_call) :
  call_agree c c' -> run_call c = run_call c'.
Proof.
  destruct c, c'; simpl; try contradiction; intros Hc;
    repeat match goal with H : _ /\ _ |- _ => destruct H end; subst; try reflexivity;
    by rewrite Hc || rewrite H0.
Qed.

Lemma run_call_agree_witness :
  call_agree (CallGetAllProperties example_options (JNum 10))
             (CallGetAllProperties (<["page" := JNum 2]> example_options) (JNum 10)) /\
  @run_call unit empty_pool (CallGetAllProperties example_options (JNum 10)) =
  @run_call unit empty_pool (CallGetAllProperties (<["page" := JNum 2]> example_options) (JNum 10)).
Proof.
  assert (H : call_agree (CallGetAllProperties example_options (JNum 10))
             (CallGetAllProperties (<["page" := JNum 2]> example_options) (JNum 10)))
    by (split; [key_in | reflexivity]).
  split; [exact H|]. apply run_call_agree. exact H.
Defined.

(** C37. A failing query.  Whenever the pool rejects the one query of a
    call (the server is down, a constraint fails, the SQL is invalid),
    the call logs exactly the error's message and resolves to its
    sentinel: [undefined] for [getAllProperties], [null] for the five
    others.  A caller cannot tell the cause from the value. *)
Theorem failed_query_sentinel {S : Type} `{Pool S} (c : api_call) (s s' : S) (e : js_error) :
  pool_query (statement_of c).1 (statement_of c).2 s = (s', Rejected e) ->
  run_call c s = (s', [message e], Resolved (error_sentinel c)).
Proof.
  destruct c; cbn [run_call statement_of fst snd];
  unfold getUserWithEmail, getUserWithId, addUser, getAllReservations,
    getAllProperties, addProperty, then_, catch_, query, console_log, presolve;
  cbv zeta; intros Hq; by rewrite Hq.
Qed.

Lemma failed_query_sentinel_witness :
  @pool_query unit (down_pool "connect ECONNREFUSED 127.0.0.1:5432")
    (statement_of (CallGetUserWithEmail (JStr "ann@x.io"))).1
    (statement_of (CallGetUserWithEmail (JStr "ann@x.io"))).2 tt =
    (tt, Rejected (Error "connect ECONNREFUSED 127.0.0.1:5432")) /\
  @run_call unit (down_pool "connect ECONNREFUSED 127.0.0.1:5432")
    (CallGetUserWithEmail (JStr "ann@x.io")) tt =
    (tt, ["connect ECONNREFUSED 127.0.0.1:5432"], Resolved (OneRow RetNull)).
Proof.
  split; [reflexivity|].
  exact (@failed_query_sentinel unit (down_pool "connect ECONNREFUSED 127.0.0.1:5432")
           (CallGetUserWithEmail (JStr "ann@x.io")) tt tt
           (Error "connect ECONNREFUSED 127.0.0.1:5432") eq_refl).
Defined.
