(* ===== verification/MiniPg.v ===== *)
(** * An executable model of the database the code talks to: values

    The spec names the schema (section 6): users, properties,
    reservations and property_reviews.  It makes the database enforce
    unique e-mails and the owner/guest/property references (section
    3).  This file models, as a specification of the external
    collaborator (not code under src/):

    - how the [pg] driver sends a JavaScript value as a parameter: as
      text, with [null] and [undefined] sent as SQL NULL;
    - how the server casts that text to the column's type: [integer]
      (four bytes), [bigint] (eight bytes, for [LIMIT]) or [text],
      failing on a malformed or out-of-range integer with the server's
      message;
    - the LIKE pattern match, the numeric literal of a rating bound,
      AVG, and the NULLS LAST order of [ORDER BY].

    Result rows are JavaScript objects, as [pg] returns them.  Two
    simplifications are documented in place: dates are kept as their
    ISO text, and [average_rating] is printed with sixteen decimals.
    [MiniPgExec] executes the parsed statements over these tables. *)

From S2P Require Import Prelude JsValue.
From Stdlib Require Import DecimalString DecimalZ.

(** ** Schema *)

(** [integer] (four bytes), [bigint] (eight bytes) and [text]. *)
Inductive coltype := CInt | CBigInt | CText.

Definition int4_min : Z := (- 2 ^ 31)%Z.
Definition int4_max : Z := (2 ^ 31 - 1)%Z.
Definition int8_min : Z := (- 2 ^ 63)%Z.
Definition int8_max : Z := (2 ^ 63 - 1)%Z.

Definition users_cols : list (string * coltype) :=
  [("id", CInt); ("name", CText); ("email", CText); ("password", CText)].

Definition properties_cols : list (string * coltype) :=
  [("id", CInt); ("owner_id", CInt); ("title", CText); ("description", CText);
   ("thumbnail_photo_url", CText); ("cover_photo_url", CText); ("cost_per_night", CInt);
   ("street", CText); ("city", CText); ("province", CText); ("post_code", CText);
   ("country", CText); ("parking_spaces", CInt); ("number_of_bathrooms", CInt);
   ("number_of_bedrooms", CInt)].

Definition reservations_cols : list (string * coltype) :=
  [("id", CInt); ("guest_id", CInt); ("property_id", CInt);
   ("start_date", CText); ("end_date", CText)].

(** The tables, with the next value of each [serial] id. *)
Record db := {
  db_users : list jsobj;
  db_properties : list jsobj;
  db_reservations : list jsobj;
  db_reviews : list jsobj;
  db_user_seq : Z;
  db_property_seq : Z
}.

(** ** Parameters and casts *)

(** How [pg] sends a value: [None] is SQL NULL. *)
Definition param_text (v : jsval) : option string :=
  match v with
  | JUndefined | JNull => None
  | JBool b => Some (if b then "true" else "false")
  | JNum n => Some (js_number_to_string n)
  | JStr s => Some s
  end.

(** integer input: optional minus sign, then decimal digits. *)
Definition parse_int (s : string) : option Z :=
  Z.of_int <$> NilZero.int_of_string s.

(** A cast that fails is an error of the whole statement. *)
Inductive cast_result := CastOk (v : jsval) | CastError (msg : string).

(** The input function of an integer type of range [lo .. hi]. *)
Definition cast_int (lo hi : Z) (tname s : string) : cast_result :=
  match parse_int s with
  | Some z =>
      if decide (lo <= z <= hi)%Z then CastOk (JNum z)
      else CastError ("value " +:+ dq +:+ s +:+ dq +:+ " is out of range for type " +:+ tname)
  | None => CastError ("invalid input syntax for type " +:+ tname +:+ ": " +:+ dq +:+ s +:+ dq)
  end.

Definition cast (t : coltype) (v : option string) : cast_result :=
  match v, t with
  | None, _ => CastOk JNull
  | Some s, CText => CastOk (JStr s)
  | Some s, CInt => cast_int int4_min int4_max "integer" s
  | Some s, CBigInt => cast_int int8_min int8_max "bigint" s
  end.

(** ** LIKE

    [%] matches any sequence, [_] any one character, and a backslash
    makes the next character literal. *)
Fixpoint like (p s : list Ascii.ascii) {struct p} : bool :=
  match p with
  | [] => match s with [] => true | _ => false end
  | "%"%char :: p' =>
      (fix any (s : list Ascii.ascii) : bool :=
         like p' s || match s with [] => false | _ :: s' => any s' end) s
  | "_"%char :: p' => match s with [] => false | _ :: s' => like p' s' end
  | "\"%char :: c :: p' =>
      match s with [] => false | c' :: s' => bool_decide (c = c') && like p' s' end
  | c :: p' =>
      match s with [] => false | c' :: s' => bool_decide (c = c') && like p' s' end
  end.

Definition like_str (s pat : string) : bool :=
  like (String.list_ascii_of_string pat) (String.list_ascii_of_string s).

(** ** Numbers *)

(** A numeric literal [d..d] or [d..d.d..d], as [p / 10^k]. *)
Definition parse_numeric (s : string) : option (Z * nat) :=
  let cs := String.list_ascii_of_string s in
  match list_find (fun c => c = "."%char) cs with
  | None => (fun z => (z, 0%nat)) <$> parse_int s
  | Some (i, _) =>
      let ip := String.string_of_list_ascii (take i cs) in
      let fp := String.string_of_list_ascii (drop (S i) cs) in
      match NilZero.uint_of_string ip, NilZero.uint_of_string fp with
      | Some u, Some f =>
          Some ((Z.of_N (N.of_uint u) * 10 ^ Z.of_nat (length (drop (S i) cs))
                 + Z.of_N (N.of_uint f))%Z, length (drop (S i) cs))
      | _, _ => None
      end
  end.

(** [AVG(rating) >= p / 10^k] over ratings summing to [sum] with [cnt]
    of them, without division. *)
Definition avg_ge (sum : Z) (cnt : nat) (p : Z) (k : nat) : bool :=
  Z.leb (p * Z.of_nat cnt) (sum * 10 ^ Z.of_nat k)%Z.

Fixpoint pad_left (n : nat) (s : string) : string :=
  match n with
  | O => s
  | S n' => if decide (String.length s < n)%nat then pad_left n' ("0" +:+ s) else s
  end.

(** The text of [sum / cnt] rounded to sixteen decimals (the display
    of PostgreSQL's [numeric] AVG for these magnitudes). *)
Definition avg_text (sum : Z) (cnt : nat) : string :=
  let scale := (10 ^ 16)%Z in
  let q := ((2 * sum * scale + Z.of_nat cnt) / (2 * Z.of_nat cnt))%Z in
  js_number_to_string (q / scale)%Z +:+ "." +:+
  pad_left 16 (js_number_to_string (q mod scale)%Z).

(** ** Order keys: [ORDER BY] ascending puts NULLs last *)

Definition int_key (v : jsval) : option Z :=
  match v with JNum z => Some z | _ => None end.

Definition key_le (a b : option Z) : Prop :=
  match a, b with
  | Some x, Some y => (x <= y)%Z
  | _, None => True
  | None, Some _ => False
  end.

#[export] Instance key_le_dec : RelDecision key_le.
Proof. intros [x|] [y|]; simpl; apply _. Defined.

Lemma key_le_total : Total key_le.
Proof. intros [x|] [y|]; simpl; auto. lia. Qed.

Lemma key_le_trans : Transitive key_le.
Proof. intros [x|] [y|] [z|]; simpl; auto; try done. lia. Qed.

(** [LIMIT n]: NULL means no limit. *)
Definition apply_limit {A} (lim : option Z) (l : list A) : list A :=
  match lim with
  | None => l
  | Some n => take (Z.to_nat n) l
  end.

(** ** Lemmas *)

(** An integer sent by [pg] is read back by the server as itself. *)
Lemma parse_int_number_to_string (z : Z) : parse_int (js_number_to_string z) = Some z.
Proof.
  unfold parse_int, js_number_to_string.
  rewrite NilZero.isi.
  - simpl. by rewrite DecimalZ.of_to.
  - destruct z; simpl; [done| |]; intros [= H];
      by apply (DecimalPos.Unsigned.to_uint_nonnil p).
  - destruct z; simpl; [done| |]; intros [= H];
      by apply (DecimalPos.Unsigned.to_uint_nonnil p).
Qed.

Lemma apply_limit_length {A} (n : Z) (l : list A) :
  (0 <= n)%Z -> length (apply_limit (Some n) l) <= Z.to_nat n.
Proof. intros. simpl. rewrite length_take. lia. Qed.

Lemma cast_int_number (z : Z) :
  (int4_min <= z <= int4_max)%Z -> cast CInt (Some (js_number_to_string z)) = CastOk (JNum z).
Proof. intros Hz. unfold cast, cast_int. by rewrite parse_int_number_to_string, decide_True. Qed.

Lemma cast_bigint_number (z : Z) :
  (int8_min <= z <= int8_max)%Z -> cast CBigInt (Some (js_number_to_string z)) = CastOk (JNum z).
Proof. intros Hz. unfold cast, cast_int. by rewrite parse_int_number_to_string, decide_True. Qed.

(** An integer outside the range of [integer] is refused with the
    server's message. *)
Lemma cast_int_out_of_range (z : Z) :
  ~ (int4_min <= z <= int4_max)%Z ->
  cast CInt (Some (js_number_to_string z)) =
  CastError ("value " +:+ dq +:+ js_number_to_string z +:+ dq +:+ " is out of range for type integer").
Proof. intros Hz. unfold cast, cast_int. by rewrite parse_int_number_to_string, decide_False. Qed.

#[export] Instance coltype_eq_dec : EqDecision coltype.
Proof. solve_decision. Defined.

(** A JavaScript value of the column's type, which the cast keeps. *)
Definition typed_value (t : coltype) (v : jsval) : Prop :=
  match t with
  | CInt => exists z, v = JNum z /\ (int4_min <= z <= int4_max)%Z
  | CBigInt => exists z, v = JNum z /\ (int8_min <= z <= int8_max)%Z
  | CText => exists s, v = JStr s
  end.

Lemma cast_typed t v : typed_value t v -> cast t (param_text v) = CastOk v.
Proof.
  destruct t; [intros (z & -> & Hz)..| intros [s ->]; done].
  - by apply cast_int_number.
  - by apply cast_bigint_number.
Qed.

(** ** LIKE on literal patterns *)

(** The characters LIKE gives a meaning to. *)
Definition like_special (c : Ascii.ascii) : bool :=
  bool_decide (c = "%"%char) || bool_decide (c = "_"%char) || bool_decide (c = "\"%char).

Lemma like_lit_cons c p s :
  like_special c = false ->
  like (c :: p) s = match s with [] => false | c' :: s' => bool_decide (c = c') && like p s' end.
Proof.
  intros Hc. destruct c as [[][][][][][][][]]; try discriminate Hc; reflexivity.
Qed.

Lemma like_pct_unfold p s :
  like ("%"%char :: p) s = like p s || match s with [] => false | _ :: s' => like ("%"%char :: p) s' end.
Proof. by destruct s. Qed.

(** A literal prefix matches itself, then the rest of the pattern. *)
Lemma like_lit_app p rest s :
  forallb (fun c => negb (like_special c)) p = true ->
  like (p ++ rest) s = true <-> exists s2, s = p ++ s2 /\ like rest s2 = true.
Proof.
  revert s. induction p as [|c p IH]; intros s Hp.
  - split; [by exists s | by intros (s2 & -> & H)].
  - cbn [forallb] in Hp. apply andb_prop in Hp as [Hc Hp]. apply negb_true_iff in Hc.
    rewrite <- app_comm_cons, like_lit_cons by done. destruct s as [|c' s'].
    + split; [done|]. by intros (s2 & ? & _).
    + rewrite andb_true_iff, bool_decide_eq_true, IH by done.
      split; [intros [-> (s2 & -> & H)]; by exists s2|].
      intros (s2 & [= -> ->] & H). eauto.
Qed.

(** A leading [%] skips any prefix. *)
Lemma like_pct p s :
  like ("%"%char :: p) s = true <-> exists s1 s2, s = s1 ++ s2 /\ like p s2 = true.
Proof.
  induction s as [|c s IH]; rewrite like_pct_unfold, orb_true_iff.
  - split; [intros [H|H]; [by exists [], [] | done] |].
    intros (s1 & s2 & Hs & H). symmetry in Hs. apply app_eq_nil in Hs as [-> ->]. by left.
  - rewrite IH. split.
    + intros [H | (s1 & s2 & -> & H)]; [by exists [], (c :: s) | by exists (c :: s1), s2].
    + intros ([|c1 s1] & s2 & Hs & H); simpl in Hs; subst; [by left|].
      injection Hs as -> ->. right. eauto.
Qed.

Lemma like_pct_end s : like ["%"%char] s = true.
Proof. apply like_pct. exists s, []. by rewrite app_nil_r. Qed.

(** [%w%] with [w] literal matches exactly the strings containing [w]. *)
Lemma like_contains w s :
  forallb (fun c => negb (like_special c)) w = true ->
  like ("%"%char :: w ++ ["%"%char]) s = true <-> exists a b, s = a ++ w ++ b.
Proof.
  intros Hw. rewrite like_pct. setoid_rewrite like_lit_app; [|done].
  split.
  - intros (a & s2 & -> & b & -> & _). by exists a, b.
  - intros (a & b & ->). exists a, (w ++ b). split; [done|].
    exists b. split; [done | apply like_pct_end].
Qed.

(** Arithmetic on the bounds of the integer types. *)
Ltac int_range := unfold int4_min, int4_max, int8_min, int8_max in *; lia.

(** Any text is a [text] value. *)
Lemma cast_text_never_fails v msg : cast CText v <> CastError msg.
Proof. by destruct v. Qed.
