(* ===== verification/MiniPgExec.v ===== *)
(** * An executable model of the database the code talks to: statements

    [run_statement text values d] is what the database does with one
    [pool.query(text, values)].  It lexes and parses the text (syntax
    error otherwise) and checks that the values supply exactly the
    placeholders the text uses.  It then casts each bound value to the
    type its position requires and executes the statement:

    - the user lookups filter [users] by e-mail (text) or id (integer);
    - an INSERT into [users] draws the next id and rejects a duplicate
      e-mail; one into [properties] rejects an [owner_id] that is no
      user.  As in PostgreSQL the id sequence advances even when the
      insert fails.  An INSERT that names the [id] column takes that id
      instead, leaves the sequence, and is refused by the primary key
      for a NULL or taken id.  A drawn id is not checked against the
      primary key: it is fresh while every id came from the sequence,
      which [DbInvariant.db_wf] states.  Both return the inserted row;
    - the reservations join keeps the guest's reservations whose
      property has a review.  Each carries the property's columns and
      its average rating, ordered by start date, NULLs last;
    - the search keeps the reviewed properties satisfying the
      predicates and the HAVING bound, ordered by [cost_per_night]
      (NULLs last), then applies LIMIT.

    [minipg_pool] makes this the [Pool] of the code.  This is a
    specification of the external collaborator, not code under src/. *)

From S2P Require Import Prelude JsValue Promise SqlLex SqlParse MiniPg.
From stdpp Require Import sorting.

(** ** Binding *)

Definition param_at (vals : list jsval) (n : N) : option string :=
  match binding vals n with Some v => param_text v | None => None end.

Definition max_param (ts : list token) : N := foldr N.max 0%N (params_of ts).

Definition fail {A} (d : db) (msg : string) : db * settled A := (d, Rejected (Error msg)).

(** ** The user lookups *)

Definition exec_select_user (key : string) (p : N) (vals : list jsval) (d : db)
    : db * settled qresult :=
  if decide (key = "email") then
    let hit u := match param_at vals p with
                 | Some s => bool_decide (obj_get u "email" = JStr s)
                 | None => false
                 end in
    (d, Resolved {| rows := filter hit (db_users d) |})
  else if decide (key = "id") then
    match cast CInt (param_at vals p) with
    | CastError msg => fail d msg
    | CastOk v =>
        (d, Resolved {| rows := filter (fun u => bool_decide (v <> JNull /\ obj_get u "id" = v))
                                   (db_users d) |})
    end
  else fail d ("column " +:+ key +:+ " does not exist").

(** ** INSERT *)

(** The row an INSERT builds: every column of the table NULL, then the
    assigned columns cast to their type.  The id is drawn afterwards,
    unless the statement names the [id] column. *)
Fixpoint assign_row (schema : list (string * coltype)) (asg : list (string * N))
    (vals : list jsval) (row : jsobj) : string + jsobj :=
  match asg with
  | [] => inr row
  | (c, n) :: asg' =>
      match list_find (fun ct => ct.1 = c) schema with
      | Some (_, (_, t)) =>
          match cast t (param_at vals n) with
          | CastError msg => inl msg
          | CastOk v => assign_row schema asg' vals (<[c := v]> row)
          end
      | None => inl ("column " +:+ c +:+ " does not exist")
      end
  end.

Definition null_row (schema : list (string * coltype)) : jsobj :=
  list_to_map ((fun ct => (ct.1, JNull)) <$> schema).

Definition email_taken (d : db) (row : jsobj) : bool :=
  bool_decide (obj_get row "email" <> JNull) &&
  existsb (fun u => bool_decide (obj_get u "email" = obj_get row "email")) (db_users d).

Definition owner_missing (d : db) (row : jsobj) : bool :=
  bool_decide (obj_get row "owner_id" <> JNull) &&
  negb (existsb (fun u => bool_decide (obj_get u "id" = obj_get row "owner_id")) (db_users d)).

(** The primary key [id]: a row of the table already has this id. *)
Definition id_taken (rows : list jsobj) (row : jsobj) : bool :=
  existsb (fun r => bool_decide (obj_get r "id" = obj_get row "id")) rows.

(** An INSERT that names the [id] column: the column's DEFAULT
    [nextval] is not evaluated, so the sequence does not move, and the
    primary key refuses a NULL or an id the table already has. *)
Definition explicit_id_error (tbl : string) (rows : list jsobj) (row : jsobj) : option string :=
  if decide (obj_get row "id" = JNull)
  then Some ("null value in column id of relation " +:+ tbl +:+ " violates not-null constraint")
  else if id_taken rows row
  then Some ("duplicate key value violates unique constraint " +:+ tbl +:+ "_pkey")
  else None.

(** [nextval] on a [serial] sequence past the range of [integer]. *)
Definition seq_exhausted (seq : string) : string :=
  "nextval: reached maximum value of sequence " +:+ dq +:+ seq +:+ dq +:+ " (2147483647)".

Definition exec_insert (tbl : string) (asg : list (string * N)) (vals : list jsval) (d : db)
    : db * settled qresult :=
  if decide (tbl = "users") then
    let id := db_user_seq d in
    let d1 := {| db_users := db_users d; db_properties := db_properties d;
                 db_reservations := db_reservations d; db_reviews := db_reviews d;
                 db_user_seq := (id + 1)%Z; db_property_seq := db_property_seq d |} in
    match assign_row users_cols asg vals (null_row users_cols) with
    | inl msg => fail d msg
    | inr row0 =>
        if decide ("id" ∈ asg.*1) then
          match explicit_id_error "users" (db_users d) row0 with
          | Some msg => fail d msg
          | None =>
              if email_taken d row0
              then fail d "duplicate key value violates unique constraint users_email_key"
              else ({| db_users := db_users d ++ [row0]; db_properties := db_properties d;
                       db_reservations := db_reservations d; db_reviews := db_reviews d;
                       db_user_seq := id; db_property_seq := db_property_seq d |},
                    Resolved {| rows := [row0] |})
          end else
        if decide (int4_max < id)%Z then fail d (seq_exhausted "users_id_seq") else
        let row := <["id" := JNum id]> row0 in
        if email_taken d row
        then fail d1 "duplicate key value violates unique constraint users_email_key"
        else ({| db_users := db_users d ++ [row]; db_properties := db_properties d;
                 db_reservations := db_reservations d; db_reviews := db_reviews d;
                 db_user_seq := (id + 1)%Z; db_property_seq := db_property_seq d |},
              Resolved {| rows := [row] |})
    end
  else if decide (tbl = "properties") then
    let id := db_property_seq d in
    let d1 := {| db_users := db_users d; db_properties := db_properties d;
                 db_reservations := db_reservations d; db_reviews := db_reviews d;
                 db_user_seq := db_user_seq d; db_property_seq := (id + 1)%Z |} in
    match assign_row properties_cols asg vals (null_row properties_cols) with
    | inl msg => fail d msg
    | inr row0 =>
        if decide ("id" ∈ asg.*1) then
          match explicit_id_error "properties" (db_properties d) row0 with
          | Some msg => fail d msg
          | None =>
              if owner_missing d row0
              then fail d "insert or update on table properties violates foreign key constraint properties_owner_id_fkey"
              else ({| db_users := db_users d; db_properties := db_properties d ++ [row0];
                       db_reservations := db_reservations d; db_reviews := db_reviews d;
                       db_user_seq := db_user_seq d; db_property_seq := id |},
                    Resolved {| rows := [row0] |})
          end else
        if decide (int4_max < id)%Z then fail d (seq_exhausted "properties_id_seq") else
        let row := <["id" := JNum id]> row0 in
        if owner_missing d row
        then fail d1 "insert or update on table properties violates foreign key constraint properties_owner_id_fkey"
        else ({| db_users := db_users d; db_properties := db_properties d ++ [row];
                 db_reservations := db_reservations d; db_reviews := db_reviews d;
                 db_user_seq := db_user_seq d; db_property_seq := (id + 1)%Z |},
              Resolved {| rows := [row] |})
    end
  else fail d ("relation " +:+ tbl +:+ " does not exist").

(** ** Reviews and averages *)

(** The integer ratings of a property's reviews, and whether it has any
    review at all (the inner join keeps it then). *)
Definition reviews_of (d : db) (p : jsobj) : list jsobj :=
  filter (fun r => bool_decide (obj_get p "id" <> JNull /\
                                obj_get r "property_id" = obj_get p "id")) (db_reviews d).

Definition ratings_of (d : db) (p : jsobj) : list Z :=
  omap (fun r => int_key (obj_get r "rating")) (reviews_of d p).

Definition average_rating (d : db) (p : jsobj) : jsval :=
  match ratings_of d p with
  | [] => JNull
  | rs => JStr (avg_text (foldr Z.add 0%Z rs) (length rs))
  end.

(** [LIMIT $n]: a bigint; NULL is no limit, a negative value an error. *)
Definition cast_limit (v : option string) : string + option Z :=
  match cast CBigInt v with
  | CastError msg => inl msg
  | CastOk (JNum n) => if decide (n < 0)%Z then inl "LIMIT must not be negative" else inr (Some n)
  | CastOk _ => inr None
  end.

(** ** The reservations join *)

Definition date_key (v : jsval) : option string :=
  match v with JStr s => Some s | _ => None end.

Definition date_le (a b : option string) : Prop :=
  match a, b with
  | Some x, Some y => String.le x y
  | _, None => True
  | None, Some _ => False
  end.

#[export] Instance date_le_dec : RelDecision date_le.
Proof. intros [x|] [y|]; simpl; apply _. Defined.

(** [ORDER BY reservations.start_date] on the result rows. *)
Definition start_date_le (x y : jsobj) : Prop :=
  date_le (date_key (obj_get x "start_date")) (date_key (obj_get y "start_date")).

#[export] Instance start_date_le_dec : RelDecision start_date_le.
Proof. intros x y. unfold start_date_le. apply _. Defined.

Definition reservation_row (d : db) (r : jsobj) : option jsobj :=
  match filter (fun p => bool_decide (obj_get p "id" <> JNull /\
                                      obj_get p "id" = obj_get r "property_id"))
               (db_properties d) with
  | p :: _ =>
      if decide (reviews_of d p = []) then None
      else Some (<["res_id" := obj_get r "id"]>
                 (<["start_date" := obj_get r "start_date"]>
                  (<["end_date" := obj_get r "end_date"]>
                   (<["average_rating" := average_rating d p]> p))))
  | [] => None
  end.

Definition exec_reservations (pg pl : N) (vals : list jsval) (d : db) : db * settled qresult :=
  match cast CInt (param_at vals pg), cast_limit (param_at vals pl) with
  | CastError msg, _ => fail d msg
  | _, inl msg => fail d msg
  | CastOk g, inr lim =>
      let mine := filter (fun r => bool_decide (g <> JNull /\ obj_get r "guest_id" = g))
                         (db_reservations d) in
      let joined := omap (reservation_row d) mine in
      let sorted := merge_sort start_date_le joined in
      (d, Resolved {| rows := apply_limit lim sorted |})
  end.

(** ** The property search *)

(** [ORDER BY cost_per_night] on the result rows. *)
Definition cost_le (x y : jsobj) : Prop :=
  key_le (int_key (obj_get x "cost_per_night")) (int_key (obj_get y "cost_per_night")).

#[export] Instance cost_le_dec : RelDecision cost_le.
Proof. intros x y. unfold cost_le. apply _. Defined.

(** The type each predicate gives its placeholder. *)
Definition cond_type (c : cond) : coltype :=
  match c with CondCity => CText | _ => CInt end.

Fixpoint cast_conds (cs : list (cond * N)) (vals : list jsval) : string + list (cond * jsval) :=
  match cs with
  | [] => inr []
  | (c, n) :: cs' =>
      match cast (cond_type c) (param_at vals n), cast_conds cs' vals with
      | CastError msg, _ => inl msg
      | _, inl msg => inl msg
      | CastOk v, inr bs => inr ((c, v) :: bs)
      end
  end.

(** The HAVING bound: absent, NULL, or a numeric [p / 10^k]. *)
Definition cast_having (h : option N) (vals : list jsval) : string + option (option (Z * nat)) :=
  match h with
  | None => inr None
  | Some n =>
      match param_at vals n with
      | None => inr (Some None)
      | Some s =>
          match parse_numeric s with
          | Some r => inr (Some (Some r))
          | None => inl ("invalid input syntax for type numeric: " +:+ s)
          end
      end
  end.

(** A predicate on one property; a NULL on either side is false. *)
Definition eval_cond (p : jsobj) (b : cond * jsval) : bool :=
  match b with
  | (CondOwner, JNum z) => bool_decide (obj_get p "owner_id" = JNum z)
  | (CondCity, JStr pat) =>
      match obj_get p "city" with JStr city => like_str city pat | _ => false end
  | (CondMinPrice, JNum z) =>
      match int_key (obj_get p "cost_per_night") with
      | Some c => Z.ltb z (Z.quot c 100)
      | None => false
      end
  | (CondMaxPrice, JNum z) =>
      match int_key (obj_get p "cost_per_night") with
      | Some c => Z.ltb (Z.quot c 100) z
      | None => false
      end
  | _ => false
  end.

Definition having_ok (d : db) (p : jsobj) (h : option (option (Z * nat))) : bool :=
  match h with
  | None => true
  | Some None => false
  | Some (Some (q, k)) =>
      match ratings_of d p with
      | [] => false
      | rs => avg_ge (foldr Z.add 0%Z rs) (length rs) q k
      end
  end.

Definition search_rows (d : db) (bs : list (cond * jsval)) (h : option (option (Z * nat)))
    : list jsobj :=
  let reviewed := filter (fun p => bool_decide (reviews_of d p <> [])) (db_properties d) in
  let kept := filter (fun p => forallb (eval_cond p) bs && having_ok d p h) reviewed in
  (fun p => <["average_rating" := average_rating d p]> p) <$> kept.

Definition exec_search (q : search_query) (vals : list jsval) (d : db) : db * settled qresult :=
  match cast_conds (sq_conds q) vals, cast_having (sq_having q) vals,
        cast_limit (param_at vals (sq_limit q)) with
  | inl msg, _, _ | _, inl msg, _ | _, _, inl msg => fail d msg
  | inr bs, inr h, inr lim =>
      (d, Resolved {| rows := apply_limit lim (merge_sort cost_le (search_rows d bs h)) |})
  end.

(** ** Statements *)

Definition exec_stmt (st : stmt) (vals : list jsval) (d : db) : db * settled qresult :=
  match st with
  | SSelectUser k p => exec_select_user k p vals d
  | SInsert t asg => exec_insert t asg vals d
  | SReservations g l => exec_reservations g l vals d
  | SSearch q => exec_search q vals d
  end.

Definition run_statement (text : string) (vals : list jsval) (d : db) : db * settled qresult :=
  let ts := lex text in
  match parse_stmt ts with
  | None => fail d "syntax error"
  | Some st =>
      if decide (N.of_nat (length vals) = max_param ts) then exec_stmt st vals d
      else fail d ("bind message supplies " +:+ js_number_to_string (Z.of_nat (length vals))
                   +:+ " parameters, but prepared statement requires "
                   +:+ js_number_to_string (Z.of_N (max_param ts)))
  end.

#[export] Instance minipg_pool : Pool db := {| pool_query := run_statement |}.

(** ** Lemmas *)

Lemma pool_query_minipg text vals d : pool_query text vals d = run_statement text vals d.
Proof. reflexivity. Qed.

Lemma run_statement_parsed text vals d st :
  parse_stmt (lex text) = Some st -> max_param (lex text) = N.of_nat (length vals) ->
  run_statement text vals d = exec_stmt st vals d.
Proof. intros Hp Hm. unfold run_statement. rewrite Hp, decide_True by done. done. Qed.

Lemma run_statement_syntax_error text vals d :
  parse_stmt (lex text) = None -> run_statement text vals d = fail d "syntax error".
Proof. intros Hp. unfold run_statement. by rewrite Hp. Qed.

(** A fresh e-mail is not taken. *)
Lemma email_taken_fresh d row email :
  Forall (fun u => obj_get u "email" <> JStr email) (db_users d) ->
  obj_get row "email" = JStr email -> email_taken d row = false.
Proof.
  intros Hf He. unfold email_taken. rewrite He. simpl.
  apply not_true_iff_false. rewrite existsb_exists. intros (u & Hu & Hb).
  apply bool_decide_eq_true in Hb. rewrite Forall_forall in Hf.
  by apply (Hf u); [apply list_elem_of_In|].
Qed.

(** ** The search's result *)

Lemma exec_search_ok q vals d bs h lim :
  cast_conds (sq_conds q) vals = inr bs -> cast_having (sq_having q) vals = inr h ->
  cast_limit (param_at vals (sq_limit q)) = inr lim ->
  exec_search q vals d =
  (d, Resolved {| rows := apply_limit lim (merge_sort cost_le (search_rows d bs h)) |}).
Proof. intros Hc Hh Hl. unfold exec_search. by rewrite Hc, Hh, Hl. Qed.

#[export] Instance cost_le_trans : Transitive cost_le.
Proof. intros x y z. unfold cost_le. apply key_le_trans. Qed.

#[export] Instance cost_le_total : Total cost_le.
Proof. intros x y. unfold cost_le. apply key_le_total. Qed.

(** The rows come out in the order of the [ORDER BY] key, and are rows
    of the unsorted result. *)
Lemma apply_limit_sorted {A} (R : relation A) `{!RelDecision R, !Transitive R, !Total R}
    lim (rs : list A) :
  StronglySorted R (apply_limit lim (merge_sort R rs)).
Proof.
  pose proof (StronglySorted_merge_sort R rs).
  destruct lim; simpl; [by apply StronglySorted_take|done].
Qed.

Lemma apply_limit_elem {A} (R : relation A) `{!RelDecision R} lim (rs : list A) x :
  x ∈ apply_limit lim (merge_sort R rs) -> x ∈ rs.
Proof.
  intros Hx. rewrite <- (merge_sort_Permutation R rs).
  destruct lim; simpl in Hx; [by eapply elem_of_take_elem_of|done].
Qed.

(** A row of the search is a reviewed property satisfying every
    predicate and the HAVING bound, with its average rating added. *)
Lemma search_rows_elem d bs h x :
  x ∈ search_rows d bs h ->
  exists p, p ∈ db_properties d /\ reviews_of d p <> [] /\
    forallb (eval_cond p) bs = true /\ having_ok d p h = true /\
    x = <["average_rating" := average_rating d p]> p.
Proof.
  unfold search_rows. rewrite list_elem_of_fmap. intros (p & -> & Hp).
  apply list_elem_of_filter in Hp as [Hk Hp].
  apply list_elem_of_filter in Hp as [Hr Hp].
  apply Is_true_eq_true, andb_prop in Hk as [Hb Hh].
  exists p. repeat split; try done. by apply bool_decide_unpack in Hr.
Qed.

Lemma foldr_max_acc (a : N) (l : list N) : foldr N.max a l = N.max a (foldr N.max 0%N l).
Proof. induction l as [|x l IH]; simpl; [lia|]. rewrite IH. lia. Qed.

(** The highest placeholder of [$1 .. $k] is [k]. *)
Lemma max_param_seq (k : nat) : foldr N.max 0%N (N.of_nat <$> seq 1 k) = N.of_nat k.
Proof.
  induction k as [|k IH]; [done|].
  rewrite seq_S, fmap_app, foldr_app. simpl. rewrite foldr_max_acc, IH. lia.
Qed.

Lemma cast_limit_number (l : Z) :
  (0 <= l <= int8_max)%Z -> cast_limit (Some (js_number_to_string l)) = inr (Some l).
Proof.
  intros Hl. unfold cast_limit. rewrite cast_bigint_number by (unfold int8_min in *; lia).
  by rewrite decide_False by lia.
Qed.

#[export] Instance date_le_trans : Transitive date_le.
Proof. intros [x|] [y|] [z|]; simpl; try done. intros ??. by etrans. Qed.

#[export] Instance date_le_total : Total date_le.
Proof. intros [x|] [y|]; simpl; auto. apply (total String.le). Qed.

#[export] Instance start_date_le_trans : Transitive start_date_le.
Proof. intros x y z. unfold start_date_le. apply date_le_trans. Qed.

#[export] Instance start_date_le_total : Total start_date_le.
Proof. intros x y. unfold start_date_le. apply date_le_total. Qed.

Lemma exec_reservations_ok pg pl vals d g lim :
  cast CInt (param_at vals pg) = CastOk g -> cast_limit (param_at vals pl) = inr lim ->
  exec_reservations pg pl vals d =
  (d, Resolved {| rows := apply_limit lim (merge_sort start_date_le
        (omap (reservation_row d)
           (filter (fun r => bool_decide (g <> JNull /\ obj_get r "guest_id" = g))
              (db_reservations d)))) |}).
Proof. intros Hg Hl. unfold exec_reservations. by rewrite Hg, Hl. Qed.

(** A joined reservation row: the property's columns, overridden by the
    reservation's id, dates, and the property's average rating. *)
Lemma reservation_row_some d r x :
  reservation_row d r = Some x ->
  exists p, p ∈ db_properties d /\ obj_get p "id" = obj_get r "property_id" /\
    reviews_of d p <> [] /\
    x = <["res_id" := obj_get r "id"]> (<["start_date" := obj_get r "start_date"]>
        (<["end_date" := obj_get r "end_date"]>
         (<["average_rating" := average_rating d p]> p))).
Proof.
  unfold reservation_row.
  destruct (filter _ _) as [|p ps] eqn:Ef; [done|].
  assert (Hp : p ∈ filter (fun p => bool_decide (obj_get p "id" <> JNull /\
                 obj_get p "id" = obj_get r "property_id")) (db_properties d))
    by (rewrite Ef; left).
  apply list_elem_of_filter in Hp as [Hb Hp]. apply bool_decide_unpack in Hb as [_ Hid].
  case_decide as Hr; [done|]. intros [= <-]. by exists p.
Qed.

(** An INSERT whose every column exists and whose value casts to
    [w c]: the row is [row] with each listed column set. *)
Lemma assign_row_ok schema asg vals row (w : string -> jsval) :
  Forall (fun '(c, n) => exists i ct,
            list_find (fun ct => ct.1 = c) schema = Some (i, ct) /\
            cast ct.2 (param_at vals n) = CastOk (w c)) asg ->
  exists row', assign_row schema asg vals row = inr row' /\
    forall k, obj_get row' k = if decide (k ∈ asg.*1) then w k else obj_get row k.
Proof.
  revert row. induction asg as [|[c n] asg IH]; intros row Hf.
  - exists row. split; [done|]. intros k. by rewrite decide_False by set_solver.
  - cbn [assign_row]. apply Forall_cons in Hf as [(i & [c' t] & Hfind & Hcast) Hf].
    rewrite Hfind. simpl in Hcast. rewrite Hcast.
    destruct (IH (<[c := w c]> row) Hf) as (row' & Hr & Hk).
    exists row'. split; [done|]. intros k. rewrite Hk.
    destruct (decide (k ∈ asg.*1)); [by rewrite decide_True by set_solver|].
    destruct (decide (k = c)) as [->|Hne].
    + rewrite obj_get_insert_eq. by rewrite decide_True by set_solver.
    + rewrite obj_get_insert_ne by done. by rewrite decide_False by set_solver.
Qed.

(** An owner that is a user satisfies the foreign key. *)
Lemma owner_missing_false d row :
  (exists u, u ∈ db_users d /\ obj_get u "id" = obj_get row "owner_id") ->
  owner_missing d row = false.
Proof.
  intros (u & Hu & Hid). unfold owner_missing. apply andb_false_intro2.
  apply negb_false_iff, existsb_exists. exists u.
  split; [by apply list_elem_of_In | by apply bool_decide_eq_true].
Qed.

(** An e-mail some user already has is taken. *)
Lemma email_taken_dup d row email :
  (exists u, u ∈ db_users d /\ obj_get u "email" = JStr email) ->
  obj_get row "email" = JStr email -> email_taken d row = true.
Proof.
  intros (u & Hu & Hue) He. unfold email_taken. rewrite He. simpl.
  apply existsb_exists. exists u.
  split; [by apply list_elem_of_In | by apply bool_decide_eq_true].
Qed.

(** A reviewed property satisfying the predicates and the HAVING bound
    is a row of the search. *)
Lemma search_rows_intro d bs h p :
  p ∈ db_properties d -> reviews_of d p <> [] ->
  forallb (eval_cond p) bs = true -> having_ok d p h = true ->
  <["average_rating" := average_rating d p]> p ∈ search_rows d bs h.
Proof.
  intros Hp Hr Hb Hh. unfold search_rows. apply list_elem_of_fmap. exists p.
  split; [done|]. apply list_elem_of_filter. split.
  - by rewrite Hb, Hh.
  - apply list_elem_of_filter. split; [by apply bool_decide_pack | done].
Qed.

Lemma search_rows_length d bs h : length (search_rows d bs h) <= length (db_properties d).
Proof. unfold search_rows. rewrite length_fmap. etrans; apply length_filter. Qed.

(** A limit no smaller than the rows keeps them all. *)
Lemma apply_limit_elem_intro {A} (R : relation A) `{!RelDecision R} n (xs : list A) x :
  length xs <= Z.to_nat n -> x ∈ xs -> x ∈ apply_limit (Some n) (merge_sort R xs).
Proof.
  intros Hn Hx. simpl. rewrite take_ge.
  - by rewrite (merge_sort_Permutation R xs).
  - by rewrite (Permutation_length (merge_sort_Permutation R xs)).
Qed.
