(* ===== verification/EndToEnd.v ===== *)
(** * The code against the database model: the spec's testable properties

    With [minipg_pool] as the pool, the code's own functions are run
    against the executable database model of [MiniPg] and [MiniPgExec].
    This file proves the properties the spec lists in section 8: a
    missing e-mail gives a not-found result, [addUser] followed by
    [getUserWithEmail] gives the user back, and so on.  It also proves
    what the WHERE defect does at run time. *)

From S2P Require Import Prelude JsValue Promise SqlLex SqlParse PropertySearch Users.
From S2P Require Import Reservations AddProperty Api MiniPg MiniPgExec.

(** ** The fixed statements as the database reads them *)

Lemma getUserWithEmail_stmt :
  parse_stmt (lex getUserWithEmail_text) = Some (SSelectUser "email" 1) /\
  max_param (lex getUserWithEmail_text) = 1%N.
Proof. split; vm_compute; reflexivity. Qed.

Lemma addUser_stmt :
  parse_stmt (lex addUser_text) = Some (SInsert "users" [("name", 1%N); ("password", 2%N); ("email", 3%N)]) /\
  max_param (lex addUser_text) = 3%N.
Proof. split; vm_compute; reflexivity. Qed.

(** The user object of a sign-up form. *)
Definition signup (name password email : string) : jsobj :=
  <["name" := JStr name]> (<["password" := JStr password]> (<["email" := JStr email]> ∅)).

(** The row [addUser] inserts for it, with the drawn id. *)
Definition signup_row (d : db) (name password email : string) : jsobj :=
  <["id" := JNum (db_user_seq d)]>
  (<["email" := JStr email]> (<["password" := JStr password]>
   (<["name" := JStr name]> (null_row users_cols)))).

Lemma signup_row_email d name password email :
  obj_get (signup_row d name password email) "email" = JStr email.
Proof. reflexivity. Qed.

(** Neither INSERT of the code names the [id] column. *)
Lemma addUser_asg_no_id : "id" ∉ ([("name", 1%N); ("password", 2%N); ("email", 3%N)] : list (string * N)).*1.
Proof. apply (bool_decide_unpack _). by vm_compute. Qed.

Lemma addProperty_asg_no_id : "id" ∉ (zip propertyValues (N.of_nat <$> seq 1 14)).*1.
Proof. apply (bool_decide_unpack _). by vm_compute. Qed.

Lemma assign_signup name password email :
  assign_row users_cols [("name", 1%N); ("password", 2%N); ("email", 3%N)]
    (addUser_values (signup name password email)) (null_row users_cols) =
  inr (<["email" := JStr email]> (<["password" := JStr password]>
       (<["name" := JStr name]> (null_row users_cols)))).
Proof. reflexivity. Qed.

(** [addUser] of a sign-up: the sequence exhausted, the unique-constraint
    error (the [serial] sequence advanced), or the inserted row. *)
Lemma addUser_signup_run d name password email :
  addUser (signup name password email) d =
  if decide (int4_max < db_user_seq d)%Z
  then (d, [seq_exhausted "users_id_seq"], Resolved RetNull)
  else if email_taken d (signup_row d name password email)
  then ({| db_users := db_users d; db_properties := db_properties d;
           db_reservations := db_reservations d; db_reviews := db_reviews d;
           db_user_seq := (db_user_seq d + 1)%Z; db_property_seq := db_property_seq d |},
        ["duplicate key value violates unique constraint users_email_key"], Resolved RetNull)
  else ({| db_users := db_users d ++ [signup_row d name password email];
           db_properties := db_properties d; db_reservations := db_reservations d;
           db_reviews := db_reviews d; db_user_seq := (db_user_seq d + 1)%Z;
           db_property_seq := db_property_seq d |},
        [], Resolved (Ret (signup_row d name password email))).
Proof.
  destruct addUser_stmt as [Hp Hm].
  unfold addUser, catch_, then_, query. rewrite pool_query_minipg.
  rewrite (run_statement_parsed _ _ _ _ Hp) by (by rewrite Hm). cbn [exec_stmt].
  unfold exec_insert. rewrite decide_True by done. rewrite assign_signup. cbv zeta.
  rewrite decide_False by apply addUser_asg_no_id. case_decide; [reflexivity|].
  fold (signup_row d name password email). by destruct (email_taken _ _).
Qed.

(** [addUser] of a sign-up with a fresh e-mail: the row is appended to
    [users] and returned. *)
Lemma addUser_fresh_run d name password email :
  (db_user_seq d <= int4_max)%Z ->
  Forall (fun u => obj_get u "email" <> JStr email) (db_users d) ->
  addUser (signup name password email) d =
  ({| db_users := db_users d ++ [signup_row d name password email];
      db_properties := db_properties d; db_reservations := db_reservations d;
      db_reviews := db_reviews d; db_user_seq := (db_user_seq d + 1)%Z;
      db_property_seq := db_property_seq d |},
   [], Resolved (Ret (signup_row d name password email))).
Proof.
  intros Hs Hf. rewrite addUser_signup_run, decide_False by lia.
  by rewrite (email_taken_fresh d _ email Hf).
Qed.

(** [getUserWithEmail] against the model: the first user with that
    e-mail, or "Invalid email address" and [null]. *)
Lemma getUserWithEmail_run d email :
  getUserWithEmail (JStr email) d =
  match filter (fun u => bool_decide (obj_get u "email" = JStr email)) (db_users d) with
  | [] => (d, ["Invalid email address"], Resolved RetNull)
  | r :: _ => (d, [], Resolved (Ret r))
  end.
Proof.
  destruct getUserWithEmail_stmt as [Hp Hm].
  unfold getUserWithEmail. rewrite lookup_pipeline_run, pool_query_minipg.
  rewrite (run_statement_parsed _ _ _ _ Hp) by (by rewrite Hm). cbn [exec_stmt].
  unfold exec_select_user. rewrite decide_True by done. simpl.
  by destruct (filter _ _).
Qed.

Lemma getUserWithId_stmt :
  parse_stmt (lex getUserWithId_text) = Some (SSelectUser "id" 1) /\
  max_param (lex getUserWithId_text) = 1%N.
Proof. split; vm_compute; reflexivity. Qed.

(** [getUserWithId] of a number against the model: the id is cast to
    [integer], then the first user with that id, or "Invalid user id"
    and [null]. *)
Lemma getUserWithId_cast_run d z :
  getUserWithId (JNum z) d =
  match cast CInt (Some (js_number_to_string z)) with
  | CastError msg => (d, [msg], Resolved RetNull)
  | CastOk v =>
      match filter (fun u => bool_decide (v <> JNull /\ obj_get u "id" = v)) (db_users d) with
      | [] => (d, ["Invalid user id"], Resolved RetNull)
      | r :: _ => (d, [], Resolved (Ret r))
      end
  end.
Proof.
  destruct getUserWithId_stmt as [Hp Hm].
  unfold getUserWithId. rewrite lookup_pipeline_run, pool_query_minipg.
  rewrite (run_statement_parsed _ _ _ _ Hp) by (by rewrite Hm). cbn [exec_stmt].
  unfold exec_select_user. rewrite decide_False, decide_True by done.
  change (param_at [JNum z] 1) with (Some (js_number_to_string z)).
  destruct (cast _ _) as [v|msg]; [|done]. by destruct (filter _ _).
Qed.

Lemma getUserWithId_run d z :
  (int4_min <= z <= int4_max)%Z ->
  getUserWithId (JNum z) d =
  match filter (fun u => bool_decide (JNum z <> JNull /\ obj_get u "id" = JNum z))
               (db_users d) with
  | [] => (d, ["Invalid user id"], Resolved RetNull)
  | r :: _ => (d, [], Resolved (Ret r))
  end.
Proof. intros Hz. by rewrite getUserWithId_cast_run, cast_int_number. Qed.

Lemma fresh_filter_nil d email :
  Forall (fun u => obj_get u "email" <> JStr email) (db_users d) ->
  filter (fun u => bool_decide (obj_get u "email" = JStr email)) (db_users d) = [].
Proof.
  intros Hf. apply filter_Forall_nil. eapply Forall_impl; [exact Hf|].
  intros u Hu Hb. by apply bool_decide_unpack in Hb.
Qed.

(** ** A sample database *)

Definition sample_db : db := {|
  db_users := [
    list_to_map [("id", JNum 1); ("name", JStr "Ann"); ("email", JStr "ann@x.io");
                 ("password", JStr "pw1")];
    list_to_map [("id", JNum 2); ("name", JStr "Bob"); ("email", JStr "bob@x.io");
                 ("password", JStr "pw2")]];
  db_properties := [
    list_to_map [("id", JNum 1); ("owner_id", JNum 1); ("title", JStr "Loft");
                 ("city", JStr "Vancouver"); ("cost_per_night", JNum 15000)];
    list_to_map [("id", JNum 2); ("owner_id", JNum 2); ("title", JStr "Cabin");
                 ("city", JStr "Toronto"); ("cost_per_night", JNum 8000)];
    list_to_map [("id", JNum 3); ("owner_id", JNum 1); ("title", JStr "Villa");
                 ("city", JStr "Vancouver"); ("cost_per_night", JNum 25000)]];
  db_reservations := [
    list_to_map [("id", JNum 1); ("guest_id", JNum 2); ("property_id", JNum 1);
                 ("start_date", JStr "2024-03-01"); ("end_date", JStr "2024-03-05")];
    list_to_map [("id", JNum 2); ("guest_id", JNum 2); ("property_id", JNum 2);
                 ("start_date", JStr "2024-01-10"); ("end_date", JStr "2024-01-12")];
    list_to_map [("id", JNum 3); ("guest_id", JNum 2); ("property_id", JNum 3);
                 ("start_date", JStr "2024-02-01"); ("end_date", JStr "2024-02-03")]];
  db_reviews := [
    list_to_map [("property_id", JNum 1); ("rating", JNum 4)];
    list_to_map [("property_id", JNum 1); ("rating", JNum 5)];
    list_to_map [("property_id", JNum 2); ("rating", JNum 3)]];
  db_user_seq := 3;
  db_property_seq := 4
|}.

(** ** Users *)

(** C18. An e-mail that no user has: [getUserWithEmail] resolves to
    [null] after logging "Invalid email address"; it does not throw and
    leaves the database unchanged. *)
Theorem getUserWithEmail_absent (d : db) (email : string) :
  Forall (fun u => obj_get u "email" <> JStr email) (db_users d) ->
  getUserWithEmail (JStr email) d = (d, ["Invalid email address"], Resolved RetNull).
Proof. intros Hf. by rewrite getUserWithEmail_run, fresh_filter_nil. Qed.

Lemma getUserWithEmail_absent_witness :
  Forall (fun u => obj_get u "email" <> JStr "eve@x.io") (db_users sample_db) /\
  getUserWithEmail (JStr "eve@x.io") sample_db =
    (sample_db, ["Invalid email address"], Resolved RetNull).
Proof.
  assert (H : Forall (fun u => obj_get u "email" <> JStr "eve@x.io") (db_users sample_db))
    by (repeat constructor; vm_compute; congruence).
  split; [exact H|]. apply getUserWithEmail_absent. exact H.
Defined.

(** C19. Sign-up then log-in.  After [addUser] of a name, password and
    e-mail that no user has, while the id sequence is within the range
    of [integer], [getUserWithEmail] of that e-mail resolves to the
    inserted row: its name, e-mail and password are the input and its
    id is the next of the sequence. *)
Theorem addUser_then_getUserWithEmail (d : db) (name password email : string) :
  (db_user_seq d <= int4_max)%Z ->
  Forall (fun u => obj_get u "email" <> JStr email) (db_users d) ->
  let '(d1, _, r) := addUser (signup name password email) d in
  exists row,
    r = Resolved (Ret row) /\
    getUserWithEmail (JStr email) d1 = (d1, [], Resolved (Ret row)) /\
    obj_get row "name" = JStr name /\ obj_get row "email" = JStr email /\
    obj_get row "password" = JStr password /\ obj_get row "id" = JNum (db_user_seq d).
Proof.
  intros Hs Hf. rewrite addUser_fresh_run by done.
  exists (signup_row d name password email). split; [done|].
  rewrite getUserWithEmail_run. cbn [db_users].
  rewrite filter_app, fresh_filter_nil, filter_cons_True by (done || by apply bool_decide_pack).
  by repeat split.
Qed.

Lemma addUser_then_getUserWithEmail_witness :
  (db_user_seq sample_db <= int4_max)%Z /\
  Forall (fun u => obj_get u "email" <> JStr "eve@x.io") (db_users sample_db) /\
  let '(d1, _, r) := addUser (signup "Eve" "pw3" "eve@x.io") sample_db in
  exists row,
    r = Resolved (Ret row) /\
    getUserWithEmail (JStr "eve@x.io") d1 = (d1, [], Resolved (Ret row)) /\
    obj_get row "name" = JStr "Eve" /\ obj_get row "email" = JStr "eve@x.io" /\
    obj_get row "password" = JStr "pw3" /\ obj_get row "id" = JNum (db_user_seq sample_db).
Proof.
  assert (H : Forall (fun u => obj_get u "email" <> JStr "eve@x.io") (db_users sample_db))
    by (repeat constructor; vm_compute; congruence).
  assert (Hs : (db_user_seq sample_db <= int4_max)%Z) by (simpl; int_range).
  split; [exact Hs|]. split; [exact H|]. apply addUser_then_getUserWithEmail; [exact Hs | exact H].
Defined.

(** ** The property search *)

Lemma build_query_max_param o l :
  max_param (lex (queryString (build_query o l))) =
  N.of_nat (length (queryParams (build_query o l))).
Proof.
  unfold max_param. destruct (build_query_inv o l) as [[_ H] _].
  rewrite H. apply max_param_seq.
Qed.

(** [getAllProperties] against the model: a syntax error when
    [owner_id] is combined with another filter, otherwise the search
    over the structured query and its values. *)
Lemma getAllProperties_run d o l :
  getAllProperties o l d =
  if owner_with_other o then (d, ["syntax error"], Resolved RetUndefined)
  else match exec_search (spec_query o) (spec_params o (default_param l (JNum 10))) d with
       | (d', Resolved res) => (d', [], Resolved (Ret (rows res)))
       | (d', Rejected e) => (d', [message e], Resolved RetUndefined)
       end.
Proof.
  unfold getAllProperties, catch_, then_, query, console_log, presolve. cbv zeta.
  rewrite pool_query_minipg.
  pose proof (build_query_parse_stmt o (default_param l (JNum 10))) as Hp.
  destruct (owner_with_other o).
  - by rewrite run_statement_syntax_error.
  - rewrite (run_statement_parsed _ _ _ _ Hp) by apply build_query_max_param.
    cbn [exec_stmt]. rewrite build_query_params_eq.
    by destruct (exec_search _ _ d) as [d' [res|e]].
Qed.

(** C20. No options.  [getAllProperties({}, limit)] with a limit
    [l >= 0] resolves, without logging, to at most [l] rows ordered by
    non-decreasing [cost_per_night]. *)
Theorem getAllProperties_no_options (d : db) (l : Z) :
  (0 <= l <= int8_max)%Z ->
  exists rows,
    getAllProperties ∅ (JNum l) d = (d, [], Resolved (Ret rows)) /\
    StronglySorted cost_le rows /\ length rows <= Z.to_nat l.
Proof.
  intros Hl. rewrite getAllProperties_run. simpl.
  erewrite exec_search_ok; [| reflexivity | reflexivity |].
  - eexists. split; [reflexivity|].
    split; [apply apply_limit_sorted; apply _ | apply apply_limit_length; lia].
  - by apply cast_limit_number.
Qed.

Lemma getAllProperties_no_options_witness :
  (0 <= 2 <= int8_max)%Z /\
  exists rows,
    getAllProperties ∅ (JNum 2) sample_db = (sample_db, [], Resolved (Ret rows)) /\
    StronglySorted cost_le rows /\ length rows <= Z.to_nat 2.
Proof. split; [int_range|]. apply getAllProperties_no_options. int_range. Defined.

(** The limit is bound to the last placeholder, [LIMIT $n]. *)
Lemma param_at_limit o v :
  param_at (spec_params o v) (sq_limit (spec_query o)) = param_text v.
Proof.
  unfold param_at, binding, spec_params, spec_query. cbn [sq_limit].
  rewrite Nat2N.id.
  replace (S (length (fst <$> where_filters o) + length (having_filter o)) - 1)
    with (length ((snd <$> where_filters o) ++ having_filter o))
    by (rewrite length_app, !length_fmap; lia).
  by rewrite app_assoc, lookup_app_r, Nat.sub_diag by lia.
Qed.

(** A search whose values all cast: the rows are sorted by cost, at
    most [limit] of them, and each is a reviewed property satisfying
    every cast predicate and the HAVING bound, with its average rating. *)
Lemma getAllProperties_ok d o l bs h :
  owner_with_other o = false -> (0 <= l <= int8_max)%Z ->
  cast_conds (sq_conds (spec_query o)) (spec_params o (JNum l)) = inr bs ->
  cast_having (sq_having (spec_query o)) (spec_params o (JNum l)) = inr h ->
  exists rows,
    getAllProperties o (JNum l) d = (d, [], Resolved (Ret rows)) /\
    StronglySorted cost_le rows /\ length rows <= Z.to_nat l /\
    forall x, x ∈ rows -> exists p, p ∈ db_properties d /\ reviews_of d p <> [] /\
      forallb (eval_cond p) bs = true /\ having_ok d p h = true /\
      x = <["average_rating" := average_rating d p]> p.
Proof.
  intros Ho Hl Hc Hh. rewrite getAllProperties_run, Ho. cbn [default_param].
  erewrite exec_search_ok; [| exact Hc | exact Hh |].
  - eexists. split; [reflexivity|]. split; [apply apply_limit_sorted; apply _|].
    split; [apply apply_limit_length; lia|].
    intros x Hx. by apply search_rows_elem, (apply_limit_elem cost_le (Some l)).
  - rewrite param_at_limit. by apply cast_limit_number.
Qed.

(** The options object of a price-range search. *)
Definition price_options (vmin vmax : jsval) : jsobj :=
  <["minimum_price_per_night" := vmin]> (<["maximum_price_per_night" := vmax]> ∅).

Lemma price_options_query vmin vmax l :
  truthy vmin = true -> truthy vmax = true ->
  owner_with_other (price_options vmin vmax) = false /\
  spec_query (price_options vmin vmax) =
    {| sq_conds := [(CondMinPrice, 1%N); (CondMaxPrice, 2%N)]; sq_having := None;
       sq_limit := 3%N |} /\
  spec_params (price_options vmin vmax) l =
    [JStr (js_to_string vmin); JStr (js_to_string vmax); l].
Proof.
  intros Hmin Hmax.
  unfold owner_with_other, spec_query, spec_params, where_filters, having_filter.
  assert (obj_get (price_options vmin vmax) "minimum_price_per_night" = vmin) as -> by done.
  assert (obj_get (price_options vmin vmax) "maximum_price_per_night" = vmax) as -> by done.
  assert (obj_get (price_options vmin vmax) "owner_id" = JUndefined) as -> by done.
  assert (obj_get (price_options vmin vmax) "city" = JUndefined) as -> by done.
  assert (obj_get (price_options vmin vmax) "minimum_rating" = JUndefined) as -> by done.
  by rewrite Hmin, Hmax.
Qed.

(** The two price bounds cast to [integer]. *)
Lemma price_casts vmin vmax zmin zmax l :
  truthy vmin = true -> truthy vmax = true ->
  parse_int (js_to_string vmin) = Some zmin -> parse_int (js_to_string vmax) = Some zmax ->
  (int4_min <= zmin <= int4_max)%Z -> (int4_min <= zmax <= int4_max)%Z ->
  cast_conds (sq_conds (spec_query (price_options vmin vmax)))
    (spec_params (price_options vmin vmax) l) =
  inr [(CondMinPrice, JNum zmin); (CondMaxPrice, JNum zmax)].
Proof.
  intros Hmin Hmax Hzmin Hzmax Hrmin Hrmax.
  destruct (price_options_query vmin vmax l Hmin Hmax) as (_ & Hq & Hp).
  rewrite Hq, Hp. simpl. unfold cast_int. by rewrite Hzmin, Hzmax, !decide_True.
Qed.

(** C21. Price range.  With [minimum_price_per_night] and
    [maximum_price_per_night] set to values whose text is an integer
    of the range of [integer] ([zmin], [zmax] dollars), every property returned has a
    [cost_per_night] of [c] cents with [zmin < c / 100 < zmax] (the
    division truncating, as PostgreSQL's integer division does); the
    rows are ordered by cost and at most [limit] of them. *)
Theorem getAllProperties_price_range (d : db) (vmin vmax : jsval) (zmin zmax l : Z) :
  truthy vmin = true -> truthy vmax = true ->
  parse_int (js_to_string vmin) = Some zmin ->
  parse_int (js_to_string vmax) = Some zmax ->
  (int4_min <= zmin <= int4_max)%Z -> (int4_min <= zmax <= int4_max)%Z ->
  (0 <= l <= int8_max)%Z ->
  exists rows,
    getAllProperties (price_options vmin vmax) (JNum l) d = (d, [], Resolved (Ret rows)) /\
    StronglySorted cost_le rows /\ length rows <= Z.to_nat l /\
    Forall (fun x => exists c, obj_get x "cost_per_night" = JNum c /\
                               (zmin < Z.quot c 100 < zmax)%Z) rows.
Proof.
  intros Hmin Hmax Hzmin Hzmax Hrmin Hrmax Hl.
  destruct (price_options_query vmin vmax (JNum l) Hmin Hmax) as (Ho & Hq & Hp).
  edestruct (getAllProperties_ok d _ l [(CondMinPrice, JNum zmin); (CondMaxPrice, JNum zmax)]
               None Ho Hl) as (rows & Hrun & Hs & Hlen & Hrows).
  { by apply price_casts. }
  { by rewrite Hq. }
  exists rows. do 3 (split; [done|]).
  apply Forall_forall. intros x Hx.
  destruct (Hrows x Hx) as (p & _ & _ & Hc & _ & ->).
  rewrite obj_get_insert_ne by done. cbn in Hc.
  destruct (int_key (obj_get p "cost_per_night")) as [c|] eqn:Ek; [|done].
  destruct (obj_get p "cost_per_night") as [| | |c'|]; simplify_eq/=.
  exists c. split; [done|]. rewrite andb_true_r in Hc.
  apply andb_prop in Hc as [H1 H2]. apply Z.ltb_lt in H1, H2. lia.
Qed.

Lemma getAllProperties_price_range_witness :
  exists rows,
    getAllProperties (price_options (JStr "90") (JStr "200")) (JNum 10) sample_db =
      (sample_db, [], Resolved (Ret rows)) /\
    StronglySorted cost_le rows /\ length rows <= Z.to_nat 10 /\
    Forall (fun x => exists c, obj_get x "cost_per_night" = JNum c /\
                               (90 < Z.quot c 100 < 200)%Z) rows.
Proof. apply getAllProperties_price_range; (reflexivity || int_range). Defined.

(** C38. Price range, completeness.  With the same options as C21 and
    a limit no smaller than the properties table, every reviewed
    property whose [cost_per_night] of [c] cents has
    [zmin < c / 100 < zmax] is returned, with its average rating: the
    search drops nothing it should keep. *)
Theorem getAllProperties_price_complete (d : db) (vmin vmax : jsval) (zmin zmax l : Z) :
  truthy vmin = true -> truthy vmax = true ->
  parse_int (js_to_string vmin) = Some zmin ->
  parse_int (js_to_string vmax) = Some zmax ->
  (int4_min <= zmin <= int4_max)%Z -> (int4_min <= zmax <= int4_max)%Z ->
  (0 <= l <= int8_max)%Z -> length (db_properties d) <= Z.to_nat l ->
  exists rows,
    getAllProperties (price_options vmin vmax) (JNum l) d = (d, [], Resolved (Ret rows)) /\
    forall p c, p ∈ db_properties d -> reviews_of d p <> [] ->
      obj_get p "cost_per_night" = JNum c -> (zmin < Z.quot c 100 < zmax)%Z ->
      <["average_rating" := average_rating d p]> p ∈ rows.
Proof.
  intros Hmin Hmax Hzmin Hzmax Hrmin Hrmax Hl Hn.
  destruct (price_options_query vmin vmax (JNum l) Hmin Hmax) as (Ho & Hq & Hp).
  rewrite getAllProperties_run, Ho. cbn [default_param].
  erewrite exec_search_ok; [| by apply price_casts | by rewrite Hq |].
  - eexists. split; [reflexivity|]. intros p c Hin Hr Hc Hb.
    apply apply_limit_elem_intro; [by rewrite search_rows_length|].
    apply search_rows_intro; [done | done | | done].
    simpl. rewrite Hc. simpl. apply andb_true_intro. split; [|apply andb_true_intro; split];
      [apply Z.ltb_lt; lia | apply Z.ltb_lt; lia | done].
  - rewrite param_at_limit. by apply cast_limit_number.
Qed.

Lemma getAllProperties_price_complete_witness :
  exists rows,
    getAllProperties (price_options (JStr "90") (JStr "200")) (JNum 10) sample_db =
      (sample_db, [], Resolved (Ret rows)) /\
    forall p c, p ∈ db_properties sample_db -> reviews_of sample_db p <> [] ->
      obj_get p "cost_per_night" = JNum c -> (90 < Z.quot c 100 < 200)%Z ->
      <["average_rating" := average_rating sample_db p]> p ∈ rows.
Proof.
  apply getAllProperties_price_complete; (reflexivity || int_range || (simpl; lia)).
Defined.

(** C31. A price the database refuses.  When [minimum_price_per_night]
    is truthy but its text is not an integer of the range of
    [integer] (say "cheap", "9.5" or "99999999999"), the database
    rejects the cast of [$1]; [getAllProperties] logs the error's
    message and resolves to [undefined], leaving the tables as they
    were. *)
Theorem getAllProperties_bad_price (d : db) (vmin vmax limit : jsval) (msg : string) :
  truthy vmin = true -> truthy vmax = true ->
  cast CInt (Some (js_to_string vmin)) = CastError msg ->
  getAllProperties (price_options vmin vmax) limit d = (d, [msg], Resolved RetUndefined).
Proof.
  intros Hmin Hmax Hc.
  destruct (price_options_query vmin vmax (default_param limit (JNum 10)) Hmin Hmax)
    as (Ho & Hq & Hp).
  rewrite getAllProperties_run, Ho. unfold exec_search. rewrite Hq, Hp.
  cbn [sq_conds cast_conds cond_type]. change (param_at _ 1) with (Some (js_to_string vmin)).
  by rewrite Hc.
Qed.

Lemma getAllProperties_bad_price_witness :
  getAllProperties (price_options (JStr "cheap") (JStr "200")) JUndefined sample_db =
    (sample_db, ["invalid input syntax for type integer: " +:+ dq +:+ "cheap" +:+ dq],
     Resolved RetUndefined).
Proof. apply getAllProperties_bad_price; reflexivity. Defined.

(** The options object of a search by city. *)
Definition city_options (w : string) : jsobj := <["city" := JStr w]> ∅.

Lemma city_options_query w l :
  truthy (JStr w) = true ->
  owner_with_other (city_options w) = false /\
  spec_query (city_options w) =
    {| sq_conds := [(CondCity, 1%N)]; sq_having := None; sq_limit := 2%N |} /\
  spec_params (city_options w) l = [JStr ("%" +:+ w +:+ "%"); l].
Proof.
  intros Hw. unfold owner_with_other, spec_query, spec_params, where_filters, having_filter.
  assert (obj_get (city_options w) "city" = JStr w) as -> by done.
  assert (obj_get (city_options w) "owner_id" = JUndefined) as -> by done.
  assert (obj_get (city_options w) "minimum_price_per_night" = JUndefined) as -> by done.
  assert (obj_get (city_options w) "maximum_price_per_night" = JUndefined) as -> by done.
  assert (obj_get (city_options w) "minimum_rating" = JUndefined) as -> by done.
  by rewrite Hw.
Qed.

(** The city predicate of the search, on the characters. *)
Lemma eval_city_contains p w :
  str_forallb (fun c => negb (like_special c)) w = true ->
  eval_cond p (CondCity, JStr ("%" +:+ w +:+ "%")) = true ->
  exists c a b, obj_get p "city" = JStr c /\ c = a +:+ w +:+ b.
Proof.
  intros Hw. simpl. destruct (obj_get p "city") as [| | | |c]; try done.
  unfold like_str. rewrite !list_ascii_of_string_app.
  change (String.list_ascii_of_string "%") with ["%"%char]. cbn [app].
  rewrite like_contains by done. intros (a & b & Hc).
  exists c, (String.string_of_list_ascii a), (String.string_of_list_ascii b).
  split; [done|]. by apply str_infix_of_list.
Qed.

(** C32. Search by city.  With [city] set to a non-empty text [w]
    without LIKE's special characters ([%], [_], backslash), every
    property returned has a city containing [w] exactly, with the same
    case: [city LIKE '%w%'] is a case-sensitive substring test.  The
    rows are sorted by cost and at most [limit] of them. *)
Theorem getAllProperties_city (d : db) (w : string) (l : Z) :
  truthy (JStr w) = true -> str_forallb (fun c => negb (like_special c)) w = true ->
  (0 <= l <= int8_max)%Z ->
  exists rows,
    getAllProperties (city_options w) (JNum l) d = (d, [], Resolved (Ret rows)) /\
    StronglySorted cost_le rows /\ length rows <= Z.to_nat l /\
    Forall (fun x => exists c a b, obj_get x "city" = JStr c /\ c = a +:+ w +:+ b) rows.
Proof.
  intros Hw Hs Hl.
  destruct (city_options_query w (JNum l) Hw) as (Ho & Hq & Hp).
  edestruct (getAllProperties_ok d _ l [(CondCity, JStr ("%" +:+ w +:+ "%"))] None Ho Hl)
    as (rows & Hrun & Hsort & Hlen & Hrows).
  { by rewrite Hq, Hp. }
  { by rewrite Hq. }
  exists rows. do 3 (split; [done|]).
  apply Forall_forall. intros x Hx.
  destruct (Hrows x Hx) as (p & _ & _ & Hc & _ & ->).
  rewrite obj_get_insert_ne by done. cbn [forallb] in Hc. rewrite andb_true_r in Hc.
  by apply eval_city_contains.
Qed.

Lemma getAllProperties_city_witness :
  exists rows,
    getAllProperties (city_options "Van") (JNum 10) sample_db =
      (sample_db, [], Resolved (Ret rows)) /\
    StronglySorted cost_le rows /\ length rows <= Z.to_nat 10 /\
    Forall (fun x => exists c a b, obj_get x "city" = JStr c /\ c = a +:+ "Van" +:+ b) rows.
Proof. apply getAllProperties_city; (reflexivity || int_range). Defined.

(** The options object of a search of an owner's listings. *)
Definition owner_options (v : jsval) : jsobj := <["owner_id" := v]> ∅.

Lemma owner_options_query v l :
  truthy v = true ->
  owner_with_other (owner_options v) = false /\
  spec_query (owner_options v) =
    {| sq_conds := [(CondOwner, 1%N)]; sq_having := None; sq_limit := 2%N |} /\
  spec_params (owner_options v) l = [JStr (js_to_string v); l].
Proof.
  intros Hv. unfold owner_with_other, spec_query, spec_params, where_filters, having_filter.
  assert (obj_get (owner_options v) "owner_id" = v) as -> by done.
  assert (obj_get (owner_options v) "city" = JUndefined) as -> by done.
  assert (obj_get (owner_options v) "minimum_price_per_night" = JUndefined) as -> by done.
  assert (obj_get (owner_options v) "maximum_price_per_night" = JUndefined) as -> by done.
  assert (obj_get (owner_options v) "minimum_rating" = JUndefined) as -> by done.
  by rewrite Hv.
Qed.

(** C17. My Listings.  With [owner_id] alone set to a value whose text
    is an integer [z] of the range of [integer], [getAllProperties]
    resolves, without logging, to at most [limit] rows sorted by cost,
    each one of the owner's properties with its average rating.  Each
    has at least one review: the inner join with [property_reviews]
    hides an owner's listings that nobody has reviewed yet. *)
Theorem getAllProperties_owner (d : db) (v : jsval) (z l : Z) :
  truthy v = true -> parse_int (js_to_string v) = Some z ->
  (int4_min <= z <= int4_max)%Z -> (0 <= l <= int8_max)%Z ->
  exists rows,
    getAllProperties (owner_options v) (JNum l) d = (d, [], Resolved (Ret rows)) /\
    StronglySorted cost_le rows /\ length rows <= Z.to_nat l /\
    Forall (fun x => exists p, p ∈ db_properties d /\ obj_get p "owner_id" = JNum z /\
                               reviews_of d p <> [] /\
                               x = <["average_rating" := average_rating d p]> p) rows.
Proof.
  intros Hv Hz Hr Hl.
  destruct (owner_options_query v (JNum l) Hv) as (Ho & Hq & Hp).
  edestruct (getAllProperties_ok d _ l [(CondOwner, JNum z)] None Ho Hl)
    as (rows & Hrun & Hsort & Hlen & Hrows).
  { rewrite Hq, Hp. simpl. unfold cast_int. by rewrite Hz, decide_True. }
  { by rewrite Hq. }
  exists rows. do 3 (split; [done|]).
  apply Forall_forall. intros x Hx.
  destruct (Hrows x Hx) as (p & Hin & Hrev & Hc & _ & ->).
  cbn [forallb eval_cond] in Hc. rewrite andb_true_r in Hc.
  exists p. split_and!; [done | by apply bool_decide_eq_true in Hc | done | done].
Qed.

Lemma getAllProperties_owner_witness :
  truthy (JNum 1) = true /\ parse_int (js_to_string (JNum 1)) = Some 1%Z /\
  (int4_min <= 1 <= int4_max)%Z /\ (0 <= 10 <= int8_max)%Z /\
  exists rows,
    getAllProperties (owner_options (JNum 1)) (JNum 10) sample_db =
      (sample_db, [], Resolved (Ret rows)) /\
    StronglySorted cost_le rows /\ length rows <= Z.to_nat 10 /\
    Forall (fun x => exists p, p ∈ db_properties sample_db /\ obj_get p "owner_id" = JNum 1 /\
                               reviews_of sample_db p <> [] /\
                               x = <["average_rating" := average_rating sample_db p]> p) rows.
Proof.
  split; [reflexivity|]. split; [vm_compute; reflexivity|].
  split; [int_range|]. split; [int_range|].
  apply getAllProperties_owner; [reflexivity | vm_compute; reflexivity | int_range..].
Defined.

(** The city match is case-sensitive: on the sample data, a
    search for "vancouver" finds nothing although the reviewed Loft is
    in "Vancouver" (the spec asks for a case-insensitive match). *)
Example getAllProperties_city_case_sensitive :
  getAllProperties (city_options "vancouver") (JNum 10) sample_db =
    (sample_db, [], Resolved (Ret [])) /\
  exists rows, getAllProperties (city_options "Vancouver") (JNum 10) sample_db =
    (sample_db, [], Resolved (Ret rows)) /\ rows <> [].
Proof.
  split; [vm_compute; reflexivity|].
  eexists. split; [vm_compute; reflexivity | discriminate].
Qed.

(** The options object of a search by minimum rating. *)
Definition rating_options (v : jsval) : jsobj := <["minimum_rating" := v]> ∅.

Lemma rating_options_query v l :
  truthy v = true ->
  owner_with_other (rating_options v) = false /\
  spec_query (rating_options v) =
    {| sq_conds := []; sq_having := Some 1%N; sq_limit := 2%N |} /\
  spec_params (rating_options v) l = [JStr (js_to_string v); l].
Proof.
  intros Hv. unfold owner_with_other, spec_query, spec_params, where_filters, having_filter.
  assert (obj_get (rating_options v) "minimum_rating" = v) as -> by done.
  by rewrite Hv.
Qed.

(** C22. Minimum rating.  With [minimum_rating] set to a value whose
    text is the decimal [q / 10^k], every property returned has at
    least one review and the average of its ratings is at least
    [q / 10^k] (stated without division: [q * n <= sum * 10^k]). *)
Theorem getAllProperties_min_rating (d : db) (v : jsval) (q : Z) (k : nat) (l : Z) :
  truthy v = true -> parse_numeric (js_to_string v) = Some (q, k) -> (0 <= l <= int8_max)%Z ->
  exists rows,
    getAllProperties (rating_options v) (JNum l) d = (d, [], Resolved (Ret rows)) /\
    StronglySorted cost_le rows /\ length rows <= Z.to_nat l /\
    Forall (fun x => exists p, p ∈ db_properties d /\
              x = <["average_rating" := average_rating d p]> p /\
              ratings_of d p <> [] /\
              (q * Z.of_nat (length (ratings_of d p)) <=
               foldr Z.add 0%Z (ratings_of d p) * 10 ^ Z.of_nat k)%Z) rows.
Proof.
  intros Hv Hq Hl.
  destruct (rating_options_query v (JNum l) Hv) as (Ho & Hsq & Hp).
  edestruct (getAllProperties_ok d _ l [] (Some (Some (q, k))) Ho Hl)
    as (rows & Hrun & Hs & Hlen & Hrows).
  { by rewrite Hsq. }
  { rewrite Hsq, Hp. simpl. by rewrite Hq. }
  exists rows. do 3 (split; [done|]).
  apply Forall_forall. intros x Hx.
  destruct (Hrows x Hx) as (p & Hin & _ & _ & Hh & ->).
  exists p. do 2 (split; [done|]). simpl in Hh.
  destruct (ratings_of d p) as [|r rs]; [done|].
  split; [done|]. by apply Z.leb_le in Hh.
Qed.

Lemma getAllProperties_min_rating_witness :
  exists rows,
    getAllProperties (rating_options (JStr "4.5")) (JNum 10) sample_db =
      (sample_db, [], Resolved (Ret rows)) /\
    StronglySorted cost_le rows /\ length rows <= Z.to_nat 10 /\
    Forall (fun x => exists p, p ∈ db_properties sample_db /\
              x = <["average_rating" := average_rating sample_db p]> p /\
              ratings_of sample_db p <> [] /\
              (45 * Z.of_nat (length (ratings_of sample_db p)) <=
               foldr Z.add 0%Z (ratings_of sample_db p) * 10 ^ Z.of_nat 1)%Z) rows.
Proof. apply getAllProperties_min_rating; (reflexivity || int_range). Defined.

(** C23. The double [WHERE] at run time.  When [owner_id] is given
    together with [city] or a price bound, the statement has two
    [WHERE] keywords: the database rejects it, the [.catch] logs the
    error's message and [getAllProperties] resolves to [undefined],
    whatever the tables hold. *)
Theorem getAllProperties_owner_with_other (d : db) (o : jsobj) (l : jsval) :
  owner_with_other o = true ->
  getAllProperties o l d = (d, ["syntax error"], Resolved RetUndefined).
Proof. intros Ho. by rewrite getAllProperties_run, Ho. Qed.

Lemma getAllProperties_owner_with_other_witness :
  owner_with_other (<["owner_id" := JNum 1]> (<["city" := JStr "Vancouver"]> ∅)) = true /\
  getAllProperties (<["owner_id" := JNum 1]> (<["city" := JStr "Vancouver"]> ∅)) (JNum 10)
    sample_db = (sample_db, ["syntax error"], Resolved RetUndefined).
Proof.
  split; [reflexivity|]. apply getAllProperties_owner_with_other. reflexivity.
Defined.

(** ** Reservations *)

Lemma getAllReservations_stmt :
  parse_stmt (lex getAllReservations_text) = Some (SReservations 1 2) /\
  max_param (lex getAllReservations_text) = 2%N.
Proof. split; vm_compute; reflexivity. Qed.

(** C24. A guest's reservations.  [getAllReservations(g, l)] with
    [l >= 0] resolves, without logging, to at most [l] rows ordered by
    [start_date].  Each row joins one reservation [r] of guest [g] with
    its property [p], which has at least one review: the row has [r]'s
    id (as [res_id]) and dates, [p]'s average rating, and [p]'s value
    for every other column. *)
Theorem getAllReservations_guest_rows (d : db) (g l : Z) :
  (int4_min <= g <= int4_max)%Z -> (0 <= l <= int8_max)%Z ->
  exists rows,
    getAllReservations (JNum g) (JNum l) d = (d, [], Resolved (Ret rows)) /\
    StronglySorted start_date_le rows /\ length rows <= Z.to_nat l /\
    Forall (fun x => exists r p,
      r ∈ db_reservations d /\ obj_get r "guest_id" = JNum g /\
      p ∈ db_properties d /\ obj_get p "id" = obj_get r "property_id" /\
      reviews_of d p <> [] /\
      obj_get x "res_id" = obj_get r "id" /\
      obj_get x "start_date" = obj_get r "start_date" /\
      obj_get x "end_date" = obj_get r "end_date" /\
      obj_get x "average_rating" = average_rating d p /\
      forall k, k ∉ ["res_id"; "start_date"; "end_date"; "average_rating"] ->
        obj_get x k = obj_get p k) rows.
Proof.
  intros Hg Hl. destruct getAllReservations_stmt as [Hp Hm].
  unfold getAllReservations, catch_, then_, query. cbv zeta. cbn [default_param].
  rewrite pool_query_minipg, (run_statement_parsed _ _ _ _ Hp) by (by rewrite Hm).
  cbn [exec_stmt].
  rewrite (exec_reservations_ok _ _ _ _ (JNum g) (Some l)); cycle 1.
  { by apply cast_int_number. }
  { by apply cast_limit_number. }
  eexists. split; [reflexivity|].
  split; [apply apply_limit_sorted; apply _|].
  split; [apply apply_limit_length; lia|].
  apply Forall_forall. intros x Hx. cbn [rows] in Hx. apply apply_limit_elem in Hx.
  apply list_elem_of_omap in Hx as (r & Hr & Hrow).
  apply list_elem_of_filter in Hr as [Hb Hr]. apply bool_decide_unpack in Hb as [_ Hgr].
  destruct (reservation_row_some d r x Hrow) as (p & Hp' & Hid & Hrev & ->).
  exists r, p. do 5 (split; [done|]).
  do 4 (split; [by obj_simpl|]).
  intros k Hk. rewrite !obj_get_insert_ne; [done | set_solver..].
Qed.

Lemma getAllReservations_guest_rows_witness :
  (int4_min <= 2 <= int4_max)%Z /\ (0 <= 10 <= int8_max)%Z /\
  exists rows,
    getAllReservations (JNum 2) (JNum 10) sample_db = (sample_db, [], Resolved (Ret rows)) /\
    StronglySorted start_date_le rows /\ length rows <= Z.to_nat 10 /\
    Forall (fun x => exists r p,
      r ∈ db_reservations sample_db /\ obj_get r "guest_id" = JNum 2 /\
      p ∈ db_properties sample_db /\ obj_get p "id" = obj_get r "property_id" /\
      reviews_of sample_db p <> [] /\
      obj_get x "res_id" = obj_get r "id" /\
      obj_get x "start_date" = obj_get r "start_date" /\
      obj_get x "end_date" = obj_get r "end_date" /\
      obj_get x "average_rating" = average_rating sample_db p /\
      forall k, k ∉ ["res_id"; "start_date"; "end_date"; "average_rating"] ->
        obj_get x k = obj_get p k) rows.
Proof. split; [int_range|]. split; [int_range|]. apply getAllReservations_guest_rows; int_range. Defined.

(** ** Listing a property *)

Lemma addProperty_stmt :
  parse_stmt (lex addProperty_text) =
    Some (SInsert "properties" (zip propertyValues (N.of_nat <$> seq 1 14))) /\
  max_param (lex addProperty_text) = 14%N.
Proof. split; vm_compute; reflexivity. Qed.

(** A property form: each column of [properties] but [id] holds a value
    of the column's type. *)
Definition property_form_ok (property : jsobj) : Prop :=
  Forall (fun '(c, t) => c = "id" \/ typed_value t (obj_get property c)) properties_cols.

Lemma assign_property_form property :
  property_form_ok property ->
  exists row0,
    assign_row properties_cols (zip propertyValues (N.of_nat <$> seq 1 14))
      (addProperty_values property) (null_row properties_cols) = inr row0 /\
    forall k, obj_get row0 k =
      if decide (k ∈ propertyValues) then obj_get property k
      else obj_get (null_row properties_cols) k.
Proof.
  unfold property_form_ok, properties_cols. intros Hf.
  repeat (apply Forall_cons in Hf as [? Hf]).
  repeat match goal with H : ?c = "id" \/ _ |- _ => destruct H as [?|H]; [discriminate|] end.
  edestruct (assign_row_ok properties_cols (zip propertyValues (N.of_nat <$> seq 1 14))
               (addProperty_values property) (null_row properties_cols)
               (obj_get property)) as (row0 & Hr & Hk).
  { change (zip propertyValues (N.of_nat <$> seq 1 14)) with
      (zip propertyValues [1;2;3;4;5;6;7;8;9;10;11;12;13;14]%N). cbn [zip zip_with propertyValues].
    repeat apply List.Forall_cons; try apply List.Forall_nil;
      cbv beta iota; (eexists _, _; split; [reflexivity|]);
      apply cast_typed; assumption. }
  exists row0. split; [done|]. exact Hk.
Qed.

Lemma id_not_property_value : "id" ∉ propertyValues.
Proof. apply (bool_decide_unpack _). by vm_compute. Qed.

(** C25. Listing a property.  [addProperty] of a form holding, for each
    of the fourteen columns, a value of the column's type, whose owner
    is a user, while the id sequence is within the range of [integer]:
    the property is appended to [properties] with the next
    id of the sequence, and [addProperty] resolves to that row, which
    reproduces the fourteen values. *)
Theorem addProperty_returns_row (d : db) (property : jsobj) :
  (db_property_seq d <= int4_max)%Z -> property_form_ok property ->
  (exists u, u ∈ db_users d /\ obj_get u "id" = obj_get property "owner_id") ->
  exists row,
    addProperty property d =
      ({| db_users := db_users d; db_properties := db_properties d ++ [row];
          db_reservations := db_reservations d; db_reviews := db_reviews d;
          db_user_seq := db_user_seq d; db_property_seq := (db_property_seq d + 1)%Z |},
       [], Resolved (Ret row)) /\
    obj_get row "id" = JNum (db_property_seq d) /\
    forall c, c ∈ propertyValues -> obj_get row c = obj_get property c.
Proof.
  intros Hs Hf Hu. destruct addProperty_stmt as [Hp Hm].
  destruct (assign_property_form property Hf) as (row0 & Hr & Hk).
  unfold addProperty, catch_, then_, query.
  rewrite pool_query_minipg, (run_statement_parsed _ _ _ _ Hp) by (by rewrite Hm).
  cbn [exec_stmt].
  unfold exec_insert. rewrite decide_False, decide_True by done. rewrite Hr. cbv zeta.
  rewrite decide_False by apply addProperty_asg_no_id. rewrite decide_False by lia.
  rewrite owner_missing_false; cycle 1.
  { rewrite obj_get_insert_ne by done. rewrite Hk, decide_True; [exact Hu|].
    apply (bool_decide_unpack _). by vm_compute. }
  eexists. split; [reflexivity|]. split; [by obj_simpl|].
  intros c Hc. rewrite obj_get_insert_ne.
  - by rewrite Hk, decide_True.
  - intros <-. by apply id_not_property_value.
Qed.

(** A complete listing form, owned by user 1 of [sample_db]. *)
Definition sample_property : jsobj :=
  list_to_map [("owner_id", JNum 1); ("title", JStr "Cottage"); ("description", JStr "By the lake");
               ("thumbnail_photo_url", JStr "t.jpg"); ("cover_photo_url", JStr "c.jpg");
               ("cost_per_night", JNum 12000); ("street", JStr "1 Lake Rd"); ("city", JStr "Muskoka");
               ("province", JStr "ON"); ("post_code", JStr "P1H"); ("country", JStr "Canada");
               ("parking_spaces", JNum 2); ("number_of_bathrooms", JNum 1);
               ("number_of_bedrooms", JNum 3)].

Lemma addProperty_returns_row_witness :
  (db_property_seq sample_db <= int4_max)%Z /\ property_form_ok sample_property /\
  (exists u, u ∈ db_users sample_db /\ obj_get u "id" = obj_get sample_property "owner_id") /\
  exists row,
    addProperty sample_property sample_db =
      ({| db_users := db_users sample_db; db_properties := db_properties sample_db ++ [row];
          db_reservations := db_reservations sample_db; db_reviews := db_reviews sample_db;
          db_user_seq := db_user_seq sample_db;
          db_property_seq := (db_property_seq sample_db + 1)%Z |},
       [], Resolved (Ret row)) /\
    obj_get row "id" = JNum (db_property_seq sample_db) /\
    forall c, c ∈ propertyValues -> obj_get row c = obj_get sample_property c.
Proof.
  assert (Hf : property_form_ok sample_property).
  { repeat apply List.Forall_cons; try apply List.Forall_nil; cbv beta iota;
      first [ left; reflexivity | right; eexists; reflexivity
            | right; eexists; split; [reflexivity | int_range] ]. }
  assert (Hu : exists u, u ∈ db_users sample_db /\
                 obj_get u "id" = obj_get sample_property "owner_id").
  { eexists. split; [left | reflexivity]. }
  assert (Hs : (db_property_seq sample_db <= int4_max)%Z) by (simpl; int_range).
  split; [exact Hs|]. split; [exact Hf|]. split; [exact Hu|].
  apply addProperty_returns_row; [exact Hs | exact Hf | exact Hu].
Defined.

(** ** A duplicate sign-up *)

(** C26. Signing up with an e-mail some user already has: the unique
    constraint rejects the INSERT, [addUser] logs the error's message
    and resolves to [null], and the users table is unchanged; only the
    id sequence has advanced, as PostgreSQL's [serial] does. *)
Theorem addUser_duplicate_email (d : db) (name password email : string) :
  (db_user_seq d <= int4_max)%Z ->
  (exists u, u ∈ db_users d /\ obj_get u "email" = JStr email) ->
  addUser (signup name password email) d =
  ({| db_users := db_users d; db_properties := db_properties d;
      db_reservations := db_reservations d; db_reviews := db_reviews d;
      db_user_seq := (db_user_seq d + 1)%Z; db_property_seq := db_property_seq d |},
   ["duplicate key value violates unique constraint users_email_key"], Resolved RetNull).
Proof.
  intros Hs Hu. rewrite addUser_signup_run, decide_False by lia.
  by rewrite (email_taken_dup d _ email Hu).
Qed.

Lemma addUser_duplicate_email_witness :
  (db_user_seq sample_db <= int4_max)%Z /\
  (exists u, u ∈ db_users sample_db /\ obj_get u "email" = JStr "ann@x.io") /\
  addUser (signup "Ann B" "pw9" "ann@x.io") sample_db =
  ({| db_users := db_users sample_db; db_properties := db_properties sample_db;
      db_reservations := db_reservations sample_db; db_reviews := db_reviews sample_db;
      db_user_seq := (db_user_seq sample_db + 1)%Z;
      db_property_seq := db_property_seq sample_db |},
   ["duplicate key value violates unique constraint users_email_key"], Resolved RetNull).
Proof.
  assert (Hu : exists u, u ∈ db_users sample_db /\ obj_get u "email" = JStr "ann@x.io").
  { eexists. split; [left | reflexivity]. }
  assert (Hs : (db_user_seq sample_db <= int4_max)%Z) by (simpl; int_range).
  split; [exact Hs|]. split; [exact Hu|]. apply addUser_duplicate_email; [exact Hs | exact Hu].
Defined.

(** ** The bounds of [integer] *)

(** The three columns of [users] that [addUser] fills are text, so the
    assignment never fails, whatever the user object holds. *)
Lemma addUser_assign u :
  exists row0, assign_row users_cols [("name", 1%N); ("password", 2%N); ("email", 3%N)]
                 (addUser_values u) (null_row users_cols) = inr row0.
Proof.
  unfold addUser_values, param_at, binding. simpl.
  repeat case_match; simplify_eq;
    try (exfalso; eapply cast_text_never_fails; eassumption); eexists; reflexivity.
Qed.

(** C35. The user id sequence exhausted.  Once [users_id_seq] has passed
    2147483647, the largest [integer], every [addUser] fails, whatever
    the user: [nextval] raises, the [.catch] logs its message and
    [addUser] resolves to [null]; the tables are unchanged. *)
Theorem addUser_sequence_exhausted (d : db) (user : jsobj) :
  (int4_max < db_user_seq d)%Z ->
  addUser user d = (d, [seq_exhausted "users_id_seq"], Resolved RetNull).
Proof.
  intros Hs. destruct addUser_stmt as [Hp Hm]. destruct (addUser_assign user) as [row0 Hr].
  unfold addUser, catch_, then_, query. rewrite pool_query_minipg.
  rewrite (run_statement_parsed _ _ _ _ Hp) by (by rewrite Hm). cbn [exec_stmt].
  unfold exec_insert. rewrite decide_True by done. rewrite Hr. cbv zeta.
  rewrite decide_False by apply addUser_asg_no_id. by rewrite decide_True by done.
Qed.

(** A database whose user ids have reached the largest [integer]. *)
Definition full_db : db :=
  {| db_users := db_users sample_db; db_properties := db_properties sample_db;
     db_reservations := db_reservations sample_db; db_reviews := db_reviews sample_db;
     db_user_seq := (int4_max + 1)%Z; db_property_seq := db_property_seq sample_db |}.

Lemma addUser_sequence_exhausted_witness :
  (int4_max < db_user_seq full_db)%Z /\
  addUser (signup "Eve" "pw3" "eve@x.io") full_db =
    (full_db, [seq_exhausted "users_id_seq"], Resolved RetNull).
Proof.
  assert (Hs : (int4_max < db_user_seq full_db)%Z) by (simpl; lia).
  split; [exact Hs|]. apply addUser_sequence_exhausted. exact Hs.
Defined.

(** C36. An id out of the range of [integer].  [getUserWithId] of a
    number outside [-2147483648 .. 2147483647] is refused by the cast
    of [$1]: it logs the server's message and resolves to [null],
    exactly as for a user that does not exist. *)
Theorem getUserWithId_out_of_range (d : db) (z : Z) :
  ~ (int4_min <= z <= int4_max)%Z ->
  getUserWithId (JNum z) d =
    (d, ["value " +:+ dq +:+ js_number_to_string z +:+ dq +:+ " is out of range for type integer"],
     Resolved RetNull).
Proof. intros Hz. by rewrite getUserWithId_cast_run, cast_int_out_of_range. Qed.

Lemma getUserWithId_out_of_range_witness :
  ~ (int4_min <= 3000000000 <= int4_max)%Z /\
  getUserWithId (JNum 3000000000) sample_db =
    (sample_db, ["value " +:+ dq +:+ "3000000000" +:+ dq +:+ " is out of range for type integer"],
     Resolved RetNull).
Proof.
  assert (Hz : ~ (int4_min <= 3000000000 <= int4_max)%Z) by int_range.
  split; [exact Hz|]. apply getUserWithId_out_of_range. exact Hz.
Defined.
