(* ===== verification/DbInvariant.v ===== *)
(** * The integrity of the database under the code's calls

    The schema (spec sections 3 and 6) makes the database keep four
    facts.  User and property ids come from [serial] sequences: each row
    has an integer id below its sequence's next value, so ids are
    distinct.  E-mails are unique.  Each property's owner is a user.
    [db_wf] states them of a state of the [MiniPg] model.  This file
    proves that every statement the model executes keeps them, and so
    does every call of the six exported functions of [database.js], and
    every sequence of calls.  [Concurrency] shows that every
    interleaving of concurrent calls runs as such a sequence.

    It also proves that the four read functions never change the
    database, that the two writers only append rows, and that every
    call of a sequence is answered. *)

From S2P Require Import Prelude JsValue Promise SqlLex SqlParse PropertySearch.
From S2P Require Import Users Reservations AddProperty Api MiniPg MiniPgExec EndToEnd.

(** ** The invariant *)

Definition ids_below (seq : Z) (rows : list jsobj) : Prop :=
  Forall (fun r => exists i, obj_get r "id" = JNum i /\ (i < seq)%Z) rows.

(** The non-NULL e-mails of the users table. *)
Definition emails (d : db) : list jsval :=
  filter (fun e => e <> JNull) ((fun u => obj_get u "email") <$> db_users d).

Definition owners_exist (d : db) : Prop :=
  Forall (fun p => obj_get p "owner_id" = JNull \/
                   exists u, u ∈ db_users d /\ obj_get u "id" = obj_get p "owner_id")
    (db_properties d).

Record db_wf (d : db) : Prop := {
  wf_user_ids : ids_below (db_user_seq d) (db_users d);
  wf_user_ids_nodup : NoDup ((fun u => obj_get u "id") <$> db_users d);
  wf_property_ids : ids_below (db_property_seq d) (db_properties d);
  wf_property_ids_nodup : NoDup ((fun p => obj_get p "id") <$> db_properties d);
  wf_emails : NoDup (emails d);
  wf_owners : owners_exist d
}.

(** How a statement can change the database: not at all, by drawing an
    id that is then not used, or by appending a row that passed the
    constraint checks. *)
Inductive db_change (d : db) : db -> Prop :=
| change_none : db_change d d
| change_user_seq :
    db_change d {| db_users := db_users d; db_properties := db_properties d;
                   db_reservations := db_reservations d; db_reviews := db_reviews d;
                   db_user_seq := (db_user_seq d + 1)%Z; db_property_seq := db_property_seq d |}
| change_user_add row0 :
    email_taken d (<["id" := JNum (db_user_seq d)]> row0) = false ->
    db_change d {| db_users := db_users d ++ [<["id" := JNum (db_user_seq d)]> row0];
                   db_properties := db_properties d;
                   db_reservations := db_reservations d; db_reviews := db_reviews d;
                   db_user_seq := (db_user_seq d + 1)%Z; db_property_seq := db_property_seq d |}
| change_property_seq :
    db_change d {| db_users := db_users d; db_properties := db_properties d;
                   db_reservations := db_reservations d; db_reviews := db_reviews d;
                   db_user_seq := db_user_seq d; db_property_seq := (db_property_seq d + 1)%Z |}
| change_property_add row0 :
    owner_missing d (<["id" := JNum (db_property_seq d)]> row0) = false ->
    db_change d {| db_users := db_users d;
                   db_properties := db_properties d ++ [<["id" := JNum (db_property_seq d)]> row0];
                   db_reservations := db_reservations d; db_reviews := db_reviews d;
                   db_user_seq := db_user_seq d; db_property_seq := (db_property_seq d + 1)%Z |}.

(** A sequence of calls, each run on the state the previous one left. *)
Fixpoint run_calls (cs : list api_call) (d : db) : db * list (list string * settled api_result) :=
  match cs with
  | [] => (d, [])
  | c :: cs' =>
      let '(d1, log, r) := run_call c d in
      let '(d2, outs) := run_calls cs' d1 in
      (d2, (log, r) :: outs)
  end.

(** [d'] is [d] with rows appended and the sequences advanced: no row
    is changed or removed. *)
Definition extends (d d' : db) : Prop :=
  (exists us, db_users d' = db_users d ++ us) /\
  (exists ps, db_properties d' = db_properties d ++ ps) /\
  db_reservations d' = db_reservations d /\ db_reviews d' = db_reviews d /\
  (db_user_seq d <= db_user_seq d')%Z /\ (db_property_seq d <= db_property_seq d')%Z.

(** The calls that send a SELECT. *)
Definition is_read (c : api_call) : bool :=
  match c with
  | CallAddUser _ | CallAddProperty _ => false
  | _ => true
  end.

(** ** Every statement is one of the changes *)

(** An INSERT that does not name the [id] column draws its id. *)
Lemma exec_insert_change tbl asg vals d :
  "id" ∉ asg.*1 -> db_change d (exec_insert tbl asg vals d).1.
Proof.
  intros Hid. unfold exec_insert, fail. case_decide; [|case_decide]; cbv zeta.
  - destruct (assign_row _ _ _ _) as [msg|row0]; [constructor|].
    rewrite decide_False by done. case_decide; [apply change_none|].
    destruct (email_taken _ _) eqn:E; [apply change_user_seq | by apply change_user_add].
  - destruct (assign_row _ _ _ _) as [msg|row0]; [constructor|].
    rewrite decide_False by done. case_decide; [apply change_none|].
    destruct (owner_missing _ _) eqn:E; [apply change_property_seq | by apply change_property_add].
  - constructor.
Qed.

(** The statement texts whose INSERTs, if any, leave [id] to its
    sequence. *)
Definition draws_ids (text : string) : Prop :=
  forall t a, parse_stmt (lex text) = Some (SInsert t a) -> "id" ∉ a.*1.

Lemma run_statement_change text vals d :
  draws_ids text -> db_change d (run_statement text vals d).1.
Proof.
  intros Hd. unfold run_statement, fail. destruct (parse_stmt _) as [st|] eqn:Hp; [|apply change_none].
  case_decide; [|apply change_none].
  destruct st as [k p|t asg|g l|q]; simpl.
  - unfold exec_select_user, fail. repeat case_decide; try destruct (cast _ _); apply change_none.
  - by apply exec_insert_change, (Hd t).
  - unfold exec_reservations, fail. repeat case_match; apply change_none.
  - unfold exec_search, fail. repeat case_match; apply change_none.
Qed.

(** ** Each change keeps the invariant *)

Lemma ids_below_mono s s' rows : (s <= s')%Z -> ids_below s rows -> ids_below s' rows.
Proof.
  intros Hs Hb. eapply Forall_impl; [exact Hb|]. intros r (i & Hi & Hlt).
  exists i. split; [done|lia].
Qed.

(** The next value of a sequence is not yet an id. *)
Lemma ids_below_fresh s rows :
  ids_below s rows -> JNum s ∉ (fun r => obj_get r "id") <$> rows.
Proof.
  intros Hb (r & Hr & Hin)%list_elem_of_fmap.
  unfold ids_below in Hb. rewrite Forall_forall in Hb. destruct (Hb r Hin) as (i & Hi & Hlt).
  rewrite <- Hr in Hi. injection Hi. lia.
Qed.

Lemma ids_snoc s rows row :
  ids_below s rows -> NoDup ((fun r => obj_get r "id") <$> rows) ->
  obj_get row "id" = JNum s ->
  ids_below (s + 1) (rows ++ [row]) /\ NoDup ((fun r => obj_get r "id") <$> rows ++ [row]).
Proof.
  intros Hb Hn Hid. split.
  - apply Forall_app. split; [by eapply ids_below_mono; [|exact Hb]; lia|].
    apply Forall_singleton. exists s. split; [done|lia].
  - rewrite fmap_app. apply NoDup_app. split; [done|]. split; [|apply NoDup_singleton].
    intros x Hx ->%list_elem_of_singleton. rewrite Hid in Hx.
    by apply (ids_below_fresh s rows).
Qed.

Lemma emails_snoc d row :
  email_taken d row = false -> NoDup (emails d) ->
  NoDup (filter (fun e => e <> JNull) ((fun u => obj_get u "email") <$> db_users d ++ [row])).
Proof.
  unfold email_taken, emails. intros Ht Hn.
  rewrite fmap_app, filter_app. apply NoDup_app. split; [done|].
  split; [|apply NoDup_filter, NoDup_singleton].
  intros x Hx (Hy & ->%list_elem_of_singleton)%list_elem_of_filter.
  apply list_elem_of_filter in Hx as [_ (u & Hu & Hin)%list_elem_of_fmap].
  rewrite bool_decide_eq_true_2 in Ht by done. simpl in Ht.
  apply not_true_iff_false in Ht. apply Ht, existsb_exists. exists u.
  split; [by apply list_elem_of_In | by apply bool_decide_eq_true].
Qed.

Lemma owners_exist_users_app d us :
  owners_exist d ->
  Forall (fun p => obj_get p "owner_id" = JNull \/
                   exists u, u ∈ db_users d ++ us /\ obj_get u "id" = obj_get p "owner_id")
    (db_properties d).
Proof.
  intros Ho. eapply Forall_impl; [exact Ho|]. intros p [Hn | (u & Hu & Hid)]; [by left|].
  right. exists u. split; [set_solver|done].
Qed.

Lemma owner_present d row :
  owner_missing d row = false ->
  obj_get row "owner_id" = JNull \/
  exists u, u ∈ db_users d /\ obj_get u "id" = obj_get row "owner_id".
Proof.
  unfold owner_missing. intros Hm.
  destruct (decide (obj_get row "owner_id" = JNull)) as [|Hne]; [by left|right].
  rewrite bool_decide_eq_true_2 in Hm by done. simpl in Hm.
  apply negb_false_iff, existsb_exists in Hm as (u & Hu & Hb).
  exists u. split; [by apply list_elem_of_In | by apply bool_decide_eq_true in Hb].
Qed.

Lemma db_change_wf d d' : db_change d d' -> db_wf d -> db_wf d'.
Proof.
  intros [| |row0 Ht| |row0 Hm] [Hu Hun Hp Hpn He Ho]; try done.
  - split; simpl; try done. by eapply ids_below_mono; [|exact Hu]; lia.
  - destruct (ids_snoc (db_user_seq d) (db_users d) (<["id" := JNum (db_user_seq d)]> row0))
      as [Hu' Hun']; [done..| apply obj_get_insert_eq |].
    split; simpl; try done.
    + by apply emails_snoc.
    + unfold owners_exist. cbn [db_users db_properties]. by apply owners_exist_users_app.
  - split; simpl; try done. by eapply ids_below_mono; [|exact Hp]; lia.
  - destruct (ids_snoc (db_property_seq d) (db_properties d)
                (<["id" := JNum (db_property_seq d)]> row0))
      as [Hp' Hpn']; [done..| apply obj_get_insert_eq |].
    split; simpl; try done.
    apply Forall_app. split; [done|]. apply Forall_singleton. by apply owner_present.
Qed.

(** ** The calls *)

(** The six statements of the code draw their ids: the two INSERTs
    name every column but [id], the other four are no INSERT. *)
Lemma statement_draws_ids c : draws_ids (statement_of c).1.
Proof.
  intros t a. destruct c as [e|i|u|g l|o l|p]; cbn [statement_of fst]; intros Hp.
  - vm_compute in Hp. discriminate.
  - vm_compute in Hp. discriminate.
  - rewrite (proj1 addUser_stmt) in Hp. injection Hp as <- <-. apply addUser_asg_no_id.
  - vm_compute in Hp. discriminate.
  - rewrite build_query_parse_stmt in Hp. by destruct (owner_with_other o).
  - rewrite (proj1 addProperty_stmt) in Hp. injection Hp as <- <-. apply addProperty_asg_no_id.
Qed.

Lemma run_call_change c d : db_change d (run_call c d).1.1.
Proof. rewrite run_call_state. apply run_statement_change, statement_draws_ids. Qed.

(** Induction over a sequence of calls, for any property of the
    database that each change keeps. *)
Lemma run_calls_ind (P : db -> db -> Prop) :
  (forall d, P d d) -> (forall d1 d2 d3, P d1 d2 -> db_change d2 d3 -> P d1 d3) ->
  forall cs d, P d (run_calls cs d).1.
Proof.
  intros Hrefl Hstep cs. cut (forall d0 d, P d0 d -> P d0 (run_calls cs d).1).
  { intros H d. apply H, Hrefl. }
  induction cs as [|c cs IH]; intros d0 d Hd; [done|]. simpl.
  pose proof (run_call_change c d) as Hc.
  destruct (run_call c d) as [[d1 log] r]. simpl in Hc.
  destruct (run_calls cs d1) as [d2 outs] eqn:E.
  change d2 with (d2, outs).1. rewrite <- E.
  apply IH. by eapply Hstep.
Qed.

(** One answer per call. *)
Lemma run_calls_length cs d : length (run_calls cs d).2 = length cs.
Proof.
  revert d. induction cs as [|c cs IH]; intros d; [done|]. simpl.
  destruct (run_call c d) as [[d1 log] r]. specialize (IH d1).
  destruct (run_calls cs d1) as [d2 outs]. simpl in *. by rewrite IH.
Qed.

(** A sequence with one more call at its end. *)
Lemma run_calls_snoc cs c d :
  run_calls (cs ++ [c]) d =
  let '(d1, outs) := run_calls cs d in
  let '(d2, log, r) := run_call c d1 in (d2, outs ++ [(log, r)]).
Proof.
  revert d. induction cs as [|c' cs IH]; intros d; simpl.
  - by destruct (run_call c d) as [[d2 log] r].
  - destruct (run_call c' d) as [[d1 log1] r1]. rewrite IH.
    destruct (run_calls cs d1) as [d2 outs]. by destruct (run_call c d2) as [[d3 log] r].
Qed.

#[export] Instance extends_refl : Reflexive extends.
Proof. intros d. repeat split; try lia; by exists []; rewrite app_nil_r. Qed.

Lemma db_change_extends d1 d2 d3 : extends d1 d2 -> db_change d2 d3 -> extends d1 d3.
Proof.
  intros ((us & Hu) & (ps & Hp) & Hr & Hv & Hs1 & Hs2) Hc.
  destruct Hc; unfold extends; simpl; split_and!; try done; try lia;
    eexists; rewrite ?Hu, ?Hp, <- ?app_assoc; reflexivity.
Qed.

(** A statement that is not an INSERT leaves the database as it was. *)
Lemma run_statement_read text vals d :
  (forall t a, parse_stmt (lex text) <> Some (SInsert t a)) ->
  (run_statement text vals d).1 = d.
Proof.
  intros Hn. unfold run_statement, fail.
  destruct (parse_stmt _) as [st|]; [|done]. case_decide; [|done].
  destruct st as [k p|t a|g l|q]; [| by destruct (Hn t a) | |]; simpl;
    unfold exec_select_user, exec_reservations, exec_search, fail; by repeat case_match.
Qed.

(** ** Theorems *)

(** Integrity.  From a database whose ids are below their
    sequences and distinct, whose e-mails are unique and whose
    properties' owners are users, any sequence of calls of the six
    exported functions, with any arguments, leaves a database with the
    same four properties.  [Concurrency.conc_wf] extends this to every
    interleaving of concurrent calls. *)
Theorem run_calls_wf (cs : list api_call) (d : db) :
  db_wf d -> db_wf (run_calls cs d).1.
Proof.
  revert cs d. apply (run_calls_ind (fun d d' => db_wf d -> db_wf d')); [done|].
  intros d1 d2 d3 H12 H23 Hd1. eapply db_change_wf; [exact H23|]. by apply H12.
Qed.

(** C28. Reads are reads.  [getUserWithEmail], [getUserWithId],
    [getAllReservations] and [getAllProperties] never change the
    database, whatever their arguments, on success and on error. *)
Theorem read_calls_leave_db (c : api_call) (d : db) :
  is_read c = true -> (run_call c d).1.1 = d.
Proof.
  intros Hr. rewrite run_call_state. apply run_statement_read.
  intros t a. destruct c as [e|i|u|g l|o l|p]; try discriminate; cbn [statement_of fst].
  (* the fixed statements are SELECTs by computation; the search: *)
  rewrite build_query_parse_stmt. by destruct (owner_with_other o).
Qed.

(** Append only.  After any sequence of calls, the users and
    properties tables are the old ones with rows appended, the
    reservations and reviews are unchanged, and the id sequences have
    not gone back: no call modifies or deletes a row. *)
Theorem run_calls_extends (cs : list api_call) (d : db) : extends d (run_calls cs d).1.
Proof. apply run_calls_ind; [done | apply db_change_extends]. Qed.

Lemma sample_db_wf : db_wf sample_db.
Proof.
  split.
  - repeat apply List.Forall_cons; try apply List.Forall_nil;
      (eexists; split; [reflexivity | simpl; lia]).
  - apply (bool_decide_unpack _). by vm_compute.
  - repeat apply List.Forall_cons; try apply List.Forall_nil;
      (eexists; split; [reflexivity | simpl; lia]).
  - apply (bool_decide_unpack _). by vm_compute.
  - apply (bool_decide_unpack _). by vm_compute.
  - repeat apply List.Forall_cons; try apply List.Forall_nil; right;
      first [ eexists; split; [apply list_elem_of_here | reflexivity]
            | eexists; split; [apply list_elem_of_further, list_elem_of_here | reflexivity] ].
Qed.

(** [ids_below] checked row by row. *)
Lemma ids_below_forallb s rows :
  ids_below s rows ->
  forallb (fun r => match obj_get r "id" with JNum i => bool_decide (i < s)%Z | _ => false end) rows
  = true.
Proof.
  intros H. apply forallb_forall. intros r Hr. unfold ids_below in H. rewrite Forall_forall in H.
  destruct (H r) as (i & -> & Hi); [by apply list_elem_of_In|]. by apply bool_decide_eq_true.
Qed.

(** The invariant is the code's doing: an INSERT that names [id],
    which PostgreSQL accepts for a [serial] column, stores an id the
    sequence will draw later, and the database no longer satisfies
    [db_wf].  Neither statement of the code does so
    ([statement_draws_ids]). *)
Definition insert_with_id_text : string :=
  "INSERT INTO users(id, name, password, email) VALUES($1, $2, $3, $4) RETURNING *;".

Example explicit_id_breaks_wf :
  db_wf sample_db /\
  ~ db_wf (run_statement insert_with_id_text [JNum 7; JStr "Zed"; JStr "pw"; JStr "zed@x.io"]
             sample_db).1.
Proof.
  split; [exact sample_db_wf|]. intros [Hu _ _ _ _ _].
  apply ids_below_forallb in Hu. vm_compute in Hu. discriminate.
Qed.

(** A session: Eve signs up, lists a property, and searches. *)
Definition sample_session : list api_call :=
  [CallAddUser (signup "Eve" "pw3" "eve@x.io");
   CallAddProperty (<["owner_id" := JNum 3]> sample_property);
   CallGetUserWithEmail (JStr "eve@x.io");
   CallAddUser (signup "Eve2" "pw4" "eve@x.io");
   CallGetAllProperties (<["owner_id" := JNum 3]> ∅) JUndefined].

Lemma run_calls_wf_witness :
  db_wf sample_db /\ db_wf (run_calls sample_session sample_db).1.
Proof. split; [exact sample_db_wf|]. apply run_calls_wf. exact sample_db_wf. Defined.

Lemma read_calls_leave_db_witness :
  is_read (CallGetAllProperties (<["city" := JStr "Vancouver"]> ∅) JUndefined) = true /\
  (run_call (CallGetAllProperties (<["city" := JStr "Vancouver"]> ∅) JUndefined) sample_db).1.1
    = sample_db.
Proof. split; [reflexivity|]. apply read_calls_leave_db. reflexivity. Defined.

(** No row has the next id of the sequence yet. *)
Lemma ids_below_filter_nil s rows :
  ids_below s rows ->
  filter (fun u => bool_decide (JNum s <> JNull /\ obj_get u "id" = JNum s)) rows = [].
Proof.
  intros Hb. apply filter_Forall_nil. eapply Forall_impl; [exact Hb|].
  intros r (i & Hi & Hlt) Hk. apply bool_decide_unpack in Hk as [_ Hr].
  rewrite Hr in Hi. injection Hi. lia.
Qed.

(** C30. Sign-up then lookup by id.  In a database satisfying the
    invariant, whose id sequence is within the range of [integer],
    [addUser] of a fresh e-mail resolves to the new row,
    whose id is the sequence's next value, and [getUserWithId] of that
    id then resolves to the same row: no older user has that id. *)
Theorem addUser_then_getUserWithId (d : db) (name password email : string) :
  db_wf d -> (int4_min <= db_user_seq d <= int4_max)%Z -> Forall (fun u => obj_get u "email" <> JStr email) (db_users d) ->
  let '(d1, _, r) := addUser (signup name password email) d in
  r = Resolved (Ret (signup_row d name password email)) /\
  getUserWithId (JNum (db_user_seq d)) d1 =
    (d1, [], Resolved (Ret (signup_row d name password email))).
Proof.
  intros Hd Hs Hf. rewrite addUser_fresh_run by (done || lia). split; [done|].
  rewrite getUserWithId_run by done. cbn [db_users].
  rewrite filter_app, ids_below_filter_nil by (apply wf_user_ids, Hd).
  by rewrite filter_cons_True by (apply bool_decide_pack; split; [done | reflexivity]).
Qed.

Lemma addUser_then_getUserWithId_witness :
  db_wf sample_db /\ (int4_min <= db_user_seq sample_db <= int4_max)%Z /\
  Forall (fun u => obj_get u "email" <> JStr "eve@x.io") (db_users sample_db) /\
  let '(d1, _, r) := addUser (signup "Eve" "pw3" "eve@x.io") sample_db in
  r = Resolved (Ret (signup_row sample_db "Eve" "pw3" "eve@x.io")) /\
  getUserWithId (JNum (db_user_seq sample_db)) d1 =
    (d1, [], Resolved (Ret (signup_row sample_db "Eve" "pw3" "eve@x.io"))).
Proof.
  assert (Hf : Forall (fun u => obj_get u "email" <> JStr "eve@x.io") (db_users sample_db))
    by (repeat constructor; vm_compute; congruence).
  assert (Hs : (int4_min <= db_user_seq sample_db <= int4_max)%Z) by (simpl; int_range).
  split; [exact sample_db_wf|]. split; [exact Hs|]. split; [exact Hf|].
  apply addUser_then_getUserWithId; [exact sample_db_wf | exact Hs | exact Hf].
Defined.

