(* ===== verification/Concurrency.v ===== *)
(** * Concurrent calls

    Spec section 5: the pool has several queries in flight, callers
    may issue calls concurrently and get the results in any completion
    order, and the module adds no locking or ordering.  In Node.js a
    call of an exported function runs synchronously up to
    [pool.query(text, values)], which sends its one statement.  The
    server runs each statement on one of the pool's connections, as a
    transaction of its own.  The [.then] and [.catch] callbacks of a
    call run when its response arrives, in the order responses arrive.

    [conc] is the state of that system: the database, the calls whose
    statement is in flight, the responses whose callbacks have not run
    yet, and the promises settled so far, in the order they settled.
    [c_trace] is ghost state: the order in which the server ran the
    statements.  [issue] is a new call.  [cstep] runs the statement of
    any call in flight, or the callbacks of any call answered: the
    choice of which is the interleaving.

    Theorems: every reachable state is the sequential run
    [DbInvariant.run_calls] of the statements in the server's order, and
    each settled promise carries the answer of that sequential run
    (serializability).  The integrity invariant of [DbInvariant] holds
    under every interleaving, and the tables are only appended to.  As
    a check of the model itself, without new calls every run of
    [cstep] terminates, and it stops only once every call issued has
    been answered exactly once. *)

From S2P Require Import Prelude JsValue Promise SqlLex SqlParse PropertySearch.
From S2P Require Import Users Reservations AddProperty Api MiniPg MiniPgExec EndToEnd DbInvariant.
From Stdlib Require Import Wellfounded.

(** ** The state and the steps *)

Record conc := {
  c_db : db;
  c_next : nat;
  c_sent : list (nat * api_call);
  c_recv : list (nat * api_call * settled qresult);
  c_answers : list (nat * (list string * settled api_result));
  c_trace : list (nat * api_call)
}.

(** The process starts with no call made. *)
Definition conc_init (d : db) : conc :=
  {| c_db := d; c_next := 0; c_sent := []; c_recv := []; c_answers := []; c_trace := [] |}.

(** A call of an exported function: the code runs synchronously up to
    [pool.query], which sends the statement at once.  The caller holds
    the promise numbered [c_next]. *)
Definition issue (c : api_call) (s : conc) : conc :=
  {| c_db := c_db s; c_next := S (c_next s); c_sent := c_sent s ++ [(c_next s, c)];
     c_recv := c_recv s; c_answers := c_answers s; c_trace := c_trace s |}.

(** The server runs the statement of call [i], in flight between [l1]
    and [l2]; its response waits for the callbacks. *)
Definition exec_call (l1 l2 : list (nat * api_call)) (i : nat) (c : api_call) (s : conc) : conc :=
  let '(d', r) := pool_query (statement_of c).1 (statement_of c).2 (c_db s) in
  {| c_db := d'; c_next := c_next s; c_sent := l1 ++ l2; c_recv := c_recv s ++ [(i, c, r)];
     c_answers := c_answers s; c_trace := c_trace s ++ [(i, c)] |}.

(** The callbacks of call [i] run on its response [r]: they log, and
    the promise settles. *)
Definition settle_call (l1 l2 : list (nat * api_call * settled qresult)) (i : nat)
    (c : api_call) (r : settled qresult) (s : conc) : conc :=
  {| c_db := c_db s; c_next := c_next s; c_sent := c_sent s; c_recv := l1 ++ l2;
     c_answers := c_answers s ++ [(i, continue_call c r)]; c_trace := c_trace s |}.

Inductive cstep : conc -> conc -> Prop :=
| step_exec s l1 i c l2 :
    c_sent s = l1 ++ (i, c) :: l2 -> cstep s (exec_call l1 l2 i c s)
| step_settle s l1 i c r l2 :
    c_recv s = l1 ++ (i, c, r) :: l2 -> cstep s (settle_call l1 l2 i c r s).

(** A move of the whole system: a new call, or a step. *)
Inductive cmove : conc -> conc -> Prop :=
| move_issue s c : cmove s (issue c s)
| move_step s s' : cstep s s' -> cmove s s'.

(** What the process has printed: the callbacks' lines, in the order
    the callbacks ran. *)
Definition console_output (s : conc) : list string := mjoin ((fun a => a.2.1) <$> c_answers s).

(** The answers of the sequential run of the calls of [t], each with
    its call's number. *)
Definition serial_answers (d0 : db) (t : list (nat * api_call))
    : list (nat * (list string * settled api_result)) :=
  zip (fst <$> t) (run_calls (snd <$> t) d0).2.

(** Each call in flight, answered or settled, by number. *)
Definition call_ids (s : conc) : list nat :=
  (fst <$> c_sent s) ++ ((fun x => x.1.1) <$> c_recv s) ++ (fst <$> c_answers s).

(** The work left without new calls: each statement in flight is one
    step to run and one callback to run later. *)
Definition pending_work (s : conc) : nat := 2 * length (c_sent s) + length (c_recv s).

(** The system can make no step. *)
Definition irred (s : conc) : Prop := forall s', ~ cstep s s'.

(** The callbacks of the response that arrived first. *)
Definition settle_first (s : conc) : conc :=
  match c_recv s with
  | (i, c, r) :: l => settle_call [] l i c r s
  | [] => s
  end.

(** The invariant of serializability: the database is the sequential
    run's, and every response waiting and every promise settled holds
    that run's answer for its call. *)
Definition serial_inv (d0 : db) (s : conc) : Prop :=
  c_db s = (run_calls (snd <$> c_trace s) d0).1 /\
  Forall (fun x => (x.1.1, continue_call x.1.2 x.2) ∈ serial_answers d0 (c_trace s)) (c_recv s) /\
  Forall (fun a => a ∈ serial_answers d0 (c_trace s)) (c_answers s).

(** ** Lemmas *)

(** Running one more statement extends the sequential run by it. *)
Lemma serial_answers_snoc d0 t i c :
  let '(d', r) := pool_query (statement_of c).1 (statement_of c).2 (run_calls (snd <$> t) d0).1 in
  (run_calls (snd <$> t ++ [(i, c)]) d0).1 = d' /\
  serial_answers d0 (t ++ [(i, c)]) = serial_answers d0 t ++ [(i, continue_call c r)].
Proof.
  unfold serial_answers. rewrite !fmap_app. cbn [fmap list_fmap fst snd].
  rewrite run_calls_snoc. pose proof (run_calls_length (snd <$> t) d0) as Hl.
  destruct (run_calls (snd <$> t) d0) as [d outs]. cbn [fst snd] in *.
  rewrite run_call_split. destruct (pool_query _ _ d) as [d' r].
  destruct (continue_call c r) as [log a]. split; [done|].
  cbn [snd]. rewrite zip_with_app; [done|]. by rewrite Hl, !length_fmap.
Qed.

Lemma settle_first_step s : c_recv s <> [] -> cstep s (settle_first s).
Proof.
  unfold settle_first. destruct (c_recv s) as [|[[i c] r] l] eqn:E; [done|].
  intros _. by apply step_settle.
Qed.

Lemma cmove_serial_inv d0 s s' : cmove s s' -> serial_inv d0 s -> serial_inv d0 s'.
Proof.
  intros [s0 c|s0 s1 [s2 l1 i c l2 Hs|s2 l1 i c r l2 Hr]] (Hd & Hrecv & Hans); [done| |].
  - unfold exec_call. pose proof (serial_answers_snoc d0 (c_trace s2) i c) as Hsnoc.
    rewrite <- Hd in Hsnoc. destruct (pool_query _ _ (c_db s2)) as [d' r].
    destruct Hsnoc as [Hd' Heq]. unfold serial_inv; cbn [c_db c_recv c_answers c_trace].
    rewrite Heq. split_and!; [done| |].
    + apply Forall_app. split; [|apply Forall_singleton; set_solver].
      eapply Forall_impl; [exact Hrecv|]. set_solver.
    + eapply Forall_impl; [exact Hans|]. set_solver.
  - rewrite Hr in Hrecv. apply Forall_app in Hrecv as [H1 [Hx H2]%Forall_cons].
    unfold serial_inv, settle_call; cbn [c_db c_recv c_answers c_trace].
    split_and!; [done| by apply Forall_app |]. apply Forall_app. split; [done|].
    by apply Forall_singleton.
Qed.

(** Each move changes the database by at most one statement. *)
Lemma cmove_db_change s s' : cmove s s' -> db_change (c_db s) (c_db s').
Proof.
  intros [s0 c|s0 s1 [s2 l1 i c l2 Hs|s2 l1 i c r l2 Hr]]; [apply change_none| |apply change_none].
  unfold exec_call. pose proof (run_statement_change (statement_of c).1 (statement_of c).2 (c_db s2)
                                     (statement_draws_ids c)).
  simpl. destruct (run_statement _ _ _). done.
Qed.

Lemma cstep_pending_work s s' : cstep s s' -> pending_work s' < pending_work s.
Proof.
  intros [s0 l1 i c l2 Hs|s0 l1 i c r l2 Hr]; unfold pending_work.
  - unfold exec_call. destruct (pool_query _ _ _). cbn [c_sent c_recv].
    rewrite Hs, !length_app. simpl. lia.
  - cbn [settle_call c_sent c_recv]. rewrite Hr, !length_app. simpl. lia.
Qed.

Lemma cmove_call_ids s s' : cmove s s' -> call_ids s ≡ₚ seq 0 (c_next s) -> call_ids s' ≡ₚ seq 0 (c_next s').
Proof.
  unfold call_ids.
  intros [s0 c|s0 s1 [s2 l1 i c l2 Hs|s2 l1 i c r l2 Hr]] Hp.
  - cbn [issue c_sent c_recv c_answers c_next]. rewrite seq_S, <- Hp, !fmap_app. simpl.
    solve_Permutation.
  - unfold exec_call. destruct (pool_query _ _ _). cbn [c_sent c_recv c_answers c_next].
    rewrite <- Hp, Hs, !fmap_app. simpl. solve_Permutation.
  - cbn [settle_call c_sent c_recv c_answers c_next]. rewrite <- Hp, Hr, !fmap_app. simpl.
    solve_Permutation.
Qed.

Lemma irred_idle s : irred s -> c_sent s = [] /\ c_recv s = [].
Proof.
  intros Hi. split.
  - destruct (c_sent s) as [|[i c] l] eqn:E; [done|].
    destruct (Hi _ (step_exec s [] i c l E)).
  - destruct (c_recv s) as [|[[i c] r] l] eqn:E; [done|].
    destruct (Hi _ (step_settle s [] i c r l E)).
Qed.

(** Induction over the reachable states. *)
Lemma reach_ind (P : conc -> Prop) d0 :
  P (conc_init d0) -> (forall s s', cmove s s' -> P s -> P s') ->
  forall s, rtc cmove (conc_init d0) s -> P s.
Proof.
  intros Hinit Hstep. apply rtc_ind_r; [done|]. intros s1 s2 _ Hm IH. by eapply Hstep.
Qed.

(** Append only under concurrency: whatever the interleaving, rows
    are only appended to [users] and [properties], and the sequences
    never go back. *)
Lemma conc_extends (d0 : db) (s : conc) :
  rtc cmove (conc_init d0) s -> extends d0 (c_db s).
Proof.
  apply (reach_ind (fun s => extends d0 (c_db s))); [done|].
  intros s1 s2 Hm H1. eapply db_change_extends; [exact H1 | by apply cmove_db_change].
Qed.

(** ** A race *)

Definition eve_signup : api_call := CallAddUser (signup "Eve" "pw3" "eve@x.io").
Definition eve_lookup : api_call := CallGetUserWithEmail (JStr "eve@x.io").

(** A page signs Eve up and looks her up without waiting for the
    sign-up: both statements are in flight at once.  In one run the
    server runs the lookup first, in the other the sign-up. *)
Definition race_lookup_first : conc :=
  settle_first (settle_first
    (exec_call [] [] 0 eve_signup
      (exec_call [(0, eve_signup)] [] 1 eve_lookup
        (issue eve_lookup (issue eve_signup (conc_init sample_db)))))).

Definition race_signup_first : conc :=
  settle_first (settle_first
    (exec_call [] [] 1 eve_lookup
      (exec_call [] [(1, eve_lookup)] 0 eve_signup
        (issue eve_lookup (issue eve_signup (conc_init sample_db)))))).

(** The steps of the first run. *)
Lemma race_lookup_first_reach : rtc cmove (conc_init sample_db) race_lookup_first.
Proof.
  unfold race_lookup_first.
  do 2 (eapply rtc_r; [|apply move_step, settle_first_step; vm_compute; congruence]).
  do 2 (eapply rtc_r; [|apply move_step, step_exec; vm_compute; reflexivity]).
  do 2 (eapply rtc_r; [|apply move_issue]). reflexivity.
Qed.

Lemma race_signup_first_reach : rtc cmove (conc_init sample_db) race_signup_first.
Proof.
  unfold race_signup_first.
  do 2 (eapply rtc_r; [|apply move_step, settle_first_step; vm_compute; congruence]).
  do 2 (eapply rtc_r; [|apply move_step, step_exec; vm_compute; reflexivity]).
  do 2 (eapply rtc_r; [|apply move_issue]). reflexivity.
Qed.

(** Both runs answer each call and stop. *)
Lemma race_irred : irred race_lookup_first.
Proof. intros s' Hs. inversion Hs as [? l1 ? ? ? E|? l1 ? ? ? ? E]; destruct l1; vm_compute in E; discriminate. Qed.

(** ** Theorems *)

(** C8. Serializability.  Whatever the interleaving of concurrent
    calls, of the statements the server runs and of the callbacks, the
    database is the one the calls give when run one after the other in
    the order the server ran their statements ([run_calls]), and every
    settled promise carries exactly the lines logged and the value its
    call gets in that sequential run. *)
Theorem conc_serializable (d0 : db) (s : conc) :
  rtc cmove (conc_init d0) s ->
  c_db s = (run_calls (snd <$> c_trace s) d0).1 /\
  Forall (fun a => a ∈ serial_answers d0 (c_trace s)) (c_answers s).
Proof.
  intros Hr. cut (serial_inv d0 s); [by intros (Hd & _ & Ha)|].
  revert s Hr. apply (reach_ind (serial_inv d0)); [by split_and! | apply cmove_serial_inv].
Qed.

Lemma conc_serializable_witness :
  rtc cmove (conc_init sample_db) race_lookup_first /\
  c_db race_lookup_first = (run_calls (snd <$> c_trace race_lookup_first) sample_db).1 /\
  Forall (fun a => a ∈ serial_answers sample_db (c_trace race_lookup_first))
    (c_answers race_lookup_first).
Proof.
  split; [exact race_lookup_first_reach|].
  exact (conc_serializable sample_db race_lookup_first race_lookup_first_reach).
Defined.

(** C27. Integrity under concurrency.  From a database whose ids are
    below their sequences and distinct, whose e-mails are unique and
    whose properties' owners are users, every interleaving of any
    concurrent calls keeps the four properties.  The database's
    constraints keep the e-mails unique and the owners existing
    whatever is sent; the ids stay below their sequences because
    neither INSERT of the code names the [id] column
    ([DbInvariant.statement_draws_ids]): one that did would store an
    id the sequence draws later ([DbInvariant.explicit_id_breaks_wf]). *)
Theorem conc_wf (d0 : db) (s : conc) :
  db_wf d0 -> rtc cmove (conc_init d0) s -> db_wf (c_db s).
Proof.
  intros Hd. revert s. apply (reach_ind (fun s => db_wf (c_db s))); [done|].
  intros s1 s2 Hm. by apply db_change_wf, cmove_db_change.
Qed.

Lemma conc_wf_witness :
  db_wf sample_db /\ rtc cmove (conc_init sample_db) race_signup_first /\
  db_wf (c_db race_signup_first).
Proof.
  split; [exact sample_db_wf|]. split; [exact race_signup_first_reach|].
  exact (conc_wf sample_db race_signup_first sample_db_wf race_signup_first_reach).
Defined.

(** Termination of the model.  Once no new call is made, every run of the
    system is finite: each step runs one statement in flight or one
    pending callback, and there are finitely many.  A run stops only
    when no statement is in flight and no callback is pending, and then
    every call issued has been answered exactly once. *)
Theorem conc_terminates :
  well_founded (fun s' s => cstep s s') /\
  forall d0 s, rtc cmove (conc_init d0) s -> irred s ->
    c_sent s = [] /\ c_recv s = [] /\ fst <$> c_answers s ≡ₚ seq 0 (c_next s).
Proof.
  split.
  - eapply wf_incl; [|exact (wf_inverse_image _ nat lt pending_work lt_wf)].
    intros s' s. apply cstep_pending_work.
  - intros d0 s Hr Hi. destruct (irred_idle s Hi) as [Hs Hv]. split_and!; [done..|].
    assert (Hp : call_ids s ≡ₚ seq 0 (c_next s)).
    { clear Hi Hs Hv. revert s Hr.
      apply (reach_ind (fun s => call_ids s ≡ₚ seq 0 (c_next s))); [done|].
      intros s1 s2. apply cmove_call_ids. }
    unfold call_ids in Hp. by rewrite Hs, Hv in Hp.
Qed.

Lemma conc_terminates_witness :
  rtc cmove (conc_init sample_db) race_lookup_first /\ irred race_lookup_first /\
  fst <$> c_answers race_lookup_first ≡ₚ seq 0 (c_next race_lookup_first).
Proof.
  split; [exact race_lookup_first_reach|]. split; [exact race_irred|].
  apply (proj2 conc_terminates sample_db race_lookup_first race_lookup_first_reach race_irred).
Defined.

(** No ordering between concurrent calls.  Issued together, a sign-up
    and a lookup of its e-mail can both run to completion in two ways:
    the lookup logs ["Invalid email address"] and resolves to [null],
    or it resolves to the new row. *)
Example concurrent_signup_lookup_race :
  rtc cmove (conc_init sample_db) race_lookup_first /\
  rtc cmove (conc_init sample_db) race_signup_first /\
  (1, (["Invalid email address"], Resolved (OneRow RetNull))) ∈ c_answers race_lookup_first /\
  (1, ([], Resolved (OneRow (Ret (signup_row sample_db "Eve" "pw3" "eve@x.io")))))
    ∈ c_answers race_signup_first.
Proof.
  split_and!; [exact race_lookup_first_reach | exact race_signup_first_reach | |];
    vm_compute; first [apply list_elem_of_here | apply list_elem_of_further, list_elem_of_here].
Qed.
